(** * CryptoVolatility: the CSV loader, the metrics engine and the
      correlation view of [main.py]

    The development embeds the three functions of [main.py] that carry the
    numerical semantics ([load_data_from_csv], [calculate_metrics],
    [plot_correlation]) and the handlers of [main_menu] that call them.

    Numbers.  A numpy [float64] is modelled as an extended real: a finite
    value carries an exact real number, and the three special values of
    IEEE 754 (plus infinity, minus infinity, not-a-number) are kept with
    their propagation rules.  Rounding of finite results, overflow and the
    sign of zero are abstracted away; everything else (division by zero,
    [nan] poisoning, [skipna] reductions, comparisons with [nan]) follows
    numpy and pandas.

    Frames.  A pandas frame is modelled by what the program reads of it:
    the column labels, the [Date] index, the [Price] column and the
    [Returns] column.  The frames held by the [coins] dict are objects in a
    store, so that the assignment [df['Returns'] = ...] made inside
    [calculate_metrics] is seen by the dict.

    Library behaviour the model relies on: [read_csv] raises when the column
    named in [parse_dates] is absent and returns a date column unaltered,
    as text, when an entry does not parse; [Series.std] has [ddof=1] and is
    [nan] on fewer than two valid values; assigning a series as a column
    aligns it on the index of the frame; [DataFrame.corr] is the pairwise
    Pearson coefficient over the rows where both entries are finite, [nan]
    when its divisor is zero.  The date parser and the two numeric parsers
    of pandas are parameters of the loader. *)

From Stdlib Require Import Reals Lra Lia ZArith List String Ascii Bool.
From Stdlib Require Import Sorted.
From stdpp Require Import base gmap list.
Import ListNotations.

(* ================================================================== *)
(** ** numpy.float64 *)
(* ================================================================== *)

Module F64.
Local Open Scope R_scope.

Inductive float64 : Type :=
| Fin (x : R)
| PInf
| NInf
| NaN.

(** Sign of a real with respect to zero. *)
Definition Rsgn (x : R) : comparison :=
  match total_order_T x 0 with
  | inleft (left _) => Lt
  | inleft (right _) => Eq
  | inright _ => Gt
  end.

Definition sgn (a : float64) : comparison :=
  match a with
  | Fin x => Rsgn x
  | PInf => Gt
  | NInf => Lt
  | NaN => Eq
  end.

Definition cmul (c d : comparison) : comparison :=
  match c, d with
  | Eq, _ | _, Eq => Eq
  | Gt, Gt | Lt, Lt => Gt
  | _, _ => Lt
  end.

(** The infinity of a given sign; sign [Eq] stands for an invalid
    operation ([0/0], [inf*0]) and gives [nan]. *)
Definition signed_inf (c : comparison) : float64 :=
  match c with
  | Gt => PInf
  | Lt => NInf
  | Eq => NaN
  end.

Definition fneg (a : float64) : float64 :=
  match a with
  | Fin x => Fin (- x)
  | PInf => NInf
  | NInf => PInf
  | NaN => NaN
  end.

Definition fadd (a b : float64) : float64 :=
  match a, b with
  | NaN, _ | _, NaN => NaN
  | Fin x, Fin y => Fin (x + y)
  | PInf, NInf | NInf, PInf => NaN
  | PInf, _ | _, PInf => PInf
  | NInf, _ | _, NInf => NInf
  end.

Definition fsub (a b : float64) : float64 := fadd a (fneg b).

Definition fmul (a b : float64) : float64 :=
  match a, b with
  | NaN, _ | _, NaN => NaN
  | Fin x, Fin y => Fin (x * y)
  | _, _ => signed_inf (cmul (sgn a) (sgn b))
  end.

(** Division never raises on float64: a finite non-zero value over zero is
    an infinity, [0/0] is [nan].  Zero is taken as positive zero. *)
Definition fdiv (a b : float64) : float64 :=
  match a, b with
  | NaN, _ | _, NaN => NaN
  | Fin x, Fin y =>
      match Rsgn y with
      | Eq => signed_inf (Rsgn x)
      | _ => Fin (x / y)
      end
  | Fin _, _ => Fin 0
  | _, Fin y =>
      signed_inf (cmul (sgn a) (match Rsgn y with Eq => Gt | c => c end))
  | _, _ => NaN
  end.

(** [np.sqrt] *)
Definition fsqrt (a : float64) : float64 :=
  match a with
  | Fin x => match Rsgn x with Lt => NaN | _ => Fin (sqrt x) end
  | PInf => PInf
  | NInf => NaN
  | NaN => NaN
  end.

(** [np.isnan] *)
Definition isnan (a : float64) : bool :=
  match a with NaN => true | _ => false end.

(** [np.isfinite] *)
Definition isfinite (a : float64) : bool :=
  match a with Fin _ => true | _ => false end.

(** [a == b]: false as soon as one side is [nan]. *)
Definition feqb (a b : float64) : bool :=
  match a, b with
  | Fin x, Fin y => if Req_dec_T x y then true else false
  | PInf, PInf | NInf, NInf => true
  | _, _ => false
  end.

(** [a < b]: false as soon as one side is [nan]. *)
Definition fltb (a b : float64) : bool :=
  match a, b with
  | NaN, _ | _, NaN => false
  | Fin x, Fin y => if Rlt_dec x y then true else false
  | NInf, NInf | PInf, PInf => false
  | NInf, _ | _, PInf => true
  | _, _ => false
  end.

Definition fmax (a b : float64) : float64 := if fltb a b then b else a.
Definition fmin (a b : float64) : float64 := if fltb b a then b else a.

(** Conversion of a Python [int]. *)
Definition of_nat (n : nat) : float64 := Fin (INR n).
Definition of_Z (z : Z) : float64 := Fin (IZR z).

End F64.
Export F64.

(* ================================================================== *)
(** ** pandas.Series of float64: the reductions the program calls *)
(* ================================================================== *)

Module Series.

(** Values that survive [skipna=True]. *)
Definition dropna (xs : list float64) : list float64 :=
  List.filter (fun x => negb (isnan x)) xs.

Definition fsum (xs : list float64) : float64 :=
  fold_left fadd xs (Fin 0).

(** [Series.iloc[0]] and [Series.iloc[-1]]; [None] is [IndexError]. *)
Definition iloc_first (xs : list float64) : option float64 := head xs.
Definition iloc_last (xs : list float64) : option float64 := last xs.

(** [Series.pct_change()]: the first entry has no predecessor and is
    [nan]; entry [i] is [x_i / x_(i-1) - 1].  (Older pandas versions first
    forward-fill [nan] prices; the price columns the loader builds have
    none.) *)
Fixpoint pct_from (prev : float64) (xs : list float64) : list float64 :=
  match xs with
  | [] => []
  | x :: t => fsub (fdiv x prev) (Fin 1) :: pct_from x t
  end.

Definition pct_change (xs : list float64) : list float64 :=
  match xs with
  | [] => []
  | x :: t => NaN :: pct_from x t
  end.

(** [Series.mean()] with [skipna=True]: [nan] on no valid value. *)
Definition mean (xs : list float64) : float64 :=
  let v := dropna xs in
  match v with
  | [] => NaN
  | _ => fdiv (fsum v) (of_nat (length v))
  end.

(** [Series.std()]: [skipna=True], [ddof=1].  With [count <= ddof] pandas
    sets both the count and the divisor to [nan], so the result is [nan]. *)
Definition var (xs : list float64) : float64 :=
  let v := dropna xs in
  let count := length v in
  if (count <=? 1)%nat then NaN
  else
    let avg := fdiv (fsum v) (of_nat count) in
    let sqr := map (fun x => fmul (fsub avg x) (fsub avg x)) v in
    fdiv (fsum sqr) (of_nat (count - 1)).

Definition std (xs : list float64) : float64 := fsqrt (var xs).

(** [Series.cummax()] with [skipna=True]: a [nan] entry stays [nan] and
    does not enter the running maximum. *)
Fixpoint cummax_from (m : option float64) (xs : list float64)
  : list float64 :=
  match xs with
  | [] => []
  | x :: t =>
      if isnan x then NaN :: cummax_from m t
      else
        let m' := match m with None => x | Some q => fmax q x end in
        m' :: cummax_from (Some m') t
  end.

Definition cummax (xs : list float64) : list float64 := cummax_from None xs.

(** Element-wise [a / b] and [a - c] of aligned series. *)
Fixpoint sdiv (xs ys : list float64) : list float64 :=
  match xs, ys with
  | x :: xt, y :: yt => fdiv x y :: sdiv xt yt
  | _, _ => []
  end.

Definition ssub_scalar (xs : list float64) (c : float64) : list float64 :=
  map (fun x => fsub x c) xs.

(** [Series.min()] with [skipna=True]: [nan] on no valid value. *)
Definition smin (xs : list float64) : float64 :=
  match dropna xs with
  | [] => NaN
  | x :: t => fold_left fmin t x
  end.

End Series.
Export Series.

(* ================================================================== *)
(** ** The data frames of the program *)
(* ================================================================== *)

(** A label of the [Date] index: a parsed timestamp, or the raw text when
    pandas left the column unparsed. *)
Inductive label : Type :=
| Timestamp (t : Z)
| Text (s : string).

(** The frame [load_data_from_csv] returns, after [set_index('Date')]: the
    index, the [Price] column and the [Returns] column once it has been
    assigned.  Columns the program never reads (volume, open, ...) carry no
    behaviour and are left out. *)
Record DataFrame : Type := mkDF {
  index : list label;
  Price : list float64;
  Returns : option (list float64)
}.

(** [df.empty] *)
Definition empty (df : DataFrame) : bool :=
  match index df with [] => true | _ => false end.

(** [df['Returns']]; the column exists wherever the program reads it. *)
Definition get_Returns (df : DataFrame) : list float64 :=
  match Returns df with
  | Some s => s
  | None => []
  end.

(** [df['Returns'] = s] *)
Definition set_Returns (df : DataFrame) (s : list float64) : DataFrame :=
  mkDF (index df) (Price df) (Some s).

(* ================================================================== *)
(** ** calculate_metrics *)
(* ================================================================== *)

Record Metrics : Type := mkMetrics {
  Total_Return : float64;
  Volatility : float64;
  Sharpe_Ratio : float64;
  Max_Drawdown : float64
}.

Definition zero_metrics : Metrics :=
  mkMetrics (Fin 0) (Fin 0) (Fin 0) (Fin 0).

Definition sqrt365 : float64 := fsqrt (of_Z 365).

(** The default of the keyword argument [risk_free_rate=0.04]. *)
Definition default_risk_free_rate : float64 := Fin (4 / 100).

(** [drawdown = (df['Price'] / rolling_max) - 1] *)
Definition drawdown (prices : list float64) : list float64 :=
  ssub_scalar (sdiv prices (cummax prices)) (Fin 1).

(** [calculate_metrics(df, risk_free_rate)].  The function assigns
    [df['Returns']] on the frame object it was handed, so it returns the
    frame as it is after the call next to the metrics. *)
Definition calculate_metrics (df : DataFrame) (risk_free_rate : float64)
  : Metrics * DataFrame :=
  if empty df then (zero_metrics, df)
  else
    let df := set_Returns df (pct_change (Price df)) in
    let total_return :=
      match iloc_last (Price df), iloc_first (Price df) with
      | Some l, Some f => fsub (fdiv l f) (Fin 1)
      | _, _ => Fin 0                       (* except IndexError *)
      end in
    let ann_volatility := fmul (std (get_Returns df)) sqrt365 in
    let daily_rf := fdiv risk_free_rate (of_Z 365) in
    let mean_daily_return := mean (get_Returns df) in
    let daily_std := std (get_Returns df) in
    let sharpe_ratio :=
      if feqb daily_std (Fin 0) || isnan daily_std then Fin 0
      else fmul (fdiv (fsub mean_daily_return daily_rf) daily_std) sqrt365 in
    let max_drawdown := smin (drawdown (Price df)) in
    (mkMetrics total_return ann_volatility sharpe_ratio max_drawdown, df).

(* ================================================================== *)
(** ** Python strings, exceptions and printed messages *)
(* ================================================================== *)

Module Py.
Local Open Scope string_scope.

(** ASCII view of [str.isspace], [str.islower], [str.isupper]. *)
Definition is_space (c : ascii) : bool :=
  let n := nat_of_ascii c in
  ((9 <=? n) && (n <=? 13) || (28 <=? n) && (n <=? 32))%nat.

Definition is_lower (c : ascii) : bool :=
  let n := nat_of_ascii c in ((97 <=? n) && (n <=? 122))%nat.

Definition is_upper (c : ascii) : bool :=
  let n := nat_of_ascii c in ((65 <=? n) && (n <=? 90))%nat.

Definition to_upper (c : ascii) : ascii :=
  if is_lower c then ascii_of_nat (nat_of_ascii c - 32) else c.

Definition to_lower (c : ascii) : ascii :=
  if is_upper c then ascii_of_nat (nat_of_ascii c + 32) else c.

(** [s.strip()] *)
Fixpoint lstrip (s : string) : string :=
  match s with
  | EmptyString => EmptyString
  | String c t => if is_space c then lstrip t else s
  end.

Fixpoint rstrip (s : string) : string :=
  match s with
  | EmptyString => EmptyString
  | String c t =>
      match rstrip t with
      | EmptyString => if is_space c then EmptyString else String c EmptyString
      | t' => String c t'
      end
  end.

Definition strip (s : string) : string := rstrip (lstrip s).

(** [s.title()]: a cased character is upper-cased when the character
    before it is not cased, lower-cased otherwise. *)
Fixpoint title_from (previous_is_cased : bool) (s : string) : string :=
  match s with
  | EmptyString => EmptyString
  | String c t =>
      if is_lower c then
        String (if previous_is_cased then c else to_upper c) (title_from true t)
      else if is_upper c then
        String (if previous_is_cased then to_lower c else c) (title_from true t)
      else String c (title_from false t)
  end.

Definition title (s : string) : string := title_from false s.

Fixpoint upper (s : string) : string :=
  match s with
  | EmptyString => EmptyString
  | String c t => String (to_upper c) (upper t)
  end.

(** [s.replace(c, '')] for a one-character pattern. *)
Fixpoint remove_char (c : ascii) (s : string) : string :=
  match s with
  | EmptyString => EmptyString
  | String d t =>
      if Ascii.eqb c d then remove_char c t else String d (remove_char c t)
  end.

(** The exceptions the program can meet; all of them derive from
    [Exception], which is what [except Exception] catches. *)
Inductive exn : Type :=
| ReadError (cause : string)
    (* raised by [pd.read_csv] while opening or tokenising the file *)
| MissingDateColumn
    (* ValueError: Missing column provided to 'parse_dates': 'Date' *)
| CloseLastNotFound (available : list string)
    (* ValueError("Could not find 'Close/Last' column. Available: ...") *)
| DuplicateColumn (name : string)
    (* a label selecting several columns where one is needed *)
| KeyError (name : string)
| DuplicateLabels
    (* ValueError: cannot reindex on an axis with duplicate labels *)
| EOFError.
    (* raised by [input] when the input has ended *)

Inductive outcome (A : Type) : Type :=
| Returned (a : A)
| Raised (e : exn).
Arguments Returned {A} a.
Arguments Raised {A} e.

Definition bind {A B : Type} (m : outcome A) (k : A -> outcome B)
  : outcome B :=
  match m with
  | Returned a => k a
  | Raised e => Raised e
  end.

(** The lines [print] writes, one constructor per format string. *)
Inductive message : Type :=
| Error_failed_to_load (e : exn)   (* "[Error] Failed to load File: {e}" *)
| Success_loaded (ticker : string) (rows : nat)
| Error_no_valid_price_data
| Error_file_not_found
| Info_need_two_coins
| Info_no_valid_data
| Warn_please_load_data_first
| Warn_no_data_loaded
| Info_all_data_cleared
| Menu (loaded : list string)      (* the banner with "Loaded Coins: ..." *)
| Exiting
| Warn_invalid_option
| Report_rule
| Report_header
| Report_row (name : string) (m : Metrics).

End Py.
Export Py.

Notation "'let!' x ':=' m 'in' k" := (bind m (fun x => k))
  (at level 10, x pattern, m at level 100, k at level 200).

(** [try: body  except Exception as e: handler(e)] around a body that
    prints nothing itself. *)
Definition try_except {A : Type} (body : outcome A)
    (handler : exn -> outcome A * list message)
  : outcome A * list message :=
  match body with
  | Returned a => (Returned a, [])
  | Raised e => handler e
  end.

(* ================================================================== *)
(** ** load_data_from_csv *)
(* ================================================================== *)

(** What the tokeniser of [pd.read_csv] hands over: the column labels as
    pandas assigns them and the text of every cell, row by row. *)
Record raw_table : Type := mkRaw {
  header : list string;
  body : list (list string)
}.

(** A cell of the price column: a number when [read_csv] inferred a
    numeric column, the text otherwise ([dtype == object]). *)
Inductive cell : Type :=
| Num (x : float64)
| Obj (s : string).

(** The part of the frame the loader works on: the labels, and per row
    the [Date] entry and the entry of the price column. *)
Record Frame : Type := mkFrame {
  columns : list string;
  rows : list (label * cell)
}.

Definition count_label (name : string) (cols : list string) : nat :=
  length (List.filter (String.eqb name) cols).

Fixpoint position (name : string) (cols : list string) : option nat :=
  match cols with
  | [] => None
  | c :: t => if String.eqb name c then Some 0%nat
              else option_map S (position name t)
  end.

Definition cell_at (i : nat) (row : list string) : string :=
  nth i row EmptyString.

Fixpoint all_some {A : Type} (l : list (option A)) : option (list A) :=
  match l with
  | [] => Some []
  | Some a :: t => option_map (cons a) (all_some t)
  | None :: _ => None
  end.

(** Sorting rows by index label: a stable insertion sort.  pandas promises
    no order among rows with equal labels; the series of the specification
    have unique timestamps. *)
Definition label_leb (a b : label) : bool :=
  match a, b with
  | Timestamp x, Timestamp y => (x <=? y)%Z
  | Text x, Text y => String.leb x y
  | Timestamp _, Text _ => true
  | Text _, Timestamp _ => false
  end.

Fixpoint insert_row {A : Type} (r : label * A) (l : list (label * A))
  : list (label * A) :=
  match l with
  | [] => [r]
  | h :: t => if label_leb (fst r) (fst h) then r :: l
              else h :: insert_row r t
  end.

Fixpoint sort_rows {A : Type} (l : list (label * A)) : list (label * A) :=
  match l with
  | [] => []
  | r :: t => insert_row r (sort_rows t)
  end.

(** The order the sort establishes between neighbouring rows. *)
Definition label_le {A : Type} (a b : label * A) : Prop :=
  label_leb (fst a) (fst b) = true.

Definition is_Obj (c : cell) : bool :=
  match c with Obj _ => true | Num _ => false end.

(** The new label of a column under [rename(columns={'Close/Last':
    'Price'})]. *)
Definition rename_label (c : string) : string :=
  if String.eqb c "Close/Last" then "Price"%string else c.

(** [s.replace('$', '').replace(',', '')] on one text value; a number is
    left alone. *)
Definition strip_currency (s : string) : string :=
  remove_char ","%char (remove_char "$"%char s).

Definition clean_cell (c : cell) : cell :=
  match c with
  | Obj s => Obj (strip_currency s)
  | Num x => Num x
  end.

Section Loader.

(** The environment and the two parsers of pandas are parameters:
    - [read_file path] is what opening and tokenising [path] gives;
    - [parse_datetime] is the date parser behind [parse_dates];
    - [csv_float] is the numeric conversion of a cell by the reader, with
      [thousands=','] ([None]: the cell is not a number; a missing cell is
      [Some NaN]);
    - [to_numeric] is [pd.to_numeric(..., errors='coerce')] on one text
      value ([NaN] when it cannot be parsed). *)
Variable read_file : string -> outcome raw_table.
Variable parse_datetime : string -> option Z.
Variable csv_float : string -> option float64.
Variable to_numeric : string -> float64.

(** The [Date] column as [parse_dates=['Date']] leaves it: timestamps when
    every entry parses, the unaltered text otherwise. *)
Definition read_dates (cells : list string) : list label :=
  match all_some (map parse_datetime cells) with
  | Some ts => map Timestamp ts
  | None => map Text cells
  end.

(** Type inference on any other column. *)
Definition read_column (cells : list string) : list cell :=
  match all_some (map csv_float cells) with
  | Some vs => map Num vs
  | None => map Obj cells
  end.

(** [c.strip().title()] *)
Definition normalise (c : string) : string := title (strip c).

(** [pd.read_csv(file_path, parse_dates=['Date'], thousands=',')], keeping
    next to the labels the [Date] column and the column that the later
    steps call [Close/Last].  A table without that column keeps the labels
    only, which is all the loader looks at before it raises. *)
Definition read_csv (file_path : string) : outcome Frame :=
  let! t := read_file file_path in
  match position "Date"%string (header t) with
  | None => Raised MissingDateColumn
  | Some d =>
      let dates := read_dates (map (cell_at d) (body t)) in
      let prices :=
        match position "Close/Last"%string (map normalise (header t)) with
        | Some p => read_column (map (cell_at p) (body t))
        | None => map (fun _ => Obj EmptyString) (body t)
        end in
      Returned (mkFrame (header t) (combine dates prices))
  end.

(** [df.columns = [c.strip().title() for c in df.columns]] *)
Definition set_columns (df : Frame) : Frame :=
  mkFrame (map normalise (columns df)) (rows df).

(** [df.rename(columns={'Close/Last': 'Price'}, inplace=True)] *)
Definition rename_close_last (df : Frame) : Frame :=
  mkFrame (map rename_label (columns df)) (rows df).

(** [df['Price']] must be one column for [.dtype] to exist; with the label
    repeated the selection is a frame and the attribute access raises. *)
Definition select_single (name : string) (df : Frame) : outcome unit :=
  if (count_label name (columns df) =? 1)%nat then Returned tt
  else Raised (DuplicateColumn name).

(** [df['Price'].dtype == object] *)
Definition dtype_is_object (df : Frame) : bool :=
  forallb (fun r => is_Obj (snd r)) (rows df).

(** [df['Price'].astype(str).str.replace('$', '').str.replace(',', '')],
    applied to a text column. *)
Definition clean_price (df : Frame) : Frame :=
  mkFrame (columns df) (map (fun r => (fst r, clean_cell (snd r))) (rows df)).

(** [df.sort_index(inplace=True)] after [df.set_index('Date')] *)
Definition sort_index (df : Frame) : Frame :=
  mkFrame (columns df) (sort_rows (rows df)).

(** [pd.to_numeric(df['Price'], errors='coerce')] *)
Definition price_to_numeric (c : cell) : float64 :=
  match c with
  | Num x => x
  | Obj s => to_numeric s
  end.

(** [df.dropna(subset=['Price'])] *)
Definition dropna_price (l : list (label * float64))
  : list (label * float64) :=
  List.filter (fun r => negb (isnan (snd r))) l.

Definition to_DataFrame (l : list (label * float64)) : DataFrame :=
  mkDF (map fst l) (map snd l) None.

(** The body of the [try] block. *)
Definition load_body (file_path : string) : outcome DataFrame :=
  let! df := read_csv file_path in
  let df := set_columns df in
  if negb (existsb (String.eqb "Close/Last") (columns df))
  then Raised (CloseLastNotFound (columns df))
  else
    let df := rename_close_last df in
    let! _ := select_single "Price" df in
    let df := if dtype_is_object df then clean_price df else df in
    let! _ := select_single "Date" df in
    let df := sort_index df in
    let priced := map (fun r => (fst r, price_to_numeric (snd r))) (rows df) in
    Returned (to_DataFrame (dropna_price priced)).

(** [load_data_from_csv(file_path)]: the value returned ([None] after a
    failure) and what was printed. *)
Definition load_data_from_csv (file_path : string)
  : outcome (option DataFrame) * list message :=
  try_except
    (let! df := load_body file_path in Returned (Some df))
    (fun e => (Returned None, [Error_failed_to_load e])).

End Loader.

(* ================================================================== *)
(** ** DataFrame.corr() *)
(* ================================================================== *)

Module Corr.
Local Open Scope R_scope.

(** [DataFrame.corr()] with its defaults ([method='pearson'],
    [min_periods=1]).  For a pair of columns pandas keeps the rows where
    both entries are finite and returns covariance over the square root of
    the product of the two sums of squared deviations; the result is [nan]
    when fewer than [min_periods] rows remain or when that divisor is zero.
    pandas accumulates the three sums in one pass; on exact values they are
    the sums written here. *)
Fixpoint finite_pairs (xs ys : list float64) : list (R * R) :=
  match xs, ys with
  | Fin x :: xt, Fin y :: yt => (x, y) :: finite_pairs xt yt
  | _ :: xt, _ :: yt => finite_pairs xt yt
  | _, _ => []
  end.

Definition Rsum (l : list R) : R := fold_right Rplus 0 l.

Definition Rmean (l : list R) : R := Rsum l / INR (length l).

(** Sum of the products of deviations of two aligned samples. *)
Definition codev (ps : list (R * R)) : R :=
  let mx := Rmean (map fst ps) in
  let my := Rmean (map snd ps) in
  Rsum (map (fun p => (fst p - mx) * (snd p - my)) ps).

Definition ssqdm_x (ps : list (R * R)) : R :=
  codev (map (fun p => (fst p, fst p)) ps).

Definition ssqdm_y (ps : list (R * R)) : R :=
  codev (map (fun p => (snd p, snd p)) ps).

Definition pearson (xs ys : list float64) : float64 :=
  let ps := finite_pairs xs ys in
  if (length ps <? 1)%nat then NaN
  else
    let divisor := sqrt (ssqdm_x ps * ssqdm_y ps) in
    if Req_dec_T divisor 0 then NaN
    else Fin (codev ps / divisor).

(** The matrix, row by row, in the order of the columns. *)
Definition corr (cols : list (string * list float64))
  : list (list float64) :=
  map (fun cx => map (fun cy => pearson (snd cx) (snd cy)) cols) cols.

End Corr.
Export Corr.

(* ================================================================== *)
(** ** The session: the [coins] dict and the frames it refers to *)
(* ================================================================== *)

(** Frames are objects: [coins] holds references, and a call that assigns
    a column changes the object every holder sees. *)
Abbreviation loc := positive.

Record session : Type := mkSession {
  coins : list (string * loc);        (* a dict keeps insertion order *)
  heap : gmap loc DataFrame
}.

(** [coins[ticker] = df]: an existing key keeps its place. *)
Fixpoint dict_set (d : list (string * loc)) (k : string) (v : loc)
  : list (string * loc) :=
  match d with
  | [] => [(k, v)]
  | (k', v') :: t =>
      if String.eqb k k' then (k, v) :: t else (k', v') :: dict_set t k v
  end.

Definition keys (d : list (string * loc)) : list string := map fst d.

(** What the user sees: a printed line, the two charts of
    [plot_performance] (per instrument the normalised prices and the
    drawdowns), or the heat map of [plot_correlation]. *)
Inductive event : Type :=
| Print (m : message)
| Performance (curves : list (string * list float64 * list float64))
| Heatmap (names : list string) (matrix : list (list float64)).

(* ================================================================== *)
(** ** plot_performance *)
(* ================================================================== *)

(** Element-wise [series / c]. *)
Definition sdiv_scalar (xs : list float64) (c : float64) : list float64 :=
  map (fun x => fdiv x c) xs.

(** The curves drawn for every instrument whose frame has rows: the price
    over its first value, and the drawdown.  Frames are only read. *)
Fixpoint performance_curves (h : gmap loc DataFrame)
    (items : list (string * loc))
  : list (string * list float64 * list float64) :=
  match items with
  | [] => []
  | (name, l) :: rest =>
      match h !! l with
      | Some df =>
          if empty df then performance_curves h rest      (* continue *)
          else
            match iloc_first (Price df) with
            | Some first =>
                (name, sdiv_scalar (Price df) first, drawdown (Price df))
                  :: performance_curves h rest
            | None => performance_curves h rest
            end
      | None => performance_curves h rest
      end
  end.

Definition plot_performance (h : gmap loc DataFrame)
    (coins_dict : list (string * loc)) : event :=
  Performance (performance_curves h coins_dict).

(* ================================================================== *)
(** ** plot_correlation *)
(* ================================================================== *)

(** The frame [combined_returns]: its index and its columns in order. *)
Record Combined : Type := mkCombined {
  c_index : list label;
  c_columns : list (string * list float64)
}.

Definition label_eqb (a b : label) : bool :=
  match a, b with
  | Timestamp x, Timestamp y => (x =? y)%Z
  | Text x, Text y => String.eqb x y
  | _, _ => false
  end.

Fixpoint labels_eqb (a b : list label) : bool :=
  match a, b with
  | [], [] => true
  | x :: s, y :: t => label_eqb x y && labels_eqb s t
  | _, _ => false
  end.

Fixpoint is_unique (l : list label) : bool :=
  match l with
  | [] => true
  | x :: t => negb (existsb (label_eqb x) t) && is_unique t
  end.

(** The value a series holds at a label, [nan] when it has none. *)
Fixpoint value_at (idx : list label) (vals : list float64) (k : label)
  : float64 :=
  match idx, vals with
  | i :: it, v :: vt => if label_eqb i k then v else value_at it vt k
  | _, _ => NaN
  end.

(** [combined_returns[name] = series]: a frame without rows takes the
    index of the series; otherwise the series is aligned on the index of
    the frame, which pandas refuses when the labels of the series repeat
    and differ from those of the frame. *)
Definition setitem (cr : Combined) (name : string)
    (idx : list label) (vals : list float64) : outcome Combined :=
  match c_index cr with
  | [] => Returned (mkCombined idx (c_columns cr ++ [(name, vals)]))
  | _ =>
      if labels_eqb idx (c_index cr) then
        Returned (mkCombined (c_index cr) (c_columns cr ++ [(name, vals)]))
      else if is_unique idx then
        Returned (mkCombined (c_index cr)
                    (c_columns cr ++ [(name, map (value_at idx vals)
                                                 (c_index cr))]))
      else Raised DuplicateLabels
  end.

(** [combined_returns.empty] *)
Definition combined_empty (cr : Combined) : bool :=
  match c_index cr, c_columns cr with
  | _ :: _, _ :: _ => false
  | _, _ => true
  end.

(** The loop over [coins_dict.items()].  A value of the dict is a frame:
    the reference always resolves, and the branch for a missing object is
    there to make the function total. *)
Fixpoint collect_returns (h : gmap loc DataFrame)
    (items : list (string * loc)) (cr : Combined) : outcome Combined :=
  match items with
  | [] => Returned cr
  | (name, l) :: rest =>
      match h !! l with
      | None => Raised (KeyError name)
      | Some df =>
          if negb (empty df) then
            match Returns df with
            | None => Raised (KeyError "Returns")
            | Some r =>
                let! cr := setitem cr name (index df) r in
                collect_returns h rest cr
            end
          else collect_returns h rest cr
      end
  end.

Definition plot_correlation (h : gmap loc DataFrame)
    (coins_dict : list (string * loc)) : outcome (list event) :=
  if (length coins_dict <? 2)%nat then
    Returned [Print Info_need_two_coins]
  else
    let! combined_returns :=
      collect_returns h coins_dict (mkCombined [] []) in
    if combined_empty combined_returns then
      Returned [Print Info_no_valid_data]
    else
      let corr := corr (c_columns combined_returns) in
      Returned [Heatmap (map fst (c_columns combined_returns)) corr].

(* ================================================================== *)
(** ** main_menu: one handler per menu choice *)
(* ================================================================== *)

Section Menu.

Variable path_exists : string -> bool.          (* os.path.exists *)
Variable read_file : string -> outcome raw_table.
Variable parse_datetime : string -> option Z.
Variable csv_float : string -> option float64.
Variable to_numeric : string -> float64.

(** The path typed by the user: stripped, then freed of double and single
    quotes. *)
Definition double_quote : ascii := ascii_of_nat 34.

Definition clean_path (path_line : string) : string :=
  remove_char "'"%char (remove_char double_quote (strip path_line)).

(** A frame just built is a new object. *)
Definition new_loc (h : gmap loc DataFrame) : loc := fresh (dom h).

(** Choice 1.  [ticker] and [path] are the two lines typed by the user. *)
Definition menu_load (s : session) (ticker_line path_line : string)
  : outcome session * list event :=
  let ticker := strip (upper ticker_line) in
  let path := clean_path path_line in
  if path_exists path then
    let (r, printed) :=
      load_data_from_csv read_file parse_datetime csv_float to_numeric path in
    match r with
    | Raised e => (Raised e, map Print printed)
    | Returned None =>
        (Returned s, map Print printed ++ [Print Error_no_valid_price_data])
    | Returned (Some df) =>
        if negb (empty df) then
          let df := set_Returns df (pct_change (Price df)) in
          let l := new_loc (heap s) in
          (Returned (mkSession (dict_set (coins s) ticker l)
                               (<[l := df]> (heap s))),
           map Print printed
             ++ [Print (Success_loaded ticker (length (index df)))])
        else
          (Returned s, map Print printed ++ [Print Error_no_valid_price_data])
    end
  else (Returned s, [Print Error_file_not_found]).

(** Choice 2: the loop [for name, df in coins.items()] calls
    [calculate_metrics] on the stored objects themselves. *)
Fixpoint report_rows (h : gmap loc DataFrame) (items : list (string * loc))
  : gmap loc DataFrame * list event :=
  match items with
  | [] => (h, [])
  | (name, l) :: rest =>
      match h !! l with
      | None => report_rows h rest
      | Some df =>
          let (m, df') := calculate_metrics df default_risk_free_rate in
          let (h', out) := report_rows (<[l := df']> h) rest in
          (h', Print (Report_row name m) :: out)
      end
  end.

Definition menu_report (s : session) : session * list event :=
  match coins s with
  | [] => (s, [Print Warn_please_load_data_first])
  | _ =>
      let (h, out) := report_rows (heap s) (coins s) in
      (mkSession (coins s) h,
       [Print Report_rule; Print Report_header; Print Report_rule]
         ++ out ++ [Print Report_rule])
  end.

(** Choice 4. *)
Definition menu_correlation (s : session) : outcome (list event) :=
  match coins s with
  | [] => Returned [Print Warn_no_data_loaded]
  | _ => plot_correlation (heap s) (coins s)
  end.

(** Choice 5: [coins = {}]. *)
Definition menu_clear (s : session) : session * list event :=
  (mkSession [] (heap s), [Print Info_all_data_cleared]).

(** One round of the [while True] loop: what the user typed at the
    prompt, with the two further lines of choice 1. *)
Inductive choice : Type :=
| Choice_1 (ticker_line path_line : string)
| Choice_2
| Choice_3
| Choice_4
| Choice_5
| Choice_6
| Choice_other.

(** [main_menu()] on the rounds the user plays, every prompt of a round
    answered: the session when the loop is left through choice 6, the only
    [break], or the exception that stopped it, with everything shown on the
    way.  When the input ends before a choice 6 the menu is printed once
    more and the prompt raises [EOFError]. *)
Fixpoint main_menu_from (s : session) (rounds : list choice)
  : outcome session * list event :=
  match rounds with
  | [] => (Raised EOFError, [Print (Menu (keys (coins s)))])
  | c :: rest =>
      let banner := Print (Menu (keys (coins s))) in
      let continue (s' : session) (out : list event) :=
        let (r, later) := main_menu_from s' rest in
        (r, banner :: out ++ later) in
      match c with
      | Choice_1 ticker_line path_line =>
          match menu_load s ticker_line path_line with
          | (Returned s', out) => continue s' out
          | (Raised e, out) => (Raised e, banner :: out)
          end
      | Choice_2 => let (s', out) := menu_report s in continue s' out
      | Choice_3 =>
          match coins s with
          | [] => continue s [Print Warn_no_data_loaded]
          | _ => continue s [plot_performance (heap s) (coins s)]
          end
      | Choice_4 =>
          match menu_correlation s with
          | Returned out => continue s out
          | Raised e => (Raised e, [banner])
          end
      | Choice_5 => let (s', out) := menu_clear s in continue s' out
      | Choice_6 => (Returned s, [banner; Print Exiting])
      | Choice_other => continue s [Print Warn_invalid_option]
      end
  end.

Definition main_menu (rounds : list choice)
  : outcome session * list event :=
  main_menu_from (mkSession [] ∅) rounds.

End Menu.

(* ================================================================== *)
(** ** The loader as the specification words it *)
(* ================================================================== *)

Module Spec.
Local Open Scope string_scope.

Inductive LoadError : Type :=
| SchemaError (available : list string)
| ParseError.

Section Steps.

Variable parse_datetime : string -> option Z.
Variable csv_float : string -> option float64.
Variable to_numeric : string -> float64.

(** The eight normalisation steps of the loader in the order the
    specification lists them, on the table as it was read (a price column
    is numeric or textual, as the reader typed it). *)
Definition load (t : raw_table) : LoadError + DataFrame :=
  (* (1) trim and title-case all column names *)
  let names := map normalise (header t) in
  (* (2) require the close/last-price column *)
  match position "Close/Last" names with
  | None => inl (SchemaError names)
  | Some p =>
      (* (3) it is the Price field from here on *)
      let price := read_column csv_float (map (cell_at p) (body t)) in
      (* (4) textual prices lose currency symbols and separators *)
      let price := map clean_cell price in
      (* (5) parse the date column; an unparseable date fails the load *)
      match position "Date" names with
      | None => inl ParseError
      | Some d =>
          match all_some (map parse_datetime (map (cell_at d) (body t))) with
          | None => inl ParseError
          | Some ts =>
              (* (6) parse prices, unparseable entries become missing *)
              let price := map (price_to_numeric to_numeric) price in
              (* (7) sort ascending by timestamp *)
              let sorted := sort_rows (combine (map Timestamp ts) price) in
              (* (8) drop the rows whose price is missing *)
              inr (to_DataFrame (dropna_price sorted))
          end
      end
  end.

End Steps.

(** What a caller of [load_data_from_csv] sees when the loader behaves as
    [load] says. *)
Definition observed (r : LoadError + DataFrame)
    (got : outcome (option DataFrame) * list message) : Prop :=
  match r with
  | inr df => got = (Returned (Some df), [])
  | inl (SchemaError names) =>
      got = (Returned None, [Error_failed_to_load (CloseLastNotFound names)])
  | inl ParseError =>
      exists e, got = (Returned None, [Error_failed_to_load e])
  end.

End Spec.

(* ================================================================== *)
(** ** Parsers for the worked examples *)
(* ================================================================== *)

(** The theorems on the loader hold for every date parser and every
    numeric parser.  The examples need one of each: plain decimal literals
    and ISO dates, the latter mapped to an integer that orders like the
    calendar. *)
Module Plain.
Local Open Scope string_scope.

Definition digit (c : ascii) : option Z :=
  let n := nat_of_ascii c in
  if ((48 <=? n) && (n <=? 57))%nat then Some (Z.of_nat (n - 48)) else None.

Fixpoint digits_from (acc : Z) (s : string) : option Z :=
  match s with
  | EmptyString => Some acc
  | String c t =>
      match digit c with
      | Some d => digits_from (10 * acc + d) t
      | None => None
      end
  end.

Definition natural (s : string) : option Z :=
  match s with
  | EmptyString => None
  | _ => digits_from 0 s
  end.

(** The text before and after the first ['.']. *)
Fixpoint split_point (s : string) : string * option string :=
  match s with
  | EmptyString => (EmptyString, None)
  | String c t =>
      if Ascii.eqb c "."%char then (EmptyString, Some t)
      else let (a, b) := split_point t in (String c a, b)
  end.

Definition unsigned_decimal (s : string) : option R :=
  match split_point s with
  | (ip, None) => option_map IZR (natural ip)
  | (ip, Some fp) =>
      match natural ip, digits_from 0 fp with
      | Some a, Some b =>
          Some (IZR a + IZR b / IZR (10 ^ Z.of_nat (String.length fp)))%R
      | _, _ => None
      end
  end.

Definition decimal (s : string) : option R :=
  match s with
  | String "-"%char t => option_map Ropp (unsigned_decimal t)
  | _ => unsigned_decimal s
  end.

Definition to_numeric (s : string) : float64 :=
  match decimal s with
  | Some x => Fin x
  | None => NaN
  end.

Definition csv_float (s : string) : option float64 :=
  match s with
  | EmptyString => Some NaN
  | _ => option_map Fin (decimal (remove_char ","%char s))
  end.

Definition parse_datetime (s : string) : option Z :=
  match s with
  | String y1 (String y2 (String y3 (String y4 (String "-"%char
      (String m1 (String m2 (String "-"%char
        (String d1 (String d2 EmptyString))))))))) =>
      match digits_from 0 (String y1 (String y2 (String y3 (String y4 EmptyString)))),
            digits_from 0 (String m1 (String m2 EmptyString)),
            digits_from 0 (String d1 (String d2 EmptyString)) with
      | Some y, Some m, Some d =>
          if ((1 <=? m) && (m <=? 12) && (1 <=? d) && (d <=? 31))%Z
          then Some (y * 10000 + m * 100 + d)%Z
          else None
      | _, _, _ => None
      end
  | _ => None
  end.

(** A file system with one file. *)
Definition one_file (name : string) (t : raw_table) (path : string)
  : outcome raw_table :=
  if String.eqb path name then Returned t
  else Raised (ReadError "No such file or directory").

Definition load (name : string) (t : raw_table)
  : outcome (option DataFrame) * list message :=
  load_data_from_csv (one_file name t) parse_datetime csv_float to_numeric
    name.

End Plain.

(* ================================================================== *)
(** ** Reference functions on reals *)
(* ================================================================== *)

(** The running peak and the drawdown of a sequence of real prices, and
    the worked example of the specification. *)
Module Ref.
Local Open Scope R_scope.

Fixpoint running_peak (m : R) (ps : list R) : list R :=
  match ps with
  | [] => []
  | p :: t => Rmax m p :: running_peak (Rmax m p) t
  end.

Fixpoint drawdown_from (m : R) (ps : list R) : list R :=
  match ps with
  | [] => []
  | p :: t => (p / Rmax m p - 1) :: drawdown_from (Rmax m p) t
  end.

Definition positive_price (a : float64) : Prop :=
  exists x : R, a = Fin x /\ 0 < x.

(** Prices 100, 110, 99, 121 on days 1 to 4. *)
Definition four_days : DataFrame :=
  mkDF [Timestamp 1; Timestamp 2; Timestamp 3; Timestamp 4]
       [Fin 100; Fin 110; Fin 99; Fin 121] None.

End Ref.
Export Ref.

(* ================================================================== *)
(** ** Tables the loader is compared on *)
(* ================================================================== *)

(** The labels are distinct once normalised, none is already [Price], and
    the date column carries the exact label the reader looks for. *)
Definition well_labelled (t : raw_table) : Prop :=
  List.NoDup (map normalise (header t)) /\
  ~ In "Price"%string (map normalise (header t)) /\
  In "Date"%string (header t).

(** Every entry of the [Date] column parses. *)
Definition dates_parse (parse_datetime : string -> option Z)
    (t : raw_table) : Prop :=
  forall d, position "Date" (header t) = Some d ->
            exists ts,
              all_some (map parse_datetime (map (cell_at d) (body t)))
              = Some ts.

(** One candidate point per row of the table: the label of its date and
    the number its price cell stands for, [nan] when the cell is not a
    number.  [d] and [p] are the positions of the date column and of the
    close/last-price column. *)
Definition candidate_rows (parse_datetime : string -> option Z)
    (csv_float : string -> option float64) (to_numeric : string -> float64)
    (t : raw_table) (d p : nat) : list (label * float64) :=
  combine (read_dates parse_datetime (map (cell_at d) (body t)))
          (map (fun c => price_to_numeric to_numeric (clean_cell c))
               (read_column csv_float (map (cell_at p) (body t)))).

(* ================================================================== *)
(** ** Worked tables *)
(* ================================================================== *)

(** A table with a zero price, a negative price and an unparseable one. *)
Definition signed_table : raw_table :=
  mkRaw ["Date"; "Close/Last"]%string
        [["2024-01-03"; "n/a"]; ["2024-01-02"; "-5"]; ["2024-01-01"; "0"]]%string.

(** A table whose second price is negative. *)
Definition negative_table : raw_table :=
  mkRaw ["Date"; "Close/Last"]%string
        [["2024-01-01"; "100"]; ["2024-01-02"; "-50"]]%string.

(** Two rows out of order with currency-formatted prices; the same table
    with the date column labelled in lower case. *)
Definition dollar_table : raw_table :=
  mkRaw ["Date"; " close/LAST "; "Volume"]%string
        [["2024-01-02"; "$1,234.50"; "10"];
         ["2024-01-01"; "$1,200.00"; "12"]]%string.

Definition lowercase_date_table : raw_table :=
  mkRaw ["date"; " close/LAST "; "Volume"]%string
        [["2024-01-02"; "$1,234.50"; "10"];
         ["2024-01-01"; "$1,200.00"; "12"]]%string.

(** A table with a date column but no close/last-price column, once under
    the label the reader expects and once in lower case. *)
Definition volume_table : raw_table :=
  mkRaw ["Date"; "Volume"]%string [["2024-01-02"; "1500"]]%string.

Definition lowercase_volume_table : raw_table :=
  mkRaw ["date"; "volume"]%string [["2024-01-02"; "1500"]]%string.

(* ================================================================== *)
(** ** What a call may change in a frame *)
(* ================================================================== *)

(** [only_returns_written df df']: the index and the prices of [df'] are
    those of [df]; its [Returns] column is that of [df] or has been assigned
    the percentage change of the prices. *)
Definition only_returns_written (df df' : DataFrame) : Prop :=
  index df' = index df /\
  Price df' = Price df /\
  (Returns df' = Returns df \/
   Returns df' = Some (pct_change (Price df))).

(* ================================================================== *)
(** ** Reading a session and a correlation matrix *)
(* ================================================================== *)



Definition column (cols : list (string * list float64)) (i : nat)
  : list float64 :=
  snd (nth i cols (EmptyString, [])).

(** The instruments whose stored frame has rows. *)
Definition has_rows (h : gmap loc DataFrame) (kv : string * loc) : bool :=
  match h !! snd kv with
  | Some df => negb (empty df)
  | None => false
  end.

Definition nonempty_keys (h : gmap loc DataFrame)
    (items : list (string * loc)) : list string :=
  map fst (List.filter (has_rows h) items).

(** Every reference of the dict resolves to a frame that carries its
    [Returns] column and has no repeated index label, as [main_menu]
    stores them from series with unique timestamps. *)
Definition stored_frames_ok (h : gmap loc DataFrame)
    (items : list (string * loc)) : Prop :=
  Forall (fun kv => exists df r,
              h !! snd kv = Some df /\
              Returns df = Some r /\
              is_unique (index df) = true) items.

(** Two different instruments of the dict have a timestamp in common. *)
Definition overlapping (h : gmap loc DataFrame)
    (items : list (string * loc)) : Prop :=
  exists (i j : nat) (a b : string * loc) (dfa dfb : DataFrame) (k : label),
    i <> j /\
    nth_error items i = Some a /\ nth_error items j = Some b /\
    h !! snd a = Some dfa /\ h !! snd b = Some dfb /\
    In k (index dfa) /\ In k (index dfb).

(** A frame as [main_menu] stores it: prices with their returns. *)
Definition stored (idx : list label) (prices : list float64) : DataFrame :=
  mkDF idx prices (Some (pct_change prices)).

(** Two instruments of two days each, on the same days. *)
Definition two_day_heap : gmap loc DataFrame :=
  <[1%positive := stored [Timestamp 1; Timestamp 2] [Fin 100; Fin 110]]>
    (<[2%positive := stored [Timestamp 1; Timestamp 2] [Fin 100; Fin 120]]>
       ∅).

(** Two instruments of two days each, on different days. *)
Definition disjoint_heap : gmap loc DataFrame :=
  <[1%positive := stored [Timestamp 1; Timestamp 2] [Fin 100; Fin 110]]>
    (<[2%positive := stored [Timestamp 3; Timestamp 4] [Fin 100; Fin 120]]>
       ∅).

Definition two_coins : list (string * loc) :=
  [("A"%string, 1%positive); ("B"%string, 2%positive)].

(* ================================================================== *)
(** ** Sessions as main_menu builds them *)
(* ================================================================== *)

(** Every key of the dict refers to a frame, and every frame ever stored
    has rows and carries the returns of its prices. *)
Definition session_ok (s : session) : Prop :=
  Forall (fun kv => is_Some (heap s !! snd kv)) (coins s) /\
  forall l df, heap s !! l = Some df ->
               empty df = false /\
               Returns df = Some (pct_change (Price df)).

(* ================================================================== *)
(** ** Reference functions for the returns of real prices *)
(* ================================================================== *)

Module RefReturns.
Local Open Scope R_scope.

(** The simple returns of a sequence of real prices that follows [prev]. *)
Fixpoint returns_from (prev : R) (ps : list R) : list R :=
  match ps with
  | [] => []
  | p :: t => (p / prev - 1) :: returns_from p t
  end.

(** The sample variance of real values, summed in the order of pandas:
    the mean first, then the squared deviations, over [n - 1]. *)
Definition Rvar (l : list R) : R :=
  let avg := fold_left Rplus l 0 / INR (length l) in
  fold_left Rplus (map (fun x => (avg - x) * (avg - x)) l) 0
  / INR (length l - 1).

End RefReturns.
Export RefReturns.

(* ================================================================== *)
(** ** Sessions in full: tickers and stored frames *)
(* ================================================================== *)

(** A string that does not begin with white space. *)
Definition starts_clean (s : string) : Prop :=
  match s with
  | EmptyString => True
  | String c _ => is_space c = false
  end.

(** A key as choice 1 writes it: upper-cased and trimmed. *)
Definition is_ticker (k : string) : Prop := upper k = k /\ strip k = k.

(** A frame as choice 1 stores it: it has rows, one price per label, no
    missing price, ascending labels, and the returns of its prices. *)
Definition frame_wf (df : DataFrame) : Prop :=
  index df <> [] /\
  length (Price df) = length (index df) /\
  Forall (fun p => isnan p = false) (Price df) /\
  StronglySorted (fun a b => label_leb a b = true) (index df) /\
  Returns df = Some (pct_change (Price df)).

Definition session_wf (s : session) : Prop :=
  List.NoDup (keys (coins s)) /\
  Forall is_ticker (keys (coins s)) /\
  Forall (fun kv => is_Some (heap s !! snd kv)) (coins s) /\
  forall l df, heap s !! l = Some df -> frame_wf df.

(** The line of the report for one entry of the dict. *)
Definition report_line (h : gmap loc DataFrame) (kv : string * loc)
  : list event :=
  match h !! snd kv with
  | Some df =>
      [Print (Report_row (fst kv)
                (fst (calculate_metrics df default_risk_free_rate)))]
  | None => []
  end.

(** The index of the frame of the first entry of the dict, and the returns
    of an entry read at the labels of a given index. *)
Definition first_index (h : gmap loc DataFrame)
    (items : list (string * loc)) : list label :=
  match items with
  | kv :: _ => match h !! snd kv with
               | Some df => index df
               | None => []
               end
  | [] => []
  end.


Definition aligned_returns (h : gmap loc DataFrame) (idx : list label)
    (kv : string * loc) : string * list float64 :=
  (fst kv,
   match h !! snd kv with
   | Some df => map (value_at (index df) (get_Returns df)) idx
   | None => []
   end).

(** What a pair of curves of [plot_performance] looks like for a frame of
    positive prices: one point per row on either chart; the growth of one
    unit starts at 1 and is never [nan]; the drawdown starts at 0 and
    stays between -1 and 0. *)
Definition curve_ok (df : DataFrame)
    (c : string * list float64 * list float64) : Prop :=
  length (snd (fst c)) = length (index df) /\
  length (snd c) = length (index df) /\
  nth 0 (snd (fst c)) NaN = Fin 1 /\
  Forall (fun g => isnan g = false) (snd (fst c)) /\
  nth 0 (snd c) NaN = Fin 0 /\
  Forall (fun d => exists x : R, d = Fin x /\ (-1 <= x <= 0)%R) (snd c).

(* ================================================================== *)
(** * Properties *)
(* ================================================================== *)

(** ** Arithmetic on finite values *)

Arguments fadd : simpl never.
Arguments fsub : simpl never.
Arguments fmul : simpl never.
Arguments fdiv : simpl never.
Arguments fsqrt : simpl never.
Arguments fmax : simpl never.
Arguments fmin : simpl never.
Arguments fltb : simpl never.
Arguments feqb : simpl never.
Arguments String.eqb : simpl never.

Section FiniteArithmetic.
Local Open Scope R_scope.

Lemma Rsgn_Eq_inv (x : R) : Rsgn x = Eq -> x = 0.
Proof.
  unfold Rsgn.
  destruct (total_order_T x 0) as [[Hlt | Heq] | Hgt]; congruence.
Qed.

Lemma fdiv_fin (x y : R) : y <> 0 -> fdiv (Fin x) (Fin y) = Fin (x / y).
Proof.
  intros H. unfold fdiv. destruct (Rsgn y) eqn:E; try reflexivity.
  apply Rsgn_Eq_inv in E. contradiction.
Qed.

Lemma fsub_fin (x y : R) : fsub (Fin x) (Fin y) = Fin (x - y).
Proof. reflexivity. Qed.

Lemma fmax_fin (x y : R) : fmax (Fin x) (Fin y) = Fin (Rmax x y).
Proof.
  unfold fmax, Rmax, fltb.
  destruct (Rlt_dec x y), (Rle_dec x y);
    try reflexivity; try lra; f_equal; lra.
Qed.

Lemma fmin_fin (x y : R) : fmin (Fin x) (Fin y) = Fin (Rmin x y).
Proof.
  unfold fmin, Rmin, fltb.
  destruct (Rlt_dec y x), (Rle_dec x y);
    try reflexivity; try lra; f_equal; lra.
Qed.

End FiniteArithmetic.

(** Rewrites a closed expression over finite values to one [Fin]. *)
Ltac fin_eval :=
  repeat first
    [ rewrite fsub_fin
    | rewrite fmax_fin
    | rewrite fmin_fin
    | rewrite fdiv_fin by lra
    | match goal with
      | |- context [Rmax ?a ?b] =>
          first [rewrite (Rmax_right a b) by lra
                | rewrite (Rmax_left a b) by lra]
      | |- context [Rmin ?a ?b] =>
          first [rewrite (Rmin_right a b) by lra
                | rewrite (Rmin_left a b) by lra]
      end ].

(** Compares two lists of floats entry by entry. *)
Ltac list_fin :=
  repeat match goal with
         | |- cons _ _ = cons _ _ =>
             apply f_equal2; [try reflexivity; try (apply f_equal; lra) | ]
         end;
  try reflexivity.

(** ** calculate_metrics *)

Section MetricsFacts.
Local Open Scope R_scope.

Lemma calculate_metrics_empty (df : DataFrame) (rf : float64) :
  empty df = true -> calculate_metrics df rf = (zero_metrics, df).
Proof. intros H. unfold calculate_metrics. rewrite H. reflexivity. Qed.

(** With at most one return defined the sample deviation is [nan]. *)
Lemma std_short (xs : list float64) :
  (length (dropna xs) <= 1)%nat -> std xs = NaN.
Proof.
  intros H. unfold std, var.
  destruct (Nat.leb_spec (length (dropna xs)) 1) as [_ | Hgt];
    [reflexivity | lia].
Qed.

Lemma dropna_length_le (xs : list float64) :
  (length (dropna xs) <= length xs)%nat.
Proof.
  induction xs as [| x t IH]; simpl; [lia |].
  destruct (isnan x); simpl; lia.
Qed.

Lemma pct_from_length (prev : float64) (xs : list float64) :
  length (pct_from prev xs) = length xs.
Proof.
  revert prev. induction xs as [| x t IH]; intros prev; simpl;
    [reflexivity | now rewrite IH].
Qed.

Lemma pct_change_defined_le (xs : list float64) :
  (length (dropna (pct_change xs)) <= length xs - 1)%nat.
Proof.
  destruct xs as [| x t]; simpl; [lia |].
  pose proof (dropna_length_le (pct_from x t)) as H.
  rewrite pct_from_length in H. lia.
Qed.

(** A frame of one or two rows has volatility [nan]. *)
Lemma short_series_volatility_nan (df : DataFrame) (rf : float64) :
  empty df = false -> (length (Price df) <= 2)%nat ->
  Volatility (fst (calculate_metrics df rf)) = NaN.
Proof.
  intros Hne Hlen. unfold calculate_metrics. rewrite Hne.
  cbn [fst Volatility get_Returns set_Returns Returns].
  rewrite std_short; [reflexivity |].
  pose proof (pct_change_defined_le (Price df)). lia.
Qed.

End MetricsFacts.

(** C1 (the code departs from the claim).  A one-row series with a positive
    price does not get the all-zero record: total return, Sharpe ratio and
    maximum drawdown are 0, but the volatility is [nan], because the sample
    deviation of the single undefined return is [nan] and only the Sharpe
    ratio is guarded against it. *)
Theorem single_row_volatility_is_nan
    (i : label) (p : R) (r : option (list float64)) (rf : float64) :
  (0 < p)%R ->
  fst (calculate_metrics (mkDF [i] [Fin p] r) rf)
  = mkMetrics (Fin 0) NaN (Fin 0) (Fin 0).
Proof.
  intros Hp. unfold calculate_metrics. simpl.
  unfold drawdown, cummax, smin. simpl.
  rewrite !fdiv_fin by lra. rewrite !fsub_fin. simpl.
  replace (p / p - 1)%R with 0%R by (field; lra).
  reflexivity.
Qed.

Lemma single_row_volatility_is_nan_witness :
  (0 < 100)%R /\
  fst (calculate_metrics (mkDF [Timestamp 1] [Fin 100] None)
         default_risk_free_rate)
  = mkMetrics (Fin 0) NaN (Fin 0) (Fin 0).
Proof.
  split; [lra | apply single_row_volatility_is_nan; lra].
Defined.

(** C9.  On prices 100, 110, 99, 121 the return column is undefined on day
    1 and then 0.10, -0.10, 0.2222... (= 2/9); the total return is 0.21;
    the pointwise drawdowns are 0, 0, 99/110 - 1, 0 and the maximum
    drawdown is their minimum, -0.10. *)
Theorem four_day_scenario :
  let r := calculate_metrics four_days default_risk_free_rate in
  Returns (snd r)
    = Some [NaN; Fin (1 / 10); Fin (- 1 / 10); Fin (2 / 9)]%R /\
  dropna (pct_change (Price four_days))
    = [Fin (1 / 10); Fin (- 1 / 10); Fin (2 / 9)]%R /\
  Total_Return (fst r) = Fin (21 / 100)%R /\
  drawdown (Price four_days)
    = [Fin 0; Fin 0; Fin (99 / 110 - 1); Fin 0]%R /\
  Max_Drawdown (fst r) = Fin (- 1 / 10)%R.
Proof.
  assert (Hret : pct_change (Price four_days)
                 = [NaN; Fin (1 / 10); Fin (- 1 / 10); Fin (2 / 9)]%R).
  { simpl. fin_eval. list_fin. }
  assert (Hdd : drawdown (Price four_days)
                = [Fin 0; Fin 0; Fin (99 / 110 - 1); Fin 0]%R).
  { unfold drawdown, cummax. simpl. fin_eval. list_fin. }
  cbv zeta. unfold calculate_metrics.
  change (empty four_days) with false. cbv iota.
  cbn [fst snd Returns set_Returns Total_Return Max_Drawdown Price].
  change (Price four_days) with [Fin 100; Fin 110; Fin 99; Fin 121]%R in *.
  rewrite Hdd, Hret.
  repeat split.
  - simpl. fin_eval. f_equal. lra.
  - unfold smin. simpl. fin_eval. f_equal. lra.
Qed.

(** ** The running peak and the drawdown of positive prices *)

Section Drawdown.
Local Open Scope R_scope.

Lemma running_peak_length (m : R) (ps : list R) :
  length (running_peak m ps) = length ps.
Proof.
  revert m. induction ps as [| p t IH]; intros m; simpl;
    [reflexivity | now rewrite IH].
Qed.

Lemma drawdown_from_length (m : R) (ps : list R) :
  length (drawdown_from m ps) = length ps.
Proof.
  revert m. induction ps as [| p t IH]; intros m; simpl;
    [reflexivity | now rewrite IH].
Qed.

(** Every peak dominates the starting value. *)
Lemma running_peak_ge_start (m : R) (ps : list R) (i : nat) :
  (i < length ps)%nat -> m <= nth i (running_peak m ps) 0.
Proof.
  revert m i. induction ps as [| p t IH]; intros m i Hi; simpl in *; [lia |].
  destruct i as [| i].
  - apply Rmax_l.
  - apply Rle_trans with (Rmax m p); [apply Rmax_l | apply IH; lia].
Qed.

(** Every peak dominates the prices seen so far. *)
Lemma running_peak_upper (m : R) (ps : list R) (i j : nat) :
  (j <= i)%nat -> (i < length ps)%nat ->
  nth j ps 0 <= nth i (running_peak m ps) 0.
Proof.
  revert m i j. induction ps as [| p t IH]; intros m i j Hji Hi;
    simpl in *; [lia |].
  destruct i as [| i].
  - assert (j = 0%nat) by lia. subst j. apply Rmax_r.
  - destruct j as [| j].
    + apply Rle_trans with (Rmax m p); [apply Rmax_r |].
      apply running_peak_ge_start. lia.
    + apply IH; lia.
Qed.

(** Every peak is the starting value or one of the prices seen so far. *)
Lemma running_peak_attained (m : R) (ps : list R) (i : nat) :
  (i < length ps)%nat ->
  nth i (running_peak m ps) 0 = m \/
  exists j, (j <= i)%nat /\ nth i (running_peak m ps) 0 = nth j ps 0.
Proof.
  revert m i. induction ps as [| p t IH]; intros m i Hi; simpl in *; [lia |].
  destruct i as [| i].
  - unfold Rmax. destruct (Rle_dec m p); [right; exists 0%nat | left];
      (split + idtac); try lia; reflexivity.
  - destruct (IH (Rmax m p) i) as [H | [j [Hj H]]]; [lia | |].
    + rewrite H. unfold Rmax. destruct (Rle_dec m p);
        [right; exists 0%nat; split; [lia | reflexivity] | left; reflexivity].
    + right. exists (S j). split; [lia | exact H].
Qed.

(** The peaks never decrease. *)
Lemma running_peak_monotone (m : R) (ps : list R) (i j : nat) :
  (i <= j)%nat -> (j < length ps)%nat ->
  nth i (running_peak m ps) 0 <= nth j (running_peak m ps) 0.
Proof.
  revert m i j. induction ps as [| p t IH]; intros m i j Hij Hj;
    simpl in *; [lia |].
  destruct i as [| i], j as [| j]; try lia.
  - apply Rle_refl.
  - apply running_peak_ge_start. lia.
  - apply IH; lia.
Qed.

Lemma drawdown_from_nth (m : R) (ps : list R) (i : nat) :
  (i < length ps)%nat ->
  nth i (drawdown_from m ps) 0
  = nth i ps 0 / nth i (running_peak m ps) 0 - 1.
Proof.
  revert m i. induction ps as [| p t IH]; intros m i Hi; simpl in *; [lia |].
  destruct i as [| i]; [reflexivity | apply IH; lia].
Qed.

(** On positive prices the float computation is the real one. *)
Lemma cummax_from_fin (m : R) (ps : list R) :
  cummax_from (Some (Fin m)) (map Fin ps) = map Fin (running_peak m ps).
Proof.
  revert m. induction ps as [| p t IH]; intros m; simpl; [reflexivity |].
  rewrite fmax_fin, IH. reflexivity.
Qed.

Lemma sdiv_fin (m : R) (ps : list R) :
  0 < m -> Forall (fun p => 0 < p) ps ->
  ssub_scalar (sdiv (map Fin ps) (map Fin (running_peak m ps))) (Fin 1)
  = map Fin (drawdown_from m ps).
Proof.
  intros Hm Hps. revert m Hm. unfold ssub_scalar.
  induction Hps as [| p t Hp Ht IH]; intros m Hm; simpl; [reflexivity |].
  assert (Hmax : 0 < Rmax m p)
    by (apply Rlt_le_trans with m; [lra | apply Rmax_l]).
  rewrite fdiv_fin by lra. rewrite fsub_fin.
  rewrite IH by exact Hmax. reflexivity.
Qed.

Lemma drawdown_fin (p : R) (t : list R) :
  Forall (fun p => 0 < p) (p :: t) ->
  drawdown (map Fin (p :: t)) = map Fin (drawdown_from p (p :: t)).
Proof.
  intros H. unfold drawdown, cummax.
  assert (Hp : 0 < p) by (inversion H; assumption).
  rewrite <- sdiv_fin by assumption.
  simpl. rewrite cummax_from_fin.
  rewrite (Rmax_left p p) by lra. reflexivity.
Qed.

Lemma dropna_fin (l : list R) : dropna (map Fin l) = map Fin l.
Proof. induction l as [| x t IH]; simpl; [reflexivity | now rewrite IH]. Qed.

Lemma fold_fmin_fin (l : list R) (x : R) :
  fold_left fmin (map Fin l) (Fin x) = Fin (fold_left Rmin l x).
Proof.
  revert x. induction l as [| y t IH]; intros x; simpl; [reflexivity |].
  rewrite fmin_fin. apply IH.
Qed.

Lemma fold_Rmin_le_start (l : list R) (x : R) : fold_left Rmin l x <= x.
Proof.
  revert x. induction l as [| y t IH]; intros x; simpl; [apply Rle_refl |].
  apply Rle_trans with (Rmin x y); [apply IH | apply Rmin_l].
Qed.

Lemma fold_Rmin_lower (l : list R) (x : R) (i : nat) :
  (i < length (x :: l))%nat -> fold_left Rmin l x <= nth i (x :: l) 0.
Proof.
  revert x i. induction l as [| y t IH]; intros x i Hi; simpl in Hi.
  - assert (i = 0%nat) by lia. subst i. simpl. apply Rle_refl.
  - destruct i as [| i].
    + simpl. apply Rle_trans with (Rmin x y);
        [apply fold_Rmin_le_start | apply Rmin_l].
    + change (nth (S i) (x :: y :: t) 0) with (nth i (y :: t) 0).
      simpl fold_left.
      destruct i as [| i].
      * simpl. apply Rle_trans with (Rmin x y);
          [apply fold_Rmin_le_start | apply Rmin_r].
      * change (nth (S i) (y :: t) 0) with (nth (S i) (Rmin x y :: t) 0).
        apply IH. simpl. lia.
Qed.

Lemma fold_Rmin_attained (l : list R) (x : R) :
  exists i, (i < length (x :: l))%nat /\
            fold_left Rmin l x = nth i (x :: l) 0.
Proof.
  revert x. induction l as [| y t IH]; intros x.
  - exists 0%nat. simpl. split; [lia | reflexivity].
  - simpl fold_left. destruct (IH (Rmin x y)) as [i [Hi H]].
    destruct i as [| i].
    + simpl in H. destruct (Rle_dec x y) as [Hxy | Hxy].
      * exists 0%nat. split; [simpl; lia |].
        rewrite H. simpl. apply Rmin_left. exact Hxy.
      * exists 1%nat. split; [simpl; lia |].
        rewrite H. simpl. apply Rmin_right. lra.
    + exists (S (S i)). split; [simpl in *; lia | rewrite H; reflexivity].
Qed.

Lemma smin_fin (x : R) (l : list R) :
  smin (map Fin (x :: l)) = Fin (fold_left Rmin l x).
Proof.
  unfold smin. rewrite dropna_fin. simpl. apply fold_fmin_fin.
Qed.

End Drawdown.

Lemma positive_nth (ps : list R) (i : nat) :
  Forall (fun p => 0 < p)%R ps -> (i < length ps)%nat -> (0 < nth i ps 0)%R.
Proof.
  intros H. revert i. induction H as [| p t Hp Ht IH]; intros i Hi;
    simpl in *; [lia |].
  destruct i as [| i]; [exact Hp | apply IH; lia].
Qed.

(** C4 (amended).  For a series of positive prices: [cummax] is the
    running peak (an upper bound of the prices seen so far, attained by one
    of them, and never decreasing); the maximum drawdown is the minimum of
    [price / peak - 1] over the points, it lies between -1 and 0, and it is
    0 when no price is below its running peak and when the series is
    empty. *)
Theorem max_drawdown_is_min_over_running_peak
    (df : DataFrame) (rf : float64) (ps : list R) :
  Price df = map Fin ps ->
  Forall (fun p => 0 < p)%R ps ->
  length (index df) = length ps ->
  exists (peaks : list R) (d : R),
    cummax (Price df) = map Fin peaks /\
    length peaks = length ps /\
    (forall i j, (j <= i < length ps)%nat ->
                 (nth j ps 0 <= nth i peaks 0)%R) /\
    (forall i, (i < length ps)%nat ->
               exists j, (j <= i)%nat /\ nth i peaks 0%R = nth j ps 0%R) /\
    (forall i j, (i <= j < length ps)%nat ->
                 (nth i peaks 0 <= nth j peaks 0)%R) /\
    Max_Drawdown (fst (calculate_metrics df rf)) = Fin d /\
    (-1 <= d <= 0)%R /\
    (forall i, (i < length ps)%nat ->
               (d <= nth i ps 0 / nth i peaks 0 - 1)%R) /\
    (ps <> [] ->
     exists i, (i < length ps)%nat /\
               d = (nth i ps 0 / nth i peaks 0 - 1)%R) /\
    ((forall i, (i < length ps)%nat -> nth i ps 0%R = nth i peaks 0%R) ->
     d = 0%R) /\
    (ps = [] -> d = 0%R).
Proof.
  intros HP Hpos Hlen. destruct ps as [| p t].
  - (* the empty series *)
    exists [], 0%R. rewrite HP.
    assert (He : empty df = true).
    { unfold empty. destruct (index df); [reflexivity | discriminate]. }
    rewrite calculate_metrics_empty by exact He. simpl.
    repeat split; try reflexivity; try lra; try (intros; simpl in *; lia).
    intros H. contradiction.
  - set (ps := p :: t) in *.
    set (peaks := running_peak p ps).
    set (dd := drawdown_from p ps).
    assert (Hp : (0 < p)%R) by (inversion Hpos; assumption).
    assert (Hdd : drawdown (Price df) = map Fin dd).
    { rewrite HP. apply drawdown_fin. exact Hpos. }
    assert (Hpk : forall i, (i < length ps)%nat ->
                            (0 < nth i ps 0 <= nth i peaks 0)%R).
    { intros i Hi. split; [apply positive_nth; assumption |].
      apply running_peak_upper; [lia | exact Hi]. }
    assert (Hrange : forall i, (i < length ps)%nat ->
                               (-1 <= nth i dd 0 <= 0)%R).
    { intros i Hi. unfold dd. rewrite drawdown_from_nth by exact Hi.
      destruct (Hpk i Hi) as [H1 H2]. fold peaks.
      assert (Hq : (0 < nth i ps 0 / nth i peaks 0 <= 1)%R).
      { split.
        - apply Rdiv_lt_0_compat; lra.
        - replace 1%R with (nth i peaks 0 / nth i peaks 0)%R
            by (field; lra).
          unfold Rdiv. apply Rmult_le_compat_r; [| lra].
          left. apply Rinv_0_lt_compat. lra. }
      lra. }
    destruct (fold_Rmin_attained
                (drawdown_from (Rmax p p) t) (p / Rmax p p - 1)%R)
      as [k [Hk Hatt]].
    change ((p / Rmax p p - 1)%R :: drawdown_from (Rmax p p) t)
      with dd in Hk, Hatt.
    assert (Hddlen : length dd = length ps)
      by apply drawdown_from_length.
    exists peaks, (fold_left Rmin (drawdown_from (Rmax p p) t)
                     (p / Rmax p p - 1)%R).
    split; [| split; [| split; [| split; [| split; [| split;
      [| split; [| split; [| split; [| split]]]]]]]]].
    + rewrite HP. unfold cummax, peaks, ps. simpl.
      rewrite cummax_from_fin, (Rmax_left p p) by lra. reflexivity.
    + apply running_peak_length.
    + intros i j [Hji Hi]. apply running_peak_upper; assumption.
    + intros i Hi.
      destruct (running_peak_attained p ps i Hi) as [H | H]; [| exact H].
      exists 0%nat. split; [lia | exact H].
    + intros i j [Hij Hj]. apply running_peak_monotone; assumption.
    + unfold calculate_metrics.
      assert (He : empty df = false).
      { unfold empty. destruct (index df); [discriminate | reflexivity]. }
      rewrite He. simpl. rewrite Hdd. unfold dd, ps.
      change (drawdown_from p (p :: t))
        with ((p / Rmax p p - 1)%R :: drawdown_from (Rmax p p) t).
      apply smin_fin.
    + rewrite Hatt. apply Hrange. lia.
    + intros i Hi.
      unfold peaks. rewrite <- (drawdown_from_nth p ps i Hi). fold dd.
      apply (fold_Rmin_lower (drawdown_from (Rmax p p) t)
               (p / Rmax p p - 1)%R i).
      change ((p / Rmax p p - 1)%R :: drawdown_from (Rmax p p) t) with dd.
      lia.
    + intros _. exists k. split; [lia |].
      rewrite Hatt. unfold dd. apply drawdown_from_nth. lia.
    + intros Hflat. rewrite Hatt. unfold dd.
      rewrite drawdown_from_nth by lia. fold peaks.
      rewrite <- Hflat by lia.
      assert (0 < nth k ps 0)%R by (apply positive_nth; [assumption | lia]).
      field. lra.
    + discriminate.
Qed.

Lemma max_drawdown_is_min_over_running_peak_witness :
  Price four_days = map Fin [100; 110; 99; 121]%R /\
  Forall (fun p => 0 < p)%R [100; 110; 99; 121]%R /\
  length (index four_days) = length [100; 110; 99; 121]%R /\
  exists (peaks : list R) (d : R),
    cummax (Price four_days) = map Fin peaks /\
    Max_Drawdown (fst (calculate_metrics four_days default_risk_free_rate))
      = Fin d /\
    (-1 <= d <= 0)%R.
Proof.
  assert (H1 : Price four_days = map Fin [100; 110; 99; 121]%R)
    by reflexivity.
  assert (H2 : Forall (fun p => 0 < p)%R [100; 110; 99; 121]%R)
    by (repeat constructor; lra).
  assert (H3 : length (index four_days) = length [100; 110; 99; 121]%R)
    by reflexivity.
  split; [exact H1 | split; [exact H2 | split; [exact H3 |]]].
  destruct (max_drawdown_is_min_over_running_peak four_days
              default_risk_free_rate [100; 110; 99; 121]%R H1 H2 H3)
    as [peaks [d [Hc [_ [_ [_ [_ [Hm [Hb _]]]]]]]]].
  exists peaks, d. split; [exact Hc | split; [exact Hm | exact Hb]].
Defined.

Lemma load_negative_table :
  Plain.load "coin.csv" negative_table
  = (Returned (Some (mkDF [Timestamp 20240101; Timestamp 20240102]
                          [Fin 100; Fin (- (50))]%R None)), []).
Proof.
  cbv -[IZR Rplus Rmult Rdiv Rinv Rminus Ropp Z.pow].
  repeat f_equal.
Qed.

(** C4 (as stated, refuted).  The bound does not hold for every series the
    loader produces: it keeps the negative price of [negative_table], and
    on the prices 100, -50 the running peak stays at 100, the drawdown of
    the second day is -50/100 - 1 = -1.5, and the maximum drawdown is
    below -1. *)
Lemma negative_price_drawdown_below_minus_one :
  ~ (forall (read_file : string -> outcome raw_table)
            (parse_datetime : string -> option Z)
            (csv_float : string -> option float64)
            (to_numeric : string -> float64)
            (path : string) (df : DataFrame) (rf : float64),
        fst (load_data_from_csv read_file parse_datetime csv_float
               to_numeric path) = Returned (Some df) ->
        exists d : R,
          Max_Drawdown (fst (calculate_metrics df rf)) = Fin d /\
          (-1 <= d <= 0)%R).
Proof.
  intros claim.
  destruct (claim (Plain.one_file "coin.csv" negative_table)
              Plain.parse_datetime Plain.csv_float Plain.to_numeric
              "coin.csv"%string
              (mkDF [Timestamp 20240101; Timestamp 20240102]
                    [Fin 100; Fin (- (50))]%R None)
              default_risk_free_rate) as [d [Hd Hr]].
  { change (fst (Plain.load "coin.csv" negative_table) = Returned
      (Some (mkDF [Timestamp 20240101; Timestamp 20240102]
                  [Fin 100; Fin (- (50))]%R None))).
    rewrite load_negative_table. reflexivity. }
  assert (Hdd : drawdown [Fin 100; Fin (- (50))]%R
                = [Fin 0; Fin (- (50) / 100 - 1)]%R).
  { unfold drawdown, cummax. simpl. fin_eval. list_fin. }
  assert (Hm : Max_Drawdown
                 (fst (calculate_metrics
                         (mkDF [Timestamp 20240101; Timestamp 20240102]
                               [Fin 100; Fin (- (50))]%R None)
                         default_risk_free_rate))
               = Fin (- (50) / 100 - 1)%R).
  { unfold calculate_metrics.
    change (empty (mkDF [Timestamp 20240101; Timestamp 20240102]
                        [Fin 100; Fin (- (50))]%R None)) with false.
    cbv iota. cbn [fst Max_Drawdown Price set_Returns]. rewrite Hdd.
    unfold smin. simpl. fin_eval. reflexivity. }
  rewrite Hm in Hd. injection Hd as <-. lra.
Qed.

(** ** load_data_from_csv *)

Section LoaderFacts.

Variable read_file : string -> outcome raw_table.
Variable parse_datetime : string -> option Z.
Variable csv_float : string -> option float64.
Variable to_numeric : string -> float64.

Local Abbreviation body :=
  (load_body read_file parse_datetime csv_float to_numeric).
Local Abbreviation load :=
  (load_data_from_csv read_file parse_datetime csv_float to_numeric).
Local Abbreviation reader := (read_csv read_file parse_datetime csv_float).

Lemma position_existsb (name : string) (cols : list string) :
  existsb (String.eqb name) cols
  = match position name cols with Some _ => true | None => false end.
Proof.
  induction cols as [| c t IH]; simpl; [reflexivity |].
  destruct (String.eqb name c); simpl; [reflexivity |].
  rewrite IH. destruct (position name t); reflexivity.
Qed.

(** The loader returns what its body returns and turns every exception of
    the body into [None] and one printed line. *)
Lemma load_returned (path : string) (df : DataFrame) :
  body path = Returned df ->
  load path = (Returned (Some df), []).
Proof.
  intros H. unfold load_data_from_csv, try_except. rewrite H. reflexivity.
Qed.

Lemma load_raised (path : string) (e : exn) :
  body path = Raised e ->
  load path = (Returned None, [Error_failed_to_load e]).
Proof.
  intros H. unfold load_data_from_csv, try_except. rewrite H. reflexivity.
Qed.

Lemma load_success_inv (path : string) (df : DataFrame) :
  fst (load path) = Returned (Some df) ->
  body path = Returned df.
Proof.
  unfold load_data_from_csv, try_except.
  destruct (body path) as [d | e]; simpl; intros H; congruence.
Qed.

(** A table without the exact label [Date] stops the reader. *)
Lemma read_csv_no_date (path : string) (t : raw_table) :
  read_file path = Returned t ->
  position "Date" (header t) = None ->
  reader path = Raised MissingDateColumn.
Proof.
  intros Hr Hd. unfold read_csv. rewrite Hr. simpl. rewrite Hd. reflexivity.
Qed.

(** What a successful body has computed. *)
Lemma load_body_inv (path : string) (df : DataFrame) :
  body path = Returned df ->
  exists fr : Frame,
    reader path = Returned fr /\
    df = to_DataFrame
           (dropna_price
              (map (fun r => (fst r, price_to_numeric to_numeric (snd r)))
                   (sort_rows
                      (rows (let g := rename_close_last (set_columns fr) in
                             if dtype_is_object g then clean_price g
                             else g))))).
Proof.
  unfold load_body. destruct (reader path) as [fr | e]; simpl; [| discriminate].
  destruct (negb _); [discriminate |].
  destruct (select_single "Price" _); simpl; [| discriminate].
  destruct (select_single "Date" _); simpl; [| discriminate].
  intros H. injection H as <-. exists fr. split; reflexivity.
Qed.

Lemma dropna_price_not_nan (l : list (label * float64)) :
  Forall (fun p => isnan p = false) (map snd (dropna_price l)).
Proof.
  induction l as [| [k v] t IH]; simpl; [constructor |].
  destruct (isnan v) eqn:E; simpl; [exact IH |].
  constructor; [exact E | exact IH].
Qed.

End LoaderFacts.

(** C6.  For every file system, every pair of parsers and every path the
    loader returns: either the frame its body computed and nothing printed,
    or [None] together with one printed line that carries the exception
    that stopped its body; a failure to read the file is such a case.  No
    exception leaves it. *)
Theorem load_never_raises
    (read_file : string -> outcome raw_table)
    (parse_datetime : string -> option Z)
    (csv_float : string -> option float64)
    (to_numeric : string -> float64) (path : string) :
  ((exists df,
      load_body read_file parse_datetime csv_float to_numeric path
      = Returned df /\
      load_data_from_csv read_file parse_datetime csv_float to_numeric path
      = (Returned (Some df), [])) \/
   (exists e,
      load_body read_file parse_datetime csv_float to_numeric path
      = Raised e /\
      load_data_from_csv read_file parse_datetime csv_float to_numeric path
      = (Returned None, [Error_failed_to_load e]))) /\
  (forall e,
      read_file path = Raised e ->
      load_data_from_csv read_file parse_datetime csv_float to_numeric path
      = (Returned None, [Error_failed_to_load e])).
Proof.
  split.
  - destruct (load_body read_file parse_datetime csv_float to_numeric path)
      as [df | e] eqn:E.
    + left. exists df. split; [reflexivity | apply load_returned; exact E].
    + right. exists e. split; [reflexivity | apply load_raised; exact E].
  - intros e He. apply load_raised.
    unfold load_body, read_csv. rewrite He. reflexivity.
Qed.

(** ** A table without the close/last-price column *)

Lemma position_In (name : string) (cols : list string) :
  In name cols -> exists i, position name cols = Some i.
Proof.
  induction cols as [| c t IH]; simpl; [contradiction |].
  intros [-> | H].
  - rewrite String.eqb_refl. exists 0%nat. reflexivity.
  - destruct (String.eqb name c); [exists 0%nat; reflexivity |].
    destruct (IH H) as [i ->]. exists (S i). reflexivity.
Qed.

Section MissingColumn.

Variable path_exists : string -> bool.
Variable read_file : string -> outcome raw_table.
Variable parse_datetime : string -> option Z.
Variable csv_float : string -> option float64.
Variable to_numeric : string -> float64.

Lemma load_body_missing_close_last (path : string) (t : raw_table) :
  read_file path = Returned t ->
  position "Close/Last" (map normalise (header t)) = None ->
  load_body read_file parse_datetime csv_float to_numeric path
  = match position "Date" (header t) with
    | Some _ => Raised (CloseLastNotFound (map normalise (header t)))
    | None => Raised MissingDateColumn
    end.
Proof.
  intros Hr Hc. unfold load_body, read_csv. rewrite Hr. simpl.
  destruct (position "Date" (header t)); [| reflexivity].
  simpl. rewrite position_existsb, Hc. reflexivity.
Qed.

(** A load that returns [None] leaves the session as it was. *)
Lemma menu_load_failed (s : session) (ticker_line path_line : string) :
  fst (load_data_from_csv read_file parse_datetime csv_float to_numeric
         (clean_path path_line)) = Returned None ->
  fst (menu_load path_exists read_file parse_datetime csv_float to_numeric
         s ticker_line path_line) = Returned s.
Proof.
  intros H. unfold menu_load.
  destruct (path_exists (clean_path path_line)); [| reflexivity].
  destruct (load_data_from_csv _ _ _ _ _) as [r printed].
  simpl in H. subst r. reflexivity.
Qed.

End MissingColumn.

(** C7 (amended).  A table that lacks the close/last-price column never
    gives a series, and the session is left as it was.  When the table has
    a column labelled exactly [Date] the failure is the error that lists
    the normalised column names; otherwise the reader has already failed on
    the missing [Date] column. *)
Theorem missing_close_last_fails_and_keeps_session
    (path_exists : string -> bool)
    (read_file : string -> outcome raw_table)
    (parse_datetime : string -> option Z)
    (csv_float : string -> option float64)
    (to_numeric : string -> float64)
    (s : session) (ticker_line path_line : string) (t : raw_table) :
  read_file (clean_path path_line) = Returned t ->
  position "Close/Last" (map normalise (header t)) = None ->
  (In "Date"%string (header t) ->
   load_data_from_csv read_file parse_datetime csv_float to_numeric
     (clean_path path_line)
   = (Returned None,
      [Error_failed_to_load
         (CloseLastNotFound (map normalise (header t)))])) /\
  (exists e,
     load_data_from_csv read_file parse_datetime csv_float to_numeric
       (clean_path path_line)
     = (Returned None, [Error_failed_to_load e])) /\
  fst (menu_load path_exists read_file parse_datetime csv_float to_numeric
         s ticker_line path_line) = Returned s.
Proof.
  intros Hr Hc.
  pose proof (load_body_missing_close_last read_file parse_datetime
                csv_float to_numeric _ _ Hr Hc) as Hb.
  assert (Hex : exists e,
             load_data_from_csv read_file parse_datetime csv_float to_numeric
               (clean_path path_line)
             = (Returned None, [Error_failed_to_load e])).
  { destruct (position "Date" (header t));
      eexists; apply load_raised; exact Hb. }
  split; [| split; [exact Hex |]].
  - intros Hin. apply position_In in Hin. destruct Hin as [i Hi].
    rewrite Hi in Hb. apply load_raised. exact Hb.
  - apply menu_load_failed. destruct Hex as [e ->]. reflexivity.
Qed.

Lemma missing_close_last_fails_and_keeps_session_witness :
  let s := mkSession [] ∅ in
  Plain.one_file "coin.csv" volume_table (clean_path " coin.csv ")
  = Returned volume_table /\
  position "Close/Last" (map normalise (header volume_table)) = None /\
  load_data_from_csv (Plain.one_file "coin.csv" volume_table)
    Plain.parse_datetime Plain.csv_float Plain.to_numeric
    (clean_path " coin.csv ")
  = (Returned None,
     [Error_failed_to_load (CloseLastNotFound ["Date"; "Volume"]%string)]) /\
  fst (menu_load (fun _ => true) (Plain.one_file "coin.csv" volume_table)
         Plain.parse_datetime Plain.csv_float Plain.to_numeric
         s "btc" " coin.csv ") = Returned s.
Proof.
  intros s.
  assert (Hr : Plain.one_file "coin.csv" volume_table
                 (clean_path " coin.csv ") = Returned volume_table)
    by reflexivity.
  assert (Hc : position "Close/Last" (map normalise (header volume_table))
               = None) by reflexivity.
  destruct (missing_close_last_fails_and_keeps_session (fun _ => true)
              (Plain.one_file "coin.csv" volume_table)
              Plain.parse_datetime Plain.csv_float Plain.to_numeric
              s "btc" " coin.csv " volume_table Hr Hc) as [H1 [_ H3]].
  split; [exact Hr | split; [exact Hc | split; [| exact H3]]].
  apply H1. simpl. left. reflexivity.
Defined.

(** C7 (as stated, refuted).  On [lowercase_volume_table], which lacks the
    close/last-price column, the failure is not the error that lists the
    columns: the reader stops on the label [Date] it does not find. *)
Lemma missing_close_last_without_listing :
  ~ (forall (read_file : string -> outcome raw_table)
            (parse_datetime : string -> option Z)
            (csv_float : string -> option float64)
            (to_numeric : string -> float64)
            (path : string) (t : raw_table),
        read_file path = Returned t ->
        position "Close/Last" (map normalise (header t)) = None ->
        load_data_from_csv read_file parse_datetime csv_float to_numeric path
        = (Returned None,
           [Error_failed_to_load
              (CloseLastNotFound (map normalise (header t)))])).
Proof.
  intros claim.
  specialize (claim (Plain.one_file "coin.csv" lowercase_volume_table)
                Plain.parse_datetime Plain.csv_float Plain.to_numeric
                "coin.csv"%string lowercase_volume_table
                eq_refl eq_refl).
  discriminate claim.
Qed.

(** ** The order of the normalisation steps *)

Section StepOrder.

Lemma insert_row_map {A B : Type} (f : A -> B) (r : label * A)
    (l : list (label * A)) :
  insert_row (fst r, f (snd r)) (map (fun x => (fst x, f (snd x))) l)
  = map (fun x => (fst x, f (snd x))) (insert_row r l).
Proof.
  induction l as [| h t IH]; simpl; [reflexivity |].
  destruct (label_leb (fst r) (fst h)); simpl; [reflexivity |].
  now rewrite IH.
Qed.

(** Sorting by label commutes with any change of the other field. *)
Lemma sort_rows_map {A B : Type} (f : A -> B) (l : list (label * A)) :
  sort_rows (map (fun x => (fst x, f (snd x))) l)
  = map (fun x => (fst x, f (snd x))) (sort_rows l).
Proof.
  induction l as [| r t IH]; simpl; [reflexivity |].
  rewrite IH. apply insert_row_map.
Qed.

Lemma combine_map_r {A B C : Type} (f : B -> C) (xs : list A) (ys : list B) :
  combine xs (map f ys) = map (fun x => (fst x, f (snd x))) (combine xs ys).
Proof.
  revert ys. induction xs as [| x t IH]; intros [| y u]; simpl;
    try reflexivity.
  now rewrite IH.
Qed.

Lemma position_nth (name : string) (cols : list string) (i : nat) :
  position name cols = Some i ->
  (i < length cols)%nat /\ nth i cols EmptyString = name.
Proof.
  revert i. induction cols as [| c t IH]; intros i; simpl; [discriminate |].
  destruct (String.eqb_spec name c) as [-> | Hne].
  - intros H. injection H as <-. split; [lia | reflexivity].
  - destruct (position name t) as [j |]; simpl; [| discriminate].
    intros H. injection H as <-.
    destruct (IH j eq_refl) as [Hj Hn]. split; [lia | exact Hn].
Qed.

Lemma normalise_Date : normalise "Date" = "Date"%string.
Proof. reflexivity. Qed.

(** With distinct normalised labels the exact label [Date] and the
    normalised label [Date] name the same column. *)
Lemma position_Date_normalised (hd : list string) (d : nat) :
  List.NoDup (map normalise hd) ->
  position "Date" hd = Some d ->
  position "Date" (map normalise hd) = Some d.
Proof.
  intros Hnd Hd.
  destruct (position_nth _ _ _ Hd) as [Hlt Hnth].
  assert (Hin : In "Date"%string (map normalise hd)).
  { rewrite <- normalise_Date at 1. apply in_map.
    rewrite <- Hnth. apply nth_In. exact Hlt. }
  destruct (position_In _ _ Hin) as [e He].
  destruct (position_nth _ _ _ He) as [Hlt' Hnth'].
  rewrite He. f_equal.
  apply (proj1 (NoDup_nth (map normalise hd) EmptyString) Hnd);
    [exact Hlt' | now rewrite length_map |].
  rewrite Hnth'.
  change EmptyString with (normalise EmptyString).
  rewrite map_nth, Hnth. reflexivity.
Qed.

Lemma count_label_cons (name c : string) (t : list string) :
  count_label name (c :: t)
  = ((if String.eqb name c then 1 else 0) + count_label name t)%nat.
Proof.
  unfold count_label. simpl. destruct (String.eqb name c); reflexivity.
Qed.

Lemma count_label_absent (name : string) (l : list string) :
  ~ In name l -> count_label name l = 0%nat.
Proof.
  induction l as [| c t IH]; intros H; [reflexivity |].
  rewrite count_label_cons.
  destruct (String.eqb_spec name c) as [-> | Hne].
  - exfalso. apply H. left. reflexivity.
  - rewrite IH; [reflexivity |]. intros Hin. apply H. right. exact Hin.
Qed.

Lemma count_label_once (name : string) (l : list string) :
  List.NoDup l -> In name l -> count_label name l = 1%nat.
Proof.
  induction 1 as [| c t Hc Hnd IH]; intros Hin; [contradiction |].
  rewrite count_label_cons.
  destruct (String.eqb_spec name c) as [-> | Hne].
  - rewrite count_label_absent by exact Hc. reflexivity.
  - destruct Hin as [-> | Hin]; [contradiction |].
    rewrite IH by exact Hin. reflexivity.
Qed.

Lemma count_Price_renamed (l : list string) :
  count_label "Price" (map rename_label l)
  = (count_label "Price" l + count_label "Close/Last" l)%nat.
Proof.
  induction l as [| c t IH]; [reflexivity |].
  simpl map. rewrite !count_label_cons, IH. unfold rename_label at 1.
  destruct (String.eqb_spec c "Close/Last") as [-> | Hne].
  - change (String.eqb "Price" "Price") with true.
    change (String.eqb "Price" "Close/Last") with false.
    change (String.eqb "Close/Last" "Close/Last") with true.
    cbv iota. lia.
  - destruct (String.eqb_spec "Close/Last" c) as [<- | _]; [contradiction |].
    cbv iota. lia.
Qed.

Lemma count_Date_renamed (l : list string) :
  count_label "Date" (map rename_label l) = count_label "Date" l.
Proof.
  induction l as [| c t IH]; [reflexivity |].
  simpl map. rewrite !count_label_cons, IH. unfold rename_label at 1.
  destruct (String.eqb_spec c "Close/Last") as [-> | Hne]; reflexivity.
Qed.

(** A column as the reader types it is all text or all numbers. *)
Lemma read_column_uniform (csv_float : string -> option float64)
    (cells : list string) :
  forallb is_Obj (read_column csv_float cells) = true \/
  Forall (fun c => is_Obj c = false) (read_column csv_float cells).
Proof.
  unfold read_column.
  destruct (all_some (map csv_float cells)) as [vs |].
  - right. induction vs; simpl; constructor; [reflexivity | assumption].
  - left. induction cells; simpl; [reflexivity | assumption].
Qed.

Lemma clean_numbers (l : list cell) :
  Forall (fun c => is_Obj c = false) l -> map clean_cell l = l.
Proof.
  induction 1 as [| c t Hc Ht IH]; simpl; [reflexivity |].
  rewrite IH. destruct c; [reflexivity | discriminate].
Qed.

Lemma forallb_combine_snd {A B : Type} (f : B -> bool)
    (xs : list A) (ys : list B) :
  length xs = length ys ->
  forallb (fun r => f (snd r)) (combine xs ys) = forallb f ys.
Proof.
  revert ys. induction xs as [| x t IH]; intros [| y u] H; simpl in *;
    try reflexivity; try discriminate.
  rewrite IH by lia. reflexivity.
Qed.

Lemma all_some_length {A : Type} (l : list (option A)) (r : list A) :
  all_some l = Some r -> length r = length l.
Proof.
  revert r. induction l as [| [a |] t IH]; intros r; simpl.
  - intros H. injection H as <-. reflexivity.
  - destruct (all_some t) as [u |]; simpl; [| discriminate].
    intros H. injection H as <-. simpl. now rewrite (IH u).
  - discriminate.
Qed.

Lemma read_column_length (csv_float : string -> option float64)
    (cells : list string) :
  length (read_column csv_float cells) = length cells.
Proof.
  unfold read_column.
  destruct (all_some (map csv_float cells)) as [vs |] eqn:E.
  - rewrite length_map. rewrite (all_some_length _ _ E). apply length_map.
  - apply length_map.
Qed.

End StepOrder.

(** ** The sort of the loader is a sort *)

Section Sorting.

Lemma label_leb_total (a b : label) :
  label_leb a b = false -> label_leb b a = true.
Proof.
  destruct a as [x | x], b as [y | y]; simpl; try congruence.
  - intros H. apply Z.leb_gt in H. apply Z.leb_le. lia.
  - intros H. destruct (String.leb_total x y) as [E | E]; congruence.
Qed.

Lemma insert_row_perm {A : Type} (r : label * A) (l : list (label * A)) :
  Permutation (insert_row r l) (r :: l).
Proof.
  induction l as [| h t IH]; simpl; [reflexivity |].
  destruct (label_leb (fst r) (fst h)); [reflexivity |].
  rewrite IH. apply perm_swap.
Qed.

(** Sorting keeps every row, once. *)
Lemma sort_rows_perm {A : Type} (l : list (label * A)) :
  Permutation (sort_rows l) l.
Proof.
  induction l as [| r t IH]; simpl; [reflexivity |].
  rewrite insert_row_perm, IH. reflexivity.
Qed.

Lemma insert_row_sorted {A : Type} (r : label * A) (l : list (label * A)) :
  Sorted label_le l -> Sorted label_le (insert_row r l).
Proof.
  induction l as [| h t IH]; intros Hs; simpl.
  - repeat constructor.
  - destruct (label_leb (fst r) (fst h)) eqn:E.
    + constructor; [exact Hs |]. constructor. exact E.
    + apply Sorted_inv in Hs. destruct Hs as [Ht Hh].
      constructor; [apply IH; exact Ht |].
      destruct t as [| k u]; simpl.
      * constructor. apply label_leb_total. exact E.
      * destruct (label_leb (fst r) (fst k)).
        -- constructor. apply label_leb_total. exact E.
        -- constructor. inversion Hh. assumption.
Qed.

(** Sorting leaves the labels in ascending order. *)
Lemma sort_rows_sorted {A : Type} (l : list (label * A)) :
  Sorted label_le (sort_rows l).
Proof.
  induction l as [| r t IH]; simpl; [constructor |].
  apply insert_row_sorted. exact IH.
Qed.

End Sorting.

Section Refinement.

Variable read_file : string -> outcome raw_table.
Variable parse_datetime : string -> option Z.
Variable csv_float : string -> option float64.
Variable to_numeric : string -> float64.

(** The rows the loader sorts: the date column next to the price column,
    text prices cleaned. *)
Lemma cleaned_rows (cols : list string) (dates : list label)
    (cells : list string) :
  length dates = length cells ->
  rows (let g := mkFrame cols (combine dates (read_column csv_float cells))
        in if dtype_is_object g then clean_price g else g)
  = combine dates (map clean_cell (read_column csv_float cells)).
Proof.
  intros Hlen. cbv zeta. unfold dtype_is_object. cbn [rows].
  rewrite forallb_combine_snd
    by (rewrite read_column_length; exact Hlen).
  destruct (read_column_uniform csv_float cells) as [Hobj | Hnum].
  - rewrite Hobj. unfold clean_price. cbn [rows].
    symmetry. apply combine_map_r.
  - rewrite (clean_numbers _ Hnum).
    destruct (forallb is_Obj (read_column csv_float cells));
      [| reflexivity].
    unfold clean_price. cbn [rows].
    rewrite <- combine_map_r, (clean_numbers _ Hnum). reflexivity.
Qed.

Lemma read_dates_length (cells : list string) :
  length (read_dates parse_datetime cells) = length cells.
Proof.
  unfold read_dates.
  destruct (all_some (map parse_datetime cells)) as [ts |] eqn:E.
  - rewrite length_map, (all_some_length _ _ E). apply length_map.
  - apply length_map.
Qed.

(** The value of a successful load, step by step. *)
Lemma load_body_value (path : string) (t : raw_table) (d p : nat) :
  read_file path = Returned t ->
  position "Date" (header t) = Some d ->
  position "Close/Last" (map normalise (header t)) = Some p ->
  count_label "Price" (map rename_label (map normalise (header t))) = 1%nat ->
  count_label "Date" (map rename_label (map normalise (header t))) = 1%nat ->
  load_body read_file parse_datetime csv_float to_numeric path
  = Returned
      (to_DataFrame
         (dropna_price
            (sort_rows
               (combine
                  (read_dates parse_datetime (map (cell_at d) (body t)))
                  (map (price_to_numeric to_numeric)
                     (map clean_cell
                        (read_column csv_float
                           (map (cell_at p) (body t))))))))).
Proof.
  intros Hr Hd Hp Hc1 Hc2.
  unfold load_body, read_csv. rewrite Hr. cbn [bind]. rewrite Hd, Hp.
  cbn [bind]. unfold set_columns, rename_close_last, select_single.
  cbn [columns rows].
  rewrite position_existsb, Hp. cbn [negb]. rewrite Hc1. cbn [bind].
  assert (Hcols : forall g : Frame,
             columns (if dtype_is_object g then clean_price g else g)
             = columns g).
  { intros g. destruct (dtype_is_object g); reflexivity. }
  rewrite Hcols. cbn [columns]. rewrite Hc2. cbn [bind].
  unfold sort_index. cbn [rows].
  pose proof (cleaned_rows (map rename_label (map normalise (header t)))
                (read_dates parse_datetime (map (cell_at d) (body t)))
                (map (cell_at p) (body t))) as Hrows.
  cbv zeta in Hrows. rewrite Hrows
    by (rewrite read_dates_length, !length_map; reflexivity).
  rewrite <- sort_rows_map, <- combine_map_r. reflexivity.
Qed.

Lemma load_body_refines_spec (path : string) (t : raw_table) :
  read_file path = Returned t ->
  well_labelled t ->
  dates_parse parse_datetime t ->
  match Spec.load parse_datetime csv_float to_numeric t with
  | inr df =>
      load_body read_file parse_datetime csv_float to_numeric path
      = Returned df
  | inl (Spec.SchemaError names) =>
      load_body read_file parse_datetime csv_float to_numeric path
      = Raised (CloseLastNotFound names)
  | inl Spec.ParseError =>
      exists e,
        load_body read_file parse_datetime csv_float to_numeric path = Raised e
  end.
Proof.
  intros Hr [Hnd [Hprice Hdate]] Hparse.
  destruct (position_In _ _ Hdate) as [d Hd].
  destruct (Hparse d Hd) as [ts Hts].
  pose proof (position_Date_normalised _ _ Hnd Hd) as Hd'.
  unfold Spec.load.
  destruct (position "Close/Last" (map normalise (header t)))
    as [p |] eqn:Hp.
  - rewrite Hd', Hts.
    assert (Hin : In "Close/Last"%string (map normalise (header t))).
    { destruct (position_nth _ _ _ Hp) as [Hlt Hn].
      rewrite <- Hn. apply nth_In. exact Hlt. }
    rewrite (load_body_value path t d p Hr Hd Hp).
    + unfold read_dates. rewrite Hts. reflexivity.
    + rewrite count_Price_renamed, (count_label_absent _ _ Hprice),
        (count_label_once _ _ Hnd Hin). reflexivity.
    + rewrite count_Date_renamed. apply count_label_once; [exact Hnd |].
      destruct (position_nth _ _ _ Hd') as [Hlt Hn].
      rewrite <- Hn. apply nth_In. exact Hlt.
  - rewrite (load_body_missing_close_last read_file parse_datetime
               csv_float to_numeric _ _ Hr Hp), Hd.
    reflexivity.
Qed.

End Refinement.

Section Retained.

Variable read_file : string -> outcome raw_table.
Variable parse_datetime : string -> option Z.
Variable csv_float : string -> option float64.
Variable to_numeric : string -> float64.

Lemma insert_row_length {A : Type} (r : label * A) (l : list (label * A)) :
  length (insert_row r l) = S (length l).
Proof.
  induction l as [| h t IH]; simpl; [reflexivity |].
  destruct (label_leb (fst r) (fst h)); simpl; [reflexivity |].
  now rewrite IH.
Qed.

Lemma sort_rows_length {A : Type} (l : list (label * A)) :
  length (sort_rows l) = length l.
Proof.
  induction l as [| r t IH]; simpl; [reflexivity |].
  now rewrite insert_row_length, IH.
Qed.

(** The frame the reader returns has one row per row of the table. *)
Lemma read_csv_rows (path : string) (fr : Frame) :
  read_csv read_file parse_datetime csv_float path = Returned fr ->
  exists t, read_file path = Returned t /\
            length (rows fr) = length (body t).
Proof.
  unfold read_csv. destruct (read_file path) as [t | e]; cbn [bind];
    [| discriminate].
  destruct (position "Date" (header t)) as [d |]; [| discriminate].
  intros H. injection H as <-. exists t. split; [reflexivity |].
  cbn [rows]. rewrite length_combine, read_dates_length, length_map.
  destruct (position "Close/Last" (map normalise (header t))).
  - rewrite read_column_length, length_map. lia.
  - rewrite length_map. lia.
Qed.

Lemma cleaned_rows_length (g : Frame) :
  length (rows (if dtype_is_object g then clean_price g else g))
  = length (rows g).
Proof.
  destruct (dtype_is_object g); [| reflexivity].
  unfold clean_price. cbn [rows]. apply length_map.
Qed.

Lemma candidate_rows_length (t : raw_table) (d p : nat) :
  length (candidate_rows parse_datetime csv_float to_numeric t d p)
  = length (body t).
Proof.
  unfold candidate_rows.
  rewrite length_combine, read_dates_length, !length_map,
    read_column_length, length_map.
  apply Nat.min_id.
Qed.

(** A load that succeeds has read a table with a date column and a
    close/last-price column, and its frame is made of the candidate rows
    of that table: sorted, then freed of those with a missing price. *)
Lemma load_body_success (path : string) (df : DataFrame) :
  load_body read_file parse_datetime csv_float to_numeric path
  = Returned df ->
  exists (t : raw_table) (d p : nat),
    read_file path = Returned t /\
    position "Date" (header t) = Some d /\
    position "Close/Last" (map normalise (header t)) = Some p /\
    df = to_DataFrame
           (dropna_price
              (sort_rows
                 (candidate_rows parse_datetime csv_float to_numeric
                    t d p))).
Proof.
  intros H. pose proof H as H0.
  unfold load_body, read_csv in H.
  destruct (read_file path) as [t | e] eqn:Hr; cbn [bind] in H;
    [| discriminate].
  destruct (position "Date" (header t)) as [d |] eqn:Hd; cbn [bind] in H;
    [| discriminate].
  unfold set_columns, rename_close_last, select_single in H.
  cbn [columns rows] in H. rewrite position_existsb in H.
  destruct (position "Close/Last" (map normalise (header t)))
    as [p |] eqn:Hp; cbn [negb] in H; [| discriminate].
  destruct (Nat.eqb_spec
              (count_label "Price"
                 (map rename_label (map normalise (header t)))) 1)
    as [Hc1 | _]; cbn [bind] in H; [| discriminate].
  assert (Hcols : forall g : Frame,
             columns (if dtype_is_object g then clean_price g else g)
             = columns g).
  { intros g. destruct (dtype_is_object g); reflexivity. }
  rewrite Hcols in H. cbn [columns] in H.
  destruct (Nat.eqb_spec
              (count_label "Date"
                 (map rename_label (map normalise (header t)))) 1)
    as [Hc2 | _]; cbn [bind] in H; [| discriminate].
  exists t, d, p.
  split; [reflexivity |]. split; [exact Hd |]. split; [exact Hp |].
  rewrite (load_body_value read_file parse_datetime csv_float to_numeric
             path t d p Hr Hd Hp Hc1 Hc2) in H0.
  injection H0 as <-. unfold candidate_rows. now rewrite map_map.
Qed.

Lemma combine_fst_snd {A B : Type} (l : list (A * B)) :
  combine (map fst l) (map snd l) = l.
Proof.
  induction l as [| [a b] t IH]; simpl; [reflexivity | now rewrite IH].
Qed.

End Retained.

(** C2 (amended).  The series the loader returns is made of the rows of
    the table: one candidate per row, the date of the row with the number
    its price cell stands for, sorted by date, from which exactly the
    candidates with a missing price have been dropped.  A point is in the
    result if and only if it is a candidate whose price is not missing:
    every retained price is a parsed number, whatever its sign, and a row
    whose price cannot be parsed is dropped. *)
Theorem load_retains_only_parsed_prices
    (read_file : string -> outcome raw_table)
    (parse_datetime : string -> option Z)
    (csv_float : string -> option float64)
    (to_numeric : string -> float64) (path : string) (df : DataFrame) :
  fst (load_data_from_csv read_file parse_datetime csv_float to_numeric path)
  = Returned (Some df) ->
  exists (t : raw_table) (d p : nat),
    read_file path = Returned t /\
    position "Date" (header t) = Some d /\
    position "Close/Last" (map normalise (header t)) = Some p /\
    length (candidate_rows parse_datetime csv_float to_numeric t d p)
    = length (body t) /\
    combine (index df) (Price df)
    = dropna_price
        (sort_rows (candidate_rows parse_datetime csv_float to_numeric
                      t d p)) /\
    length (index df) = length (Price df) /\
    (forall (k : label) (v : float64),
        In (k, v) (combine (index df) (Price df))
        <-> In (k, v) (candidate_rows parse_datetime csv_float to_numeric
                         t d p)
            /\ isnan v = false) /\
    Forall (fun v => isnan v = false) (Price df).
Proof.
  intros H. apply load_success_inv in H.
  apply load_body_success in H.
  destruct H as [t [d [p [Hr [Hd [Hp ->]]]]]].
  exists t, d, p.
  split; [exact Hr |]. split; [exact Hd |]. split; [exact Hp |].
  split; [apply candidate_rows_length |].
  unfold to_DataFrame. cbn [index Price]. rewrite combine_fst_snd.
  split; [reflexivity |].
  split; [now rewrite !length_map |].
  split; [| apply dropna_price_not_nan].
  intros k v. unfold dropna_price. rewrite filter_In. cbn [snd].
  rewrite negb_true_iff. split; intros [Hin Hv]; (split; [| exact Hv]).
  - apply (Permutation_in _ (sort_rows_perm _)). exact Hin.
  - apply (Permutation_in _ (Permutation_sym (sort_rows_perm _))).
    exact Hin.
Qed.

Lemma load_signed_table :
  Plain.load "coin.csv" signed_table
  = (Returned (Some (mkDF [Timestamp 20240101; Timestamp 20240102]
                          [Fin 0; Fin (- (5))]%R None)), []).
Proof.
  cbv -[IZR Rplus Rmult Rdiv Rinv Rminus Ropp Z.pow]. 
  repeat f_equal. 
Qed.

Lemma load_retains_only_parsed_prices_witness :
  let df := mkDF [Timestamp 20240101; Timestamp 20240102]
                 [Fin 0; Fin (- (5))]%R None in
  fst (Plain.load "coin.csv" signed_table) = Returned (Some df) /\
  exists (t : raw_table) (d p : nat),
    Plain.one_file "coin.csv" signed_table "coin.csv" = Returned t /\
    position "Date" (header t) = Some d /\
    position "Close/Last" (map normalise (header t)) = Some p /\
    length (candidate_rows Plain.parse_datetime Plain.csv_float
              Plain.to_numeric t d p) = length (body t) /\
    combine (index df) (Price df)
    = dropna_price
        (sort_rows (candidate_rows Plain.parse_datetime Plain.csv_float
                      Plain.to_numeric t d p)) /\
    length (index df) = length (Price df) /\
    (forall (k : label) (v : float64),
        In (k, v) (combine (index df) (Price df))
        <-> In (k, v) (candidate_rows Plain.parse_datetime Plain.csv_float
                         Plain.to_numeric t d p)
            /\ isnan v = false) /\
    Forall (fun v => isnan v = false) (Price df).
Proof.
  intros df.
  assert (H : fst (Plain.load "coin.csv" signed_table) = Returned (Some df)).
  { rewrite load_signed_table. reflexivity. }
  split; [exact H |].
  exact (load_retains_only_parsed_prices _ _ _ _ _ _ H).
Defined.

(** C2 (as stated, refuted).  The loader keeps the rows priced 0 and -5 of
    [signed_table]: a retained price need not be positive. *)
Lemma load_keeps_nonpositive_price :
  ~ (forall (read_file : string -> outcome raw_table)
            (parse_datetime : string -> option Z)
            (csv_float : string -> option float64)
            (to_numeric : string -> float64)
            (path : string) (df : DataFrame),
        fst (load_data_from_csv read_file parse_datetime csv_float
               to_numeric path) = Returned (Some df) ->
        Forall positive_price (Price df)).
Proof.
  intros claim.
  specialize (claim (Plain.one_file "coin.csv" signed_table)
                Plain.parse_datetime Plain.csv_float Plain.to_numeric
                "coin.csv"%string
                (mkDF [Timestamp 20240101; Timestamp 20240102]
                      [Fin 0; Fin (- (5))]%R None)).
  assert (H : Forall positive_price [Fin 0; Fin (- (5))]%R).
  { apply claim. change (fst (Plain.load "coin.csv" signed_table) = Returned
      (Some (mkDF [Timestamp 20240101; Timestamp 20240102]
                  [Fin 0; Fin (- (5))]%R None))).
    rewrite load_signed_table. reflexivity. }
  inversion H as [| a l [x [Hx Hpos]] _]; subst.
  injection Hx as <-. lra.
Qed.


Lemma load_dollar_table :
  Plain.load "coin.csv" dollar_table
  = (Returned (Some (mkDF [Timestamp 20240101; Timestamp 20240102]
                          [Fin 1200; Fin (12345 / 10)]%R None)), []).
Proof.
  cbv -[IZR Rplus Rmult Rdiv Rinv Rminus Ropp Z.pow].
  do 4 f_equal. apply f_equal2; [f_equal | f_equal; f_equal];
    change (10 ^ 2)%Z with 100%Z; lra.
Qed.

Lemma dollar_price_parses :
  price_to_numeric Plain.to_numeric (clean_cell (Obj "$1,234.50"))
  = Fin (12345 / 10)%R.
Proof.
  cbv -[IZR Rplus Rmult Rdiv Rinv Rminus Ropp Z.pow].
  f_equal. change (10 ^ 2)%Z with 100%Z. lra.
Qed.

(** C3 (amended).  The loader parses the date column first, while it reads
    the file, on the column labelled exactly [Date]: a table without that
    label fails there, and dates that do not parse do not fail the load.
    On a well-labelled table whose dates all parse, it returns exactly what
    the eight steps give in the order trim and title-case, require
    close/last, rename, strip currency marks, parse dates, parse prices,
    sort, drop missing; and "$1,234.50" becomes 1234.50. *)
Theorem load_follows_step_order_on_parsed_dates
    (read_file : string -> outcome raw_table)
    (parse_datetime : string -> option Z)
    (csv_float : string -> option float64)
    (to_numeric : string -> float64) (path : string) (t : raw_table) :
  read_file path = Returned t ->
  (well_labelled t -> dates_parse parse_datetime t ->
   Spec.observed
     (Spec.load parse_datetime csv_float to_numeric t)
     (load_data_from_csv read_file parse_datetime csv_float to_numeric path))
  /\
  (well_labelled t ->
   position "Close/Last" (map normalise (header t)) <> None ->
   exists df,
     load_data_from_csv read_file parse_datetime csv_float to_numeric path
     = (Returned (Some df), [])) /\
  (position "Date" (header t) = None ->
   load_data_from_csv read_file parse_datetime csv_float to_numeric path
   = (Returned None, [Error_failed_to_load MissingDateColumn])) /\
  price_to_numeric Plain.to_numeric (clean_cell (Obj "$1,234.50"))
  = Fin (12345 / 10)%R.
Proof.
  intros Hr. split; [| split; [| split]].
  - intros Hwl Hdp.
    pose proof (load_body_refines_spec read_file parse_datetime csv_float
                  to_numeric path t Hr Hwl Hdp) as H.
    unfold Spec.observed.
    destruct (Spec.load parse_datetime csv_float to_numeric t)
      as [[names |] | df].
    + apply load_raised. exact H.
    + destruct H as [e He]. exists e. apply load_raised. exact He.
    + apply load_returned. exact H.
  - intros [Hnd [Hprice Hdate]] Hp.
    destruct (position_In _ _ Hdate) as [d Hd].
    destruct (position "Close/Last" (map normalise (header t)))
      as [p |] eqn:Ep; [| contradiction].
    eexists. apply load_returned.
    apply (load_body_value read_file parse_datetime csv_float to_numeric
             path t d p Hr Hd Ep).
    + assert (Hin : In "Close/Last"%string (map normalise (header t))).
      { destruct (position_nth _ _ _ Ep) as [Hlt Hn].
        rewrite <- Hn. apply nth_In. exact Hlt. }
      rewrite count_Price_renamed, (count_label_absent _ _ Hprice),
        (count_label_once _ _ Hnd Hin). reflexivity.
    + rewrite count_Date_renamed. apply count_label_once; [exact Hnd |].
      pose proof (position_Date_normalised _ _ Hnd Hd) as Hd'.
      destruct (position_nth _ _ _ Hd') as [Hlt Hn].
      rewrite <- Hn. apply nth_In. exact Hlt.
  - intros Hd. apply load_raised. unfold load_body.
    rewrite (read_csv_no_date read_file parse_datetime csv_float path t Hr Hd).
    reflexivity.
  - exact dollar_price_parses.
Qed.

Lemma dollar_table_well_labelled : well_labelled dollar_table.
Proof.
  unfold well_labelled. split; [| split].
  - change (map normalise (header dollar_table))
      with ["Date"; "Close/Last"; "Volume"]%string.
    repeat constructor; simpl; intuition discriminate.
  - change (map normalise (header dollar_table))
      with ["Date"; "Close/Last"; "Volume"]%string.
    simpl. intuition discriminate.
  - simpl. left. reflexivity.
Defined.

Lemma dollar_table_dates_parse : dates_parse Plain.parse_datetime dollar_table.
Proof.
  intros d Hd. injection Hd as <-.
  exists [20240102; 20240101]%Z. reflexivity.
Defined.

Lemma load_follows_step_order_on_parsed_dates_witness :
  Plain.one_file "coin.csv" dollar_table "coin.csv" = Returned dollar_table /\
  well_labelled dollar_table /\
  dates_parse Plain.parse_datetime dollar_table /\
  Spec.observed
    (Spec.load Plain.parse_datetime Plain.csv_float Plain.to_numeric
       dollar_table)
    (Plain.load "coin.csv" dollar_table).
Proof.
  assert (Hr : Plain.one_file "coin.csv" dollar_table "coin.csv"
               = Returned dollar_table) by reflexivity.
  split; [exact Hr |].
  split; [exact dollar_table_well_labelled |].
  split; [exact dollar_table_dates_parse |].
  exact (proj1 (load_follows_step_order_on_parsed_dates
                  (Plain.one_file "coin.csv" dollar_table)
                  Plain.parse_datetime Plain.csv_float Plain.to_numeric
                  "coin.csv" dollar_table Hr)
           dollar_table_well_labelled dollar_table_dates_parse).
Defined.

(** C3 (as stated, refuted).  On [lowercase_date_table] the eight steps in
    the stated order give a two-row series, since the label [date] is
    title-cased before the dates are parsed; the loader returns [None],
    because it parses dates while reading and finds no column [Date]. *)
Lemma load_departs_from_step_order :
  ~ (forall (read_file : string -> outcome raw_table)
            (parse_datetime : string -> option Z)
            (csv_float : string -> option float64)
            (to_numeric : string -> float64)
            (path : string) (t : raw_table),
        read_file path = Returned t ->
        Spec.observed
          (Spec.load parse_datetime csv_float to_numeric t)
          (load_data_from_csv read_file parse_datetime csv_float to_numeric
             path)).
Proof.
  intros claim.
  specialize (claim (Plain.one_file "coin.csv" lowercase_date_table)
                Plain.parse_datetime Plain.csv_float Plain.to_numeric
                "coin.csv"%string lowercase_date_table eq_refl).
  cbv -[IZR Rplus Rmult Rdiv Rinv Rminus Ropp Z.pow] in claim.
  discriminate claim.
Qed.

(** ** The report never touches index or prices *)

Section Report.

Lemma only_returns_written_refl (df : DataFrame) :
  only_returns_written df df.
Proof. unfold only_returns_written. auto. Qed.

Lemma only_returns_written_trans (a b c : DataFrame) :
  only_returns_written a b -> only_returns_written b c ->
  only_returns_written a c.
Proof.
  intros [Hi [Hp Hr]] [Hi' [Hp' Hr']]. unfold only_returns_written.
  split; [congruence | split; [congruence |]].
  destruct Hr' as [Hr' | Hr']; [destruct Hr as [Hr | Hr] |].
  - left. congruence.
  - right. congruence.
  - right. rewrite Hr', Hp. reflexivity.
Qed.

Lemma calculate_metrics_writes_returns_only (df : DataFrame) (rf : float64) :
  only_returns_written df (snd (calculate_metrics df rf)).
Proof.
  unfold calculate_metrics. destruct (empty df); simpl.
  - apply only_returns_written_refl.
  - unfold only_returns_written. simpl. auto.
Qed.

Lemma report_rows_frames (items : list (string * loc))
    (h : gmap loc DataFrame) :
  dom (fst (report_rows h items)) = dom h /\
  forall l df, h !! l = Some df ->
    exists df', fst (report_rows h items) !! l = Some df' /\
                only_returns_written df df'.
Proof.
  revert h. induction items as [| [name l] rest IH]; intros h; simpl.
  - split; [reflexivity |]. intros l df H. exists df.
    split; [exact H | apply only_returns_written_refl].
  - destruct (h !! l) as [df0 |] eqn:El; [| apply IH].
    pose proof (calculate_metrics_writes_returns_only df0
                  default_risk_free_rate) as Hw.
    destruct (calculate_metrics df0 default_risk_free_rate) as [m df0'].
    simpl in Hw.
    destruct (IH (<[l := df0']> h)) as [Hdom Hfr].
    destruct (report_rows (<[l := df0']> h) rest) as [h' out]. simpl in *.
    split.
    + rewrite Hdom. apply dom_insert_lookup_L. rewrite El. eauto.
    + intros l1 df1 H1.
      destruct (decide (l1 = l)) as [-> | Hne].
      * assert (df1 = df0) by congruence. subst df1.
        destruct (Hfr l df0') as [df' [Hl' Hw']];
          [apply lookup_insert_eq |].
        exists df'. split; [exact Hl' |].
        eapply only_returns_written_trans; eassumption.
      * apply Hfr. rewrite lookup_insert_ne by congruence. exact H1.
Qed.

End Report.

(** C10.  [calculate_metrics] leaves the index and the prices of the frame
    it is given as they are and writes the [Returns] column only; after the
    report the [coins] mapping is the same, the same objects exist, and
    every stored frame has its timestamps, its prices and its row count
    unchanged. *)
Theorem report_leaves_prices_untouched
    (s : session) (df : DataFrame) (rf : float64) :
  only_returns_written df (snd (calculate_metrics df rf)) /\
  coins (fst (menu_report s)) = coins s /\
  keys (coins (fst (menu_report s))) = keys (coins s) /\
  dom (heap (fst (menu_report s))) = dom (heap s) /\
  forall l stored, heap s !! l = Some stored ->
    exists stored',
      heap (fst (menu_report s)) !! l = Some stored' /\
      only_returns_written stored stored' /\
      length (index stored') = length (index stored).
Proof.
  split; [apply calculate_metrics_writes_returns_only |].
  unfold menu_report.
  destruct (coins s) as [| c rest] eqn:Ec.
  - simpl. rewrite Ec. repeat split; try reflexivity.
    intros l stored H. exists stored.
    repeat split; try reflexivity; try exact H; auto.
  - destruct (report_rows_frames (c :: rest) (heap s)) as [Hdom Hfr].
    destruct (report_rows (heap s) (c :: rest)) as [h' out]. simpl in *.
    repeat split; try reflexivity; try exact Hdom.
    intros l stored H. destruct (Hfr l stored H) as [stored' [Hl Hw]].
    exists stored'. split; [exact Hl | split; [exact Hw |]].
    destruct Hw as [Hi _]. now rewrite Hi.
Qed.

(** ** Pearson correlation of two columns *)

Section Pearson.
Local Open Scope R_scope.















End Pearson.

(** ** plot_correlation *)

Section Correlation.
Local Open Scope R_scope.


Lemma disjoint_lookup_1 :
  disjoint_heap !! 1%positive
  = Some (stored [Timestamp 1; Timestamp 2] [Fin 100; Fin 110]).
Proof. reflexivity. Qed.

Lemma disjoint_lookup_2 :
  disjoint_heap !! 2%positive
  = Some (stored [Timestamp 3; Timestamp 4] [Fin 100; Fin 120]).
Proof. reflexivity. Qed.


Lemma plot_disjoint :
  plot_correlation disjoint_heap two_coins
  = Returned
      [Heatmap ["A"; "B"]%string
         (corr [("A"%string, pct_change [Fin 100; Fin 110]);
                ("B"%string, [NaN; NaN])])].
Proof.
  reflexivity.
Qed.

End Correlation.

Section CollectReturns.

Variable h : gmap loc DataFrame.

Lemma nonempty_keys_cons (kv : string * loc) (rest : list (string * loc)) :
  nonempty_keys h (kv :: rest)
  = if has_rows h kv then fst kv :: nonempty_keys h rest
    else nonempty_keys h rest.
Proof.
  unfold nonempty_keys. simpl. destruct (has_rows h kv); reflexivity.
Qed.

(** Assigning a column of a frame with rows and unique labels succeeds,
    appends the column and leaves the frame with rows. *)
Lemma setitem_ok (cr : Combined) (name : string) (idx : list label)
    (vals : list float64) :
  idx <> [] -> is_unique idx = true ->
  exists cr',
    setitem cr name idx vals = Returned cr' /\
    map fst (c_columns cr') = map fst (c_columns cr) ++ [name] /\
    c_index cr' <> [].
Proof.
  intros Hne Hu. unfold setitem.
  destruct (c_index cr) as [| k ks] eqn:Ei.
  - eexists. split; [reflexivity |]. simpl.
    split; [| exact Hne]. rewrite map_app. reflexivity.
  - destruct (labels_eqb idx (k :: ks)).
    + eexists. split; [reflexivity |]. simpl.
      split; [| discriminate]. rewrite map_app. reflexivity.
    + rewrite Hu. eexists. split; [reflexivity |]. simpl.
      split; [| discriminate]. rewrite map_app. reflexivity.
Qed.

Lemma collect_returns_ok (items : list (string * loc)) (cr : Combined) :
  stored_frames_ok h items ->
  exists cr',
    collect_returns h items cr = Returned cr' /\
    map fst (c_columns cr')
    = map fst (c_columns cr) ++ nonempty_keys h items /\
    (nonempty_keys h items = [] -> cr' = cr) /\
    (nonempty_keys h items <> [] -> c_index cr' <> []).
Proof.
  intros Hok. revert cr.
  induction Hok as [| [name l] rest [df [r [Hl [Hr Hu]]]] Hrest IH];
    intros cr.
  - exists cr. simpl. rewrite app_nil_r. repeat split; auto.
  - simpl in Hl. rewrite nonempty_keys_cons. unfold has_rows.
    cbn [collect_returns snd fst]. rewrite Hl.
    destruct (empty df) eqn:Ee; cbn [negb].
    + apply IH.
    + rewrite Hr.
      destruct (setitem_ok cr name (index df) r) as [cr1 [Hs [Hn Hi]]].
      { unfold empty in Ee. destruct (index df); [discriminate | easy]. }
      { exact Hu. }
      rewrite Hs. cbn [bind].
      destruct (IH cr1) as [cr' [Hc [Hnames [Hnil Hcons]]]].
      exists cr'. split; [exact Hc |].
      split; [rewrite Hnames, Hn, <- app_assoc; reflexivity |].
      split; [discriminate |].
      intros _.
      destruct (nonempty_keys h rest) as [| k ks] eqn:Ek.
      * rewrite (Hnil eq_refl). exact Hi.
      * apply Hcons. discriminate.
Qed.

End CollectReturns.

(** C5 (amended).  With fewer than 2 instruments in the dict nothing is
    computed and the caller gets the information line; with 2 or more
    instruments of which none has rows, likewise; with 2 or more
    instruments of which at least one has rows a matrix is produced, over
    the instruments that have rows, whether or not their dates overlap. *)
Theorem correlation_short_circuits
    (h : gmap loc DataFrame) (coins_dict : list (string * loc)) :
  stored_frames_ok h coins_dict ->
  ((length coins_dict < 2)%nat ->
   plot_correlation h coins_dict = Returned [Print Info_need_two_coins]) /\
  ((2 <= length coins_dict)%nat -> nonempty_keys h coins_dict = [] ->
   plot_correlation h coins_dict = Returned [Print Info_no_valid_data]) /\
  ((2 <= length coins_dict)%nat -> nonempty_keys h coins_dict <> [] ->
   exists m,
     plot_correlation h coins_dict
     = Returned [Heatmap (nonempty_keys h coins_dict) m]).
Proof.
  intros Hok. unfold plot_correlation.
  destruct (collect_returns_ok h coins_dict (mkCombined [] []) Hok)
    as [cr [Hc [Hnames [Hnil Hcons]]]].
  split; [| split].
  - intros Hlt. apply Nat.ltb_lt in Hlt. rewrite Hlt. reflexivity.
  - intros Hge Hk.
    destruct (Nat.ltb_spec (length coins_dict) 2) as [? | _]; [lia |].
    rewrite Hc. cbn [bind]. rewrite (Hnil Hk). reflexivity.
  - intros Hge Hk.
    destruct (Nat.ltb_spec (length coins_dict) 2) as [? | _]; [lia |].
    rewrite Hc. cbn [bind]. simpl in Hnames.
    assert (Hcols : c_columns cr <> []).
    { intros E. rewrite E in Hnames. simpl in Hnames. congruence. }
    specialize (Hcons Hk). unfold combined_empty.
    destruct (c_index cr); [contradiction |].
    destruct (c_columns cr) eqn:Ecols; [contradiction |].
    rewrite Hnames. eexists. reflexivity.
Qed.

Lemma disjoint_frames_ok : stored_frames_ok disjoint_heap two_coins.
Proof.
  unfold stored_frames_ok, two_coins.
  constructor; [| constructor; [| constructor]];
    eexists; eexists; (split; [reflexivity | split; reflexivity]).
Defined.

Lemma correlation_short_circuits_witness :
  stored_frames_ok disjoint_heap two_coins /\
  (2 <= length two_coins)%nat /\
  nonempty_keys disjoint_heap two_coins <> [] /\
  exists m,
    plot_correlation disjoint_heap two_coins
    = Returned [Heatmap (nonempty_keys disjoint_heap two_coins) m].
Proof.
  assert (Hlen : (2 <= length two_coins)%nat) by (simpl; lia).
  assert (Hk : nonempty_keys disjoint_heap two_coins <> [])
    by discriminate.
  split; [exact disjoint_frames_ok |].
  split; [exact Hlen |].
  split; [exact Hk |].
  exact (proj2 (proj2 (correlation_short_circuits disjoint_heap two_coins
                         disjoint_frames_ok)) Hlen Hk).
Defined.

(** C5 (as stated, refuted).  Two instruments whose dates do not overlap
    still get a matrix: the no-result branch is taken only when no
    instrument has rows. *)
Lemma correlation_without_overlap :
  ~ (forall (h : gmap loc DataFrame) (coins_dict : list (string * loc))
            (names : list string) (m : list (list float64)),
        stored_frames_ok h coins_dict ->
        plot_correlation h coins_dict = Returned [Heatmap names m] ->
        overlapping h coins_dict).
Proof.
  intros claim.
  specialize (claim disjoint_heap two_coins _ _ disjoint_frames_ok
                plot_disjoint).
  destruct claim as [i [j [a [b [dfa [dfb [k H]]]]]]].
  destruct H as [Hij [Ha [Hb [Hla [Hlb [Hka Hkb]]]]]].
  unfold two_coins in Ha, Hb.
  destruct i as [| [| i]], j as [| [| j]]; simpl in Ha, Hb;
    try congruence;
    try (destruct i; discriminate); try (destruct j; discriminate);
    injection Ha as <-; injection Hb as <-; cbn [snd] in Hla, Hlb.
  - rewrite disjoint_lookup_1 in Hla. rewrite disjoint_lookup_2 in Hlb.
    injection Hla as <-. injection Hlb as <-.
    simpl in Hka, Hkb. intuition congruence.
  - rewrite disjoint_lookup_2 in Hla. rewrite disjoint_lookup_1 in Hlb.
    injection Hla as <-. injection Hlb as <-.
    simpl in Hka, Hkb. intuition congruence.
Qed.

(** ** The matrix plot_correlation hands to the heat map *)

Section Matrix.
Local Open Scope R_scope.

Lemma plot_correlation_heatmap_inv (h : gmap loc DataFrame)
    (coins_dict : list (string * loc)) (names : list string)
    (m : list (list float64)) :
  plot_correlation h coins_dict = Returned [Heatmap names m] ->
  exists cols, names = map fst cols /\ m = corr cols.
Proof.
  unfold plot_correlation.
  destruct (length coins_dict <? 2)%nat; [discriminate |].
  destruct (collect_returns h coins_dict (mkCombined [] [])) as [cr | e];
    cbn [bind]; [| discriminate].
  destruct (combined_empty cr); [discriminate |].
  intros H. injection H as <- <-. exists (c_columns cr).
  split; reflexivity.
Qed.

Lemma corr_length (cols : list (string * list float64)) :
  length (corr cols) = length cols.
Proof. unfold corr. apply length_map. Qed.


End Matrix.

(** ** The columns of the combined frame *)

Section CombinedColumns.

Variable h : gmap loc DataFrame.






End CombinedColumns.





(** ** The sessions main_menu can reach *)

Section Sessions.

Variable path_exists : string -> bool.
Variable read_file : string -> outcome raw_table.
Variable parse_datetime : string -> option Z.
Variable csv_float : string -> option float64.
Variable to_numeric : string -> float64.

Local Abbreviation loadc :=
  (menu_load path_exists read_file parse_datetime csv_float to_numeric).
Local Abbreviation run :=
  (main_menu_from path_exists read_file parse_datetime csv_float to_numeric).

Lemma new_loc_fresh (h : gmap loc DataFrame) : h !! new_loc h = None.
Proof.
  unfold new_loc. apply not_elem_of_dom. apply is_fresh.
Qed.

Lemma dict_set_Forall (P : string * loc -> Prop) (d : list (string * loc))
    (k : string) (v : loc) :
  Forall P d -> P (k, v) -> Forall P (dict_set d k v).
Proof.
  intros Hd Hkv. induction Hd as [| [k' v'] t Hh Ht IH]; simpl.
  - constructor; [exact Hkv | constructor].
  - destruct (String.eqb k k').
    + constructor; assumption.
    + constructor; assumption.
Qed.

Lemma menu_load_ok (s s' : session) (ticker_line path_line : string)
    (out : list event) :
  session_ok s ->
  loadc s ticker_line path_line = (Returned s', out) ->
  session_ok s'.
Proof.
  intros Hok. unfold menu_load.
  destruct (path_exists (clean_path path_line));
    [| intros H; injection H as <- _; exact Hok].
  destruct (load_data_from_csv _ _ _ _ _) as [[[df |] | e] printed];
    [| intros H; injection H as <- _; exact Hok | discriminate].
  destruct (empty df) eqn:Ee; cbn [negb];
    [intros H; injection H as <- _; exact Hok |].
  intros H. injection H as <- _. destruct Hok as [Hkeys Hframes].
  unfold session_ok. cbn [coins heap]. split.
  - apply dict_set_Forall.
    + eapply Forall_impl; [exact Hkeys |].
      intros kv [d Hl]. exists d.
      rewrite lookup_insert_ne; [exact Hl |].
      intros E. rewrite <- E, new_loc_fresh in Hl. discriminate.
    + cbn [snd]. rewrite lookup_insert_eq. eauto.
  - intros l d Hl.
    destruct (decide (l = new_loc (heap s))) as [-> | Hne].
    + rewrite lookup_insert_eq in Hl. injection Hl as <-.
      split; [exact Ee | reflexivity].
    + rewrite lookup_insert_ne in Hl by congruence. eapply Hframes, Hl.
Qed.

(** On such a session the report rewrites every [Returns] column with the
    value it already has: the session is left exactly as it was. *)
Lemma only_returns_written_same (df df' : DataFrame) :
  Returns df = Some (pct_change (Price df)) ->
  only_returns_written df df' -> df' = df.
Proof.
  intros Hr [Hi [Hp Hw]]. destruct df, df'. simpl in *. subst.
  destruct Hw as [-> | ->]; reflexivity.
Qed.

Lemma report_rows_same (items : list (string * loc))
    (h : gmap loc DataFrame) :
  (forall l df, h !! l = Some df ->
                Returns df = Some (pct_change (Price df))) ->
  fst (report_rows h items) = h.
Proof.
  intros Hall. destruct (report_rows_frames items h) as [Hdom Hfr].
  apply map_eq. intros l.
  destruct (h !! l) as [df |] eqn:El.
  - destruct (Hfr l df El) as [df' [Hl Hw]]. rewrite Hl. f_equal.
    apply only_returns_written_same; [exact (Hall l df El) | exact Hw].
  - apply not_elem_of_dom. rewrite Hdom. apply not_elem_of_dom. exact El.
Qed.

Lemma menu_report_same (s : session) :
  session_ok s -> fst (menu_report s) = s.
Proof.
  intros [_ Hframes]. unfold menu_report.
  destruct (coins s) as [| c rest] eqn:Ec; [reflexivity |].
  pose proof (report_rows_same (c :: rest) (heap s)) as Hsame.
  destruct (report_rows (heap s) (c :: rest)) as [h' out].
  cbn [fst] in *. rewrite Hsame.
  - destruct s. simpl in *. now rewrite Ec.
  - intros l df Hl. apply (Hframes l df Hl).
Qed.

(** Whatever the user plays, the session stays well formed. *)
Lemma main_menu_from_ok (rounds : list choice) (s s' : session)
    (out : list event) :
  session_ok s ->
  run s rounds = (Returned s', out) ->
  session_ok s'.
Proof.
  revert s out. induction rounds as [| c rest IH]; intros s out Hok; simpl.
  - discriminate.
  - destruct c.
    + destruct (loadc s ticker_line path_line) as [[s1 | e] o] eqn:El;
        [| discriminate].
      destruct (run s1 rest) as [r later] eqn:Er.
      intros H. injection H as -> _.
      eapply IH; [eapply menu_load_ok; eassumption | exact Er].
    + pose proof (menu_report_same s Hok) as Hsame.
      destruct (menu_report s) as [s1 o]. simpl in Hsame. subst s1.
      destruct (run s rest) as [r later] eqn:Er.
      intros H. injection H as -> _. eapply IH; eassumption.
    + destruct (coins s);
        destruct (run s rest) as [r later] eqn:Er;
        intros H; injection H as -> _; eapply IH; eassumption.
    + destruct (menu_correlation s) as [o | e]; [| discriminate].
      destruct (run s rest) as [r later] eqn:Er.
      intros H. injection H as -> _. eapply IH; eassumption.
    + unfold menu_clear.
      destruct (run (mkSession [] (heap s)) rest) as [r later] eqn:Er.
      intros H. injection H as -> _.
      eapply IH; [| exact Er].
      split; [constructor | exact (proj2 Hok)].
    + intros H. injection H as <- _. exact Hok.
    + destruct (run s rest) as [r later] eqn:Er.
      intros H. injection H as -> _. eapply IH; eassumption.
Qed.

Lemma main_menu_ok (rounds : list choice) (s : session) (out : list event) :
  main_menu path_exists read_file parse_datetime csv_float to_numeric rounds
  = (Returned s, out) ->
  session_ok s.
Proof.
  unfold main_menu. apply main_menu_from_ok.
  split; [constructor |]. intros l df Hl. cbn [heap] in Hl.
  rewrite lookup_empty in Hl. discriminate.
Qed.

End Sessions.

(* ================================================================== *)
(** * Further properties of the code *)
(* ================================================================== *)

(** ** Sums, means and deviations of float64 values *)

Section Reductions.
Local Open Scope R_scope.

Lemma Rsgn_positive (x : R) : 0 < x -> Rsgn x = Gt.
Proof.
  intros H. unfold Rsgn.
  destruct (total_order_T x 0) as [[Hlt | Heq] | Hgt]; try reflexivity; lra.
Qed.

Lemma fmul_fin (x y : R) : fmul (Fin x) (Fin y) = Fin (x * y).
Proof. reflexivity. Qed.

Lemma fadd_fin (x y : R) : fadd (Fin x) (Fin y) = Fin (x + y).
Proof. reflexivity. Qed.

Lemma sqrt365_fin : sqrt365 = Fin (sqrt 365).
Proof.
  unfold sqrt365, of_Z, fsqrt. rewrite Rsgn_positive by lra. reflexivity.
Qed.

Lemma INR_S_pos (n : nat) : 0 < INR (S n).
Proof. apply lt_0_INR. lia. Qed.

Lemma fold_fadd_fin (l : list R) (a : R) :
  fold_left fadd (map Fin l) (Fin a) = Fin (fold_left Rplus l a).
Proof.
  revert a. induction l as [| y t IH]; intros a; simpl; [reflexivity |].
  rewrite fadd_fin. apply IH.
Qed.

(** Dividing by a positive count keeps the kind of the value. *)
Lemma fdiv_count (a : float64) (n : nat) :
  fdiv a (of_nat (S n))
  = match a with
    | Fin x => Fin (x / INR (S n))
    | other => other
    end.
Proof.
  unfold fdiv, of_nat. pose proof (INR_S_pos n) as Hn.
  rewrite (Rsgn_positive _ Hn).
  destruct a; reflexivity.
Qed.

End Reductions.

Section ReturnsOfPrices.
Local Open Scope R_scope.

Lemma pct_from_fin (prev : R) (ps : list R) :
  0 < prev -> Forall (fun p => 0 < p) ps ->
  pct_from (Fin prev) (map Fin ps) = map Fin (returns_from prev ps).
Proof.
  intros Hp Hps. revert prev Hp.
  induction Hps as [| p t H Ht IH]; intros prev Hp; simpl; [reflexivity |].
  rewrite fdiv_fin by lra. rewrite fsub_fin, IH by exact H. reflexivity.
Qed.

Lemma pct_change_fin (p : R) (t : list R) :
  Forall (fun p => 0 < p) (p :: t) ->
  pct_change (map Fin (p :: t)) = NaN :: map Fin (returns_from p t).
Proof.
  intros H. inversion H; subst. simpl. rewrite pct_from_fin by assumption.
  reflexivity.
Qed.

Lemma last_cons_default (t : list R) (p d : R) :
  List.last (p :: t) d = List.last t p.
Proof.
  revert p d. induction t as [| q u IH]; intros p d; [reflexivity |].
  change (List.last (p :: q :: u) d) with (List.last (q :: u) d).
  rewrite (IH q d), (IH q p). reflexivity.
Qed.

Lemma iloc_last_fin (p : R) (t : list R) :
  iloc_last (map Fin (p :: t)) = Some (Fin (List.last t p)).
Proof.
  unfold iloc_last. revert p. induction t as [| q u IH]; intros p;
    [reflexivity |].
  change (map Fin (p :: q :: u)) with (Fin p :: map Fin (q :: u)).
  change (last (Fin p :: map Fin (q :: u))) with (last (map Fin (q :: u))).
  rewrite IH, (last_cons_default u q p). reflexivity.
Qed.

Lemma total_return_fin (p : R) (t : list R) :
  0 < p ->
  match iloc_last (map Fin (p :: t)), iloc_first (map Fin (p :: t)) with
  | Some l, Some f => fsub (fdiv l f) (Fin 1)
  | _, _ => Fin 0
  end = Fin (List.last t p / p - 1).
Proof.
  intros Hp. rewrite iloc_last_fin. cbn [iloc_first head map].
  rewrite fdiv_fin by lra. apply fsub_fin.
Qed.

Lemma fold_Rplus_nonneg (l : list R) (a : R) :
  0 <= a -> Forall (fun x => 0 <= x) l -> 0 <= fold_left Rplus l a.
Proof.
  intros Ha Hl. revert a Ha.
  induction Hl as [| x t Hx Ht IH]; intros a Ha; simpl; [exact Ha |].
  apply IH. lra.
Qed.

Lemma Rvar_nonneg (l : list R) : (2 <= length l)%nat -> 0 <= Rvar l.
Proof.
  intros Hlen. unfold Rvar. apply Rmult_le_pos.
  - apply fold_Rplus_nonneg; [lra |].
    apply List.Forall_forall. intros y Hy. apply in_map_iff in Hy.
    destruct Hy as [x [<- _]]. apply Rle_0_sqr.
  - left. apply Rinv_0_lt_compat. apply lt_0_INR. lia.
Qed.

(** The deviation of at least two finite values is the square root of
    their sample variance. *)
Lemma std_fin_value (l : list R) :
  (2 <= length l)%nat -> std (map Fin l) = Fin (sqrt (Rvar l)).
Proof.
  intros Hlen. pose proof (Rvar_nonneg l Hlen) as Hv. revert Hv.
  unfold std, var, Rvar. rewrite dropna_fin, length_map.
  destruct l as [| a [| b t]]; simpl in Hlen; try lia.
  set (l := a :: b :: t).
  change (length l) with (S (S (length t))).
  cbn [Nat.leb]. change (S (S (length t)) - 1)%nat with (S (length t)).
  unfold fsum. rewrite fold_fadd_fin.
  rewrite (fdiv_count (Fin (fold_left Rplus l 0)) (S (length t))).
  set (avg := fold_left Rplus l 0 / INR (S (S (length t)))).
  rewrite map_map.
  rewrite (map_ext _ (fun x => Fin ((avg - x) * (avg - x))))
    by (intros x; reflexivity).
  rewrite <- (map_map (fun x => (avg - x) * (avg - x)) Fin).
  rewrite fold_fadd_fin, fdiv_count. intros Hq.
  unfold fsqrt. destruct (Rsgn _) eqn:Esg; try reflexivity.
  exfalso. unfold Rsgn in Esg.
  destruct (total_order_T _ 0) as [[Hlt | Heq] | Hgt]; try discriminate.
  lra.
Qed.

End ReturnsOfPrices.

(** ** calculate_metrics on positive prices *)

Section PositivePrices.
Local Open Scope R_scope.

Lemma std_skips_nan (l : list float64) : std (NaN :: l) = std l.
Proof. reflexivity. Qed.

Lemma mean_skips_nan (l : list float64) : mean (NaN :: l) = mean l.
Proof. reflexivity. Qed.

(** The four metrics of a frame of positive prices, written on reals. *)
Lemma metrics_of_positive_prices (df : DataFrame) (rf : float64)
    (p : R) (t : list R) :
  Price df = map Fin (p :: t) ->
  Forall (fun p => 0 < p) (p :: t) ->
  empty df = false ->
  let rs := map Fin (returns_from p t) in
  calculate_metrics df rf
  = (mkMetrics
       (Fin (List.last t p / p - 1))
       (fmul (std rs) sqrt365)
       (if feqb (std rs) (Fin 0) || isnan (std rs) then Fin 0
        else fmul (fdiv (fsub (mean rs) (fdiv rf (of_Z 365))) (std rs))
               sqrt365)
       (Fin (fold_left Rmin (drawdown_from (Rmax p p) t)
               (p / Rmax p p - 1))),
     set_Returns df (NaN :: rs)).
Proof.
  intros HP Hpos He rs. unfold calculate_metrics. rewrite He.
  assert (Hp : 0 < p) by (inversion Hpos; assumption).
  cbn [get_Returns set_Returns Returns Price]. rewrite HP.
  rewrite (pct_change_fin p t Hpos). fold rs.
  rewrite std_skips_nan, mean_skips_nan.
  rewrite (total_return_fin p t Hp).
  rewrite (drawdown_fin p t Hpos).
  change (drawdown_from p (p :: t))
    with ((p / Rmax p p - 1) :: drawdown_from (Rmax p p) t).
  rewrite smin_fin. reflexivity.
Qed.

Lemma nonempty_frame (df : DataFrame) (n : nat) :
  length (index df) = S n -> empty df = false.
Proof.
  unfold empty. destruct (index df); [discriminate | reflexivity].
Qed.

End PositivePrices.

(** X2.  A frame of one or two rows, whatever its prices and whatever the
    risk-free rate, has at most one return: its volatility is [nan] and
    its Sharpe ratio is 0. *)
Theorem short_frame_volatility_nan_sharpe_zero
    (df : DataFrame) (rf : float64) :
  length (Price df) = length (index df) ->
  (1 <= length (index df) <= 2)%nat ->
  Volatility (fst (calculate_metrics df rf)) = NaN /\
  Sharpe_Ratio (fst (calculate_metrics df rf)) = Fin 0.
Proof.
  intros Hlen Hn.
  assert (Hne : empty df = false).
  { unfold empty. destruct (index df); [simpl in Hn; lia | reflexivity]. }
  split.
  - apply short_series_volatility_nan; [exact Hne | lia].
  - unfold calculate_metrics. rewrite Hne.
    cbn [fst Sharpe_Ratio get_Returns set_Returns Returns].
    rewrite std_short; [reflexivity |].
    pose proof (pct_change_defined_le (Price df)). lia.
Qed.

Lemma short_frame_volatility_nan_sharpe_zero_witness :
  let df := mkDF [Timestamp 1; Timestamp 2] [Fin 100; Fin 110] None in
  length (Price df) = length (index df) /\
  (1 <= length (index df) <= 2)%nat /\
  Volatility (fst (calculate_metrics df default_risk_free_rate)) = NaN /\
  Sharpe_Ratio (fst (calculate_metrics df default_risk_free_rate)) = Fin 0.
Proof.
  intros df.
  assert (H1 : length (Price df) = length (index df)) by reflexivity.
  assert (H2 : (1 <= length (index df) <= 2)%nat) by (simpl; lia).
  split; [exact H1 | split; [exact H2 |]].
  exact (short_frame_volatility_nan_sharpe_zero df default_risk_free_rate
           H1 H2).
Defined.

Section DrawdownAndReturn.
Local Open Scope R_scope.

Lemma nth_last_cons (t : list R) (p : R) :
  nth (length t) (p :: t) 0 = List.last t p.
Proof.
  revert p. induction t as [| q u IH]; intros p; [reflexivity |].
  change (nth (length (q :: u)) (p :: q :: u) 0)
    with (nth (length u) (q :: u) 0).
  rewrite IH, <- (last_cons_default u q p). reflexivity.
Qed.

(** Prices that never rise are ordered along the whole series. *)
Lemma never_rising_chain (ps : list R) :
  (forall i, (S i < length ps)%nat -> nth (S i) ps 0 <= nth i ps 0) ->
  forall i j, (i <= j)%nat -> (j < length ps)%nat ->
              nth j ps 0 <= nth i ps 0.
Proof.
  intros Hstep i j Hij Hj. induction Hij as [| j Hij IH].
  - apply Rle_refl.
  - apply Rle_trans with (nth j ps 0); [apply Hstep; exact Hj |].
    apply IH. lia.
Qed.

End DrawdownAndReturn.

(** X4.  On a frame of positive prices the maximum drawdown is at least as
    deep as the loss over the whole period: it never exceeds the total
    return; and when no price is above the one before it, the two are
    equal. *)
Theorem max_drawdown_below_total_return
    (df : DataFrame) (rf : float64) (ps : list R) :
  Price df = map Fin ps ->
  Forall (fun p => 0 < p)%R ps ->
  length (index df) = length ps ->
  ps <> [] ->
  exists d r : R,
    Max_Drawdown (fst (calculate_metrics df rf)) = Fin d /\
    Total_Return (fst (calculate_metrics df rf)) = Fin r /\
    (d <= r)%R /\
    ((forall i, (S i < length ps)%nat ->
                (nth (S i) ps 0 <= nth i ps 0)%R) -> d = r).
Proof.
  intros HP Hpos Hlen Hne. destruct ps as [| p t]; [contradiction |].
  assert (Hp : (0 < p)%R) by (inversion Hpos; assumption).
  rewrite (metrics_of_positive_prices df rf p t HP Hpos
             (nonempty_frame df _ Hlen)).
  cbn [fst Max_Drawdown Total_Return].
  set (ps := p :: t) in *.
  set (dd := drawdown_from p ps).
  assert (Hdd : dd = (p / Rmax p p - 1)%R :: drawdown_from (Rmax p p) t)
    by reflexivity.
  set (d := fold_left Rmin (drawdown_from (Rmax p p) t) (p / Rmax p p - 1)%R).
  assert (Hlast : (0 < List.last t p)%R).
  { rewrite <- nth_last_cons. apply positive_nth; [exact Hpos |].
    simpl. lia. }
  assert (Hpeak : forall k, (k < length ps)%nat ->
                            (p <= nth k (running_peak p ps) 0)%R).
  { intros k Hk. apply running_peak_ge_start. exact Hk. }
  assert (Hle : (d <= List.last t p / p - 1)%R).
  { pose proof (fold_Rmin_lower (drawdown_from (Rmax p p) t)
                  (p / Rmax p p - 1)%R (length t)) as Hlow.
    rewrite <- Hdd in Hlow. fold d in Hlow.
    assert (Hn : (length t < length dd)%nat).
    { unfold dd. rewrite drawdown_from_length. simpl. lia. }
    specialize (Hlow Hn). unfold dd in Hlow.
    rewrite drawdown_from_nth in Hlow by (simpl; lia).
    unfold ps in Hlow at 1. rewrite nth_last_cons in Hlow.
    pose proof (Hpeak (length t) ltac:(simpl; lia)) as Hpk.
    assert ((List.last t p / nth (length t) (running_peak p ps) 0
             <= List.last t p / p)%R).
    { unfold Rdiv. apply Rmult_le_compat_l; [lra |].
      apply Rinv_le_contravar; lra. }
    lra. }
  exists d, (List.last t p / p - 1)%R.
  split; [reflexivity | split; [reflexivity | split; [exact Hle |]]].
  intros Hstep. apply Rle_antisym; [exact Hle |].
  pose proof (never_rising_chain ps Hstep) as Hchain.
  destruct (fold_Rmin_attained (drawdown_from (Rmax p p) t)
              (p / Rmax p p - 1)%R) as [k [Hk Hatt]].
  rewrite <- Hdd in Hk, Hatt. fold d in Hatt.
  assert (Hkn : (k < length ps)%nat).
  { unfold dd in Hk. rewrite drawdown_from_length in Hk. exact Hk. }
  unfold dd in Hatt. rewrite drawdown_from_nth in Hatt by exact Hkn.
  assert (Hpk : nth k (running_peak p ps) 0%R = p).
  { apply Rle_antisym; [| apply Hpeak; exact Hkn].
    destruct (running_peak_attained p ps k Hkn) as [-> | [j [Hj ->]]];
      [apply Rle_refl |].
    apply (Hchain 0%nat j); lia. }
  rewrite Hpk in Hatt. rewrite Hatt.
  assert (Hk' : (List.last t p <= nth k ps 0)%R).
  { rewrite <- nth_last_cons. apply Hchain; [| simpl; lia].
    simpl in Hkn. lia. }
  unfold Rdiv. apply Rplus_le_compat_r. apply Rmult_le_compat_r; [| exact Hk'].
  left. apply Rinv_0_lt_compat. exact Hp.
Qed.

Lemma max_drawdown_below_total_return_witness :
  Price four_days = map Fin [100; 110; 99; 121]%R /\
  Forall (fun p => 0 < p)%R [100; 110; 99; 121]%R /\
  length (index four_days) = length [100; 110; 99; 121]%R /\
  [100; 110; 99; 121]%R <> [] /\
  exists d r : R,
    Max_Drawdown (fst (calculate_metrics four_days default_risk_free_rate))
    = Fin d /\
    Total_Return (fst (calculate_metrics four_days default_risk_free_rate))
    = Fin r /\
    (d <= r)%R.
Proof.
  assert (H1 : Price four_days = map Fin [100; 110; 99; 121]%R)
    by reflexivity.
  assert (H2 : Forall (fun p => 0 < p)%R [100; 110; 99; 121]%R)
    by (repeat constructor; lra).
  assert (H3 : length (index four_days) = length [100; 110; 99; 121]%R)
    by reflexivity.
  assert (H4 : [100; 110; 99; 121]%R <> []) by discriminate.
  split; [exact H1 | split; [exact H2 | split; [exact H3 | split;
    [exact H4 |]]]].
  destruct (max_drawdown_below_total_return four_days
              default_risk_free_rate _ H1 H2 H3 H4)
    as [d [r [Hd [Hr [Hle _]]]]].
  exists d, r. split; [exact Hd | split; [exact Hr | exact Hle]].
Defined.

(** X6.  [calculate_metrics] reads the prices only: a second call on the
    frame the first call left behind gives the metrics of the original
    frame and leaves the frame as the first call left it, whatever the
    [Returns] column held before. *)
Theorem calculate_metrics_again (df : DataFrame) (rf rf' : float64) :
  calculate_metrics (snd (calculate_metrics df rf)) rf'
  = (fst (calculate_metrics df rf'), snd (calculate_metrics df rf)) /\
  forall column,
    fst (calculate_metrics (mkDF (index df) (Price df) column) rf)
    = fst (calculate_metrics df rf).
Proof.
  split.
  - unfold calculate_metrics. destruct (empty df) eqn:Ee; cbn [snd fst].
    + rewrite Ee. reflexivity.
    + unfold empty in *. cbn [index set_Returns]. rewrite Ee. reflexivity.
  - intros column. unfold calculate_metrics, empty. cbn [index].
    destruct (index df); reflexivity.
Qed.

Section FlatSeries.
Local Open Scope R_scope.

(** Prices that stay where they are have returns 0. *)
Lemma returns_of_flat (p : R) (n : nat) :
  0 < p -> returns_from p (repeat p n) = repeat 0 n.
Proof.
  intros Hp. induction n as [| k IH]; simpl; [reflexivity |].
  rewrite IH. f_equal. field. lra.
Qed.

Lemma drawdown_of_flat (p : R) (n : nat) :
  0 < p -> drawdown_from p (repeat p n) = repeat 0 n.
Proof.
  intros Hp. induction n as [| k IH]; simpl; [reflexivity |].
  rewrite (Rmax_left p p) by lra. rewrite IH. f_equal. field. lra.
Qed.

Lemma fold_Rplus_repeat (r a : R) (n : nat) :
  fold_left Rplus (repeat r n) a = a + INR n * r.
Proof.
  revert a. induction n as [| k IH]; intros a.
  - simpl. ring.
  - change (repeat r (S k)) with (r :: repeat r k). cbn [fold_left].
    rewrite IH, S_INR. ring.
Qed.

(** Equal values have no variance. *)
Lemma Rvar_repeat (r : R) (n : nat) : (2 <= n)%nat -> Rvar (repeat r n) = 0.
Proof.
  intros Hn. unfold Rvar. rewrite repeat_length, fold_Rplus_repeat.
  assert (Hk : INR n <> 0) by (apply not_0_INR; lia).
  replace ((0 + INR n * r) / INR n) with r by (field; exact Hk).
  rewrite map_repeat, fold_Rplus_repeat.
  replace (r - r) with 0 by ring. unfold Rdiv. ring.
Qed.

Lemma fold_Rmin_repeat (x : R) (n : nat) :
  fold_left Rmin (repeat x n) x = x.
Proof.
  induction n as [| k IH]; [reflexivity |].
  change (repeat x (S k)) with (x :: repeat x k). cbn [fold_left].
  rewrite (Rmin_left x x) by lra. exact IH.
Qed.

Lemma last_repeat (p : R) (n : nat) :
  List.last (repeat p n) p = p.
Proof.
  induction n as [| k IH]; [reflexivity |].
  change (repeat p (S k)) with (p :: repeat p k).
  rewrite last_cons_default. exact IH.
Qed.

End FlatSeries.

(** X7.  A flat series gets the all-zero record once it has three rows:
    on three or more identical positive prices the total return, the
    volatility, the Sharpe ratio (by the guard on a zero deviation) and the
    maximum drawdown are all 0. *)
Theorem flat_series_metrics_are_zero
    (df : DataFrame) (rf : float64) (p : R) (n : nat) :
  Price df = map Fin (repeat p n) ->
  (0 < p)%R -> (3 <= n)%nat ->
  length (index df) = n ->
  fst (calculate_metrics df rf) = zero_metrics.
Proof.
  intros HP Hp Hn Hlen. destruct n as [| k]; [lia |].
  change (repeat p (S k)) with (p :: repeat p k) in HP.
  assert (Hpos : Forall (fun x => 0 < x)%R (p :: repeat p k)).
  { constructor; [exact Hp |]. apply List.Forall_forall.
    intros x Hx. apply repeat_spec in Hx. now subst. }
  rewrite (metrics_of_positive_prices df rf p _ HP Hpos
             (nonempty_frame df _ Hlen)).
  cbn [fst]. rewrite (returns_of_flat p k Hp).
  rewrite std_fin_value by (rewrite repeat_length; lia).
  rewrite Rvar_repeat by lia. rewrite sqrt_0, sqrt365_fin, fmul_fin.
  rewrite (last_repeat p k).
  rewrite (Rmax_left p p) by lra.
  rewrite (drawdown_of_flat p k Hp).
  replace (p / p - 1)%R with 0%R by (field; lra).
  rewrite fold_Rmin_repeat.
  unfold zero_metrics, feqb.
  destruct (Req_dec_T 0 0); [| congruence].
  cbn [orb]. f_equal. f_equal. ring.
Qed.

Lemma flat_series_metrics_are_zero_witness :
  let df := mkDF [Timestamp 1; Timestamp 2; Timestamp 3]
                 (map Fin (repeat 100%R 3)) None in
  Price df = map Fin (repeat 100%R 3) /\
  (0 < 100)%R /\ (3 <= 3)%nat /\
  length (index df) = 3%nat /\
  fst (calculate_metrics df default_risk_free_rate) = zero_metrics.
Proof.
  intros df.
  assert (H1 : Price df = map Fin (repeat 100%R 3)) by reflexivity.
  assert (H2 : (0 < 100)%R) by lra.
  assert (H3 : (3 <= 3)%nat) by lia.
  assert (H4 : length (index df) = 3%nat) by reflexivity.
  split; [exact H1 | split; [exact H2 | split; [exact H3 | split;
    [exact H4 |]]]].
  exact (flat_series_metrics_are_zero df default_risk_free_rate
           100 3 H1 H2 H3 H4).
Defined.

(** ** Column labels: trimming and title-casing *)

Section Labels.

Lemma to_upper_cases (c : ascii) :
  (is_lower c = true ->
   is_lower (to_upper c) = false /\ is_upper (to_upper c) = true /\
   to_lower (to_upper c) = c) /\
  (is_lower c = false -> to_upper c = c) /\
  is_space (to_upper c) = is_space c.
Proof.
  destruct c as [[] [] [] [] [] [] [] []]; vm_compute;
    repeat split; intros; try reflexivity; discriminate.
Qed.

(** Title-casing does not see the case of its input. *)
Lemma title_from_upper (b : bool) (s : string) :
  title_from b (upper s) = title_from b s.
Proof.
  revert b. induction s as [| c t IH]; intros b; [reflexivity |].
  cbn [upper title_from].
  destruct (to_upper_cases c) as [Hlow [Hnot _]].
  destruct (is_lower c) eqn:El.
  - destruct (Hlow eq_refl) as [H1 [H2 H3]].
    rewrite H1, H2, H3, IH. destruct b; reflexivity.
  - rewrite (Hnot eq_refl), El, !IH. reflexivity.
Qed.

Lemma lstrip_upper (s : string) : lstrip (upper s) = upper (lstrip s).
Proof.
  induction s as [| c t IH]; [reflexivity |].
  cbn [upper lstrip]. destruct (to_upper_cases c) as [_ [_ Hsp]].
  rewrite Hsp. destruct (is_space c); [exact IH | reflexivity].
Qed.

Lemma rstrip_upper (s : string) : rstrip (upper s) = upper (rstrip s).
Proof.
  induction s as [| c t IH]; [reflexivity |].
  cbn [upper rstrip]. rewrite IH.
  destruct (to_upper_cases c) as [_ [_ Hsp]].
  destruct (rstrip t) as [| d u]; cbn [upper].
  - rewrite Hsp. destruct (is_space c); reflexivity.
  - reflexivity.
Qed.

Lemma strip_upper (s : string) : strip (upper s) = upper (strip s).
Proof. unfold strip. now rewrite lstrip_upper, rstrip_upper. Qed.

End Labels.

(** X8.  Column labels are compared after trimming and without regard to
    case: two labels that agree once trimmed and upper-cased are
    normalised to the same name, so every spelling of CLOSE/LAST, padded
    or not, is the price column. *)
Theorem labels_match_up_to_case_and_padding (s s' : string) :
  upper (strip s) = upper (strip s') ->
  normalise s = normalise s' /\
  (upper (strip s') = "CLOSE/LAST"%string ->
   rename_label (normalise s) = "Price"%string).
Proof.
  intros H.
  assert (Hn : forall x, normalise x = title (upper (strip x))).
  { intros x. unfold normalise, title. now rewrite title_from_upper. }
  split.
  - rewrite (Hn s), (Hn s'), H. reflexivity.
  - intros Hc. rewrite (Hn s), H, Hc. reflexivity.
Qed.

Lemma labels_match_up_to_case_and_padding_witness :
  upper (strip "  close/LAST ") = upper (strip "Close/Last") /\
  normalise "  close/LAST " = normalise "Close/Last" /\
  rename_label (normalise "  close/LAST ") = "Price"%string.
Proof.
  assert (H : upper (strip "  close/LAST ") = upper (strip "Close/Last"))
    by reflexivity.
  destruct (labels_match_up_to_case_and_padding _ _ H) as [H1 H2].
  split; [exact H | split; [exact H1 | apply H2; reflexivity]].
Defined.

(** ** The index the loader returns *)

Section AscendingIndex.

Lemma string_compare_trans (a b c : string) :
  String.compare a b <> Gt -> String.compare b c <> Gt ->
  String.compare a c <> Gt.
Proof.
  revert b c. induction a as [| x a IH]; intros [| y b] [| z c];
    cbn [String.compare]; try congruence.
  unfold Ascii.compare.
  destruct (N.compare_spec (N_of_ascii x) (N_of_ascii y)) as [Exy | Exy | Exy],
           (N.compare_spec (N_of_ascii y) (N_of_ascii z)) as [Eyz | Eyz | Eyz],
           (N.compare_spec (N_of_ascii x) (N_of_ascii z)) as [Exz | Exz | Exz];
    intros Hab Hbc; try congruence; try lia.
  exact (IH b c Hab Hbc).
Qed.

Lemma string_leb_trans (a b c : string) :
  String.leb a b = true -> String.leb b c = true -> String.leb a c = true.
Proof.
  unfold String.leb. intros H1 H2.
  assert (H : String.compare a c <> Gt).
  { apply (string_compare_trans a b c).
    - destruct (String.compare a b); congruence.
    - destruct (String.compare b c); congruence. }
  destruct (String.compare a c); congruence.
Qed.

Lemma label_leb_trans (a b c : label) :
  label_leb a b = true -> label_leb b c = true -> label_leb a c = true.
Proof.
  destruct a as [x | x], b as [y | y], c as [z | z]; simpl;
    try congruence.
  - intros H1 H2. apply Z.leb_le in H1. apply Z.leb_le in H2.
    apply Z.leb_le. lia.
  - apply string_leb_trans.
Qed.

Lemma sort_rows_strongly_sorted {A : Type} (l : list (label * A)) :
  StronglySorted label_le (sort_rows l).
Proof.
  apply Sorted_StronglySorted; [| apply sort_rows_sorted].
  intros a b c. unfold label_le. apply label_leb_trans.
Qed.

Lemma dropna_price_sorted (l : list (label * float64)) :
  StronglySorted label_le l ->
  StronglySorted (fun a b => label_leb a b = true)
                 (map fst (dropna_price l)).
Proof.
  induction 1 as [| r t Ht IH Hr]; simpl; [constructor |].
  destruct (negb (isnan (snd r))); [| exact IH].
  simpl. constructor; [exact IH |].
  apply List.Forall_forall. intros k Hk.
  apply in_map_iff in Hk. destruct Hk as [q [<- Hq]].
  apply filter_In in Hq. destruct Hq as [Hq _].
  rewrite List.Forall_forall in Hr. exact (Hr q Hq).
Qed.

End AscendingIndex.

(** X9.  Whatever the order of the rows in the file, the frame the loader
    returns has its index in ascending order: every label is at most all
    the labels after it (timestamps by time; when the dates did not all
    parse, their text in code-point order). *)
Theorem load_index_is_ascending
  (read_file : string -> outcome raw_table)
  (parse_datetime : string -> option Z)
  (csv_float : string -> option float64) (to_numeric : string -> float64)
  (path : string) (df : DataFrame) :
  fst (load_data_from_csv read_file parse_datetime csv_float to_numeric path)
  = Returned (Some df) ->
  StronglySorted (fun a b => label_leb a b = true) (index df).
Proof.
  intros H. apply load_success_inv in H.
  apply load_body_inv in H. destruct H as [fr [_ ->]].
  unfold to_DataFrame. cbn [index].
  apply dropna_price_sorted.
  rewrite <- (sort_rows_map (price_to_numeric to_numeric)).
  apply sort_rows_strongly_sorted.
Qed.

Lemma load_index_is_ascending_witness :
  fst (Plain.load "coin.csv" dollar_table)
  = Returned (Some (mkDF [Timestamp 20240101; Timestamp 20240102]
                         [Fin 1200; Fin (12345 / 10)]%R None)) /\
  StronglySorted (fun a b => label_leb a b = true)
                 [Timestamp 20240101; Timestamp 20240102].
Proof.
  assert (H : fst (Plain.load "coin.csv" dollar_table)
              = Returned (Some (mkDF [Timestamp 20240101; Timestamp 20240102]
                                     [Fin 1200; Fin (12345 / 10)]%R None))).
  { rewrite load_dollar_table. reflexivity. }
  split; [exact H |].
  exact (load_index_is_ascending _ _ _ _ _ _ H).
Defined.

(** ** A price column that is not unique *)

(** X10.  When the file has a close/last-price column and, once the labels
    are trimmed and title-cased, a second column of that name or a column
    already called [Price], the renamed frame has no single price column:
    the load fails with the printed error and returns [None]. *)
Theorem ambiguous_price_column_fails_load
  (read_file : string -> outcome raw_table)
  (parse_datetime : string -> option Z)
  (csv_float : string -> option float64) (to_numeric : string -> float64)
  (path : string) (t : raw_table) :
  read_file path = Returned t ->
  In "Date"%string (header t) ->
  (1 <= count_label "Close/Last" (map normalise (header t)))%nat ->
  (2 <= count_label "Close/Last" (map normalise (header t))
        + count_label "Price" (map normalise (header t)))%nat ->
  load_data_from_csv read_file parse_datetime csv_float to_numeric path
  = (Returned None, [Error_failed_to_load (DuplicateColumn "Price")]).
Proof.
  intros Hr Hd Hc Hp. apply load_raised.
  destruct (position_In _ _ Hd) as [d Hpos].
  unfold load_body, read_csv. rewrite Hr. cbn [bind]. rewrite Hpos.
  cbn [bind set_columns columns rows].
  assert (Hex : existsb (String.eqb "Close/Last") (map normalise (header t))
                = true).
  { unfold count_label in Hc.
    destruct (List.filter (String.eqb "Close/Last")
                (map normalise (header t))) as [| c r] eqn:Ef;
      [simpl in Hc; lia |].
    assert (Hin : In c (List.filter (String.eqb "Close/Last")
                          (map normalise (header t))))
      by (rewrite Ef; left; reflexivity).
    apply filter_In in Hin. apply existsb_exists. exists c. exact Hin. }
  rewrite Hex. cbn [negb].
  unfold select_single at 1. cbn [rename_close_last columns].
  rewrite count_Price_renamed. cbn [set_columns columns].
  destruct (Nat.eqb_spec
              (count_label "Price" (map normalise (header t))
               + count_label "Close/Last" (map normalise (header t))) 1)
    as [E | _]; [lia | reflexivity].
Qed.

Lemma ambiguous_price_column_fails_load_witness :
  Plain.load "coin.csv"
    (mkRaw ["Date"; "Price"; "close/last"]%string
           [["2024-01-01"; "1"; "2"]]%string)
  = (Returned None, [Error_failed_to_load (DuplicateColumn "Price")]).
Proof.
  apply (ambiguous_price_column_fails_load _ _ _ _ _
           (mkRaw ["Date"; "Price"; "close/last"]%string
                  [["2024-01-01"; "1"; "2"]]%string)).
  - reflexivity.
  - simpl. left. reflexivity.
  - vm_compute. lia.
  - vm_compute. lia.
Defined.

(** ** The dict of instruments *)

Section Dict.

Lemma keys_dict_set (d : list (string * loc)) (k : string) (v : loc) :
  keys (dict_set d k v)
  = if existsb (String.eqb k) (keys d) then keys d else keys d ++ [k].
Proof.
  induction d as [| [k' v'] t IH]; [reflexivity |].
  cbn [dict_set keys map fst existsb].
  destruct (String.eqb_spec k k') as [-> | Hne]; [reflexivity |].
  cbn [map fst orb]. fold (keys (dict_set t k v)). fold (keys t).
  rewrite IH. destruct (existsb (String.eqb k) (keys t)); reflexivity.
Qed.

Lemma existsb_eqb_In (k : string) (l : list string) :
  existsb (String.eqb k) l = true <-> In k l.
Proof.
  rewrite existsb_exists. split.
  - intros [x [Hx E]]. apply String.eqb_eq in E. now subst.
  - intros H. exists k. split; [exact H | apply String.eqb_refl].
Qed.

Lemma dict_set_NoDup (d : list (string * loc)) (k : string) (v : loc) :
  List.NoDup (keys d) -> List.NoDup (keys (dict_set d k v)).
Proof.
  intros Hnd. rewrite keys_dict_set.
  destruct (existsb (String.eqb k) (keys d)) eqn:E; [exact Hnd |].
  apply List.NoDup_app.
  - exact Hnd.
  - repeat constructor. intros [].
  - intros x Hx [<- | []].
    apply existsb_eqb_In in Hx. congruence.
Qed.

Lemma dict_set_In (d : list (string * loc)) (k : string) (v : loc)
    (k' : string) (v' : loc) :
  List.NoDup (keys d) ->
  In (k', v') (dict_set d k v)
  <-> (k' = k /\ v' = v) \/ (k' <> k /\ In (k', v') d).
Proof.
  induction d as [| [k0 v0] t IH]; intros Hnd.
  - simpl. split.
    + intros [E | []]. injection E as <- <-. left. split; reflexivity.
    + intros [[-> ->] | [_ []]]. left. reflexivity.
  - cbn [keys map fst] in Hnd. apply List.NoDup_cons_iff in Hnd.
    destruct Hnd as [Hk0 Hnd]. fold (keys t) in Hk0, Hnd.
    cbn [dict_set]. destruct (String.eqb_spec k k0) as [-> | Hne].
    + split.
      * intros [E | Hin].
        -- injection E as <- <-. left. split; reflexivity.
        -- right. split; [| right; exact Hin].
           intros ->. apply Hk0. apply in_map_iff.
           exists (k0, v'). split; [reflexivity | exact Hin].
      * intros [[-> ->] | [Hk [E | Hin]]].
        -- left. reflexivity.
        -- injection E as <- <-. contradiction.
        -- right. exact Hin.
    + split.
      * intros [E | Hin].
        -- injection E as <- <-. right. split; [congruence |].
           left. reflexivity.
        -- apply (IH Hnd) in Hin.
           destruct Hin as [Hin | [Hk Hin]]; [left; exact Hin |].
           right. split; [exact Hk | right; exact Hin].
      * intros [Hin | [Hk [E | Hin]]].
        -- right. apply (IH Hnd). left. exact Hin.
        -- left. exact E.
        -- right. apply (IH Hnd). right. split; assumption.
Qed.

End Dict.

(** X11.  [coins[ticker] = df] on a dict with distinct keys leaves the keys
    distinct; a ticker already present keeps its place in the order of the
    dict and a new one goes last; afterwards the ticker is bound to the new
    frame only, and every other ticker to what it was bound to before. *)
Theorem dict_set_updates_one_key
  (d : list (string * loc)) (k : string) (v : loc) :
  List.NoDup (keys d) ->
  List.NoDup (keys (dict_set d k v)) /\
  keys (dict_set d k v)
  = (if existsb (String.eqb k) (keys d) then keys d else keys d ++ [k]) /\
  forall (k' : string) (v' : loc),
    In (k', v') (dict_set d k v)
    <-> (k' = k /\ v' = v) \/ (k' <> k /\ In (k', v') d).
Proof.
  intros Hnd. split; [apply dict_set_NoDup; exact Hnd |].
  split; [apply keys_dict_set |].
  intros k' v'. apply dict_set_In. exact Hnd.
Qed.

Lemma dict_set_updates_one_key_witness :
  List.NoDup (keys two_coins) /\
  keys (dict_set two_coins "A" 3%positive) = ["A"; "B"]%string /\
  (In ("B"%string, 2%positive) (dict_set two_coins "A" 3%positive)
   <-> ("B" = "A" /\ 2 = 3)%positive%string
       \/ ("B"%string <> "A"%string
           /\ In ("B"%string, 2%positive) two_coins)).
Proof.
  assert (H : List.NoDup (keys two_coins)).
  { repeat constructor; simpl; intros H;
      repeat (destruct H as [H | H]; try discriminate); exact H. }
  destruct (dict_set_updates_one_key two_coins "A" 3%positive H)
    as [_ [Hk Hin]].
  split; [exact H | split; [exact Hk | apply Hin]].
Defined.

(** ** Tickers *)

Section Tickers.

Lemma upper_idem (s : string) : upper (upper s) = upper s.
Proof.
  induction s as [| c t IH]; [reflexivity |].
  cbn [upper]. rewrite IH. f_equal.
  destruct (to_upper_cases c) as [Hlow [Hnot _]].
  destruct (is_lower c) eqn:El.
  - destruct (Hlow eq_refl) as [H1 _].
    destruct (to_upper_cases (to_upper c)) as [_ [Hnot' _]].
    exact (Hnot' H1).
  - now rewrite (Hnot eq_refl), (Hnot eq_refl).
Qed.

Lemma rstrip_idem (s : string) : rstrip (rstrip s) = rstrip s.
Proof.
  induction s as [| c t IH]; [reflexivity |].
  cbn [rstrip]. destruct (rstrip t) as [| d u] eqn:Et.
  - destruct (is_space c) eqn:Ec; [reflexivity |].
    cbn [rstrip]. rewrite Ec. reflexivity.
  - cbn [rstrip] in *. rewrite IH. reflexivity.
Qed.

Lemma lstrip_starts_clean (s : string) : starts_clean (lstrip s).
Proof.
  induction s as [| c t IH]; [exact I |].
  cbn [lstrip]. destruct (is_space c) eqn:Ec; [exact IH | exact Ec].
Qed.

Lemma rstrip_starts_clean (s : string) :
  starts_clean s -> starts_clean (rstrip s).
Proof.
  destruct s as [| c t]; [trivial |].
  cbn [starts_clean rstrip]. intros Hc.
  destruct (rstrip t); [rewrite Hc |]; exact Hc.
Qed.

Lemma lstrip_clean (s : string) : starts_clean s -> lstrip s = s.
Proof.
  destruct s as [| c t]; [reflexivity |].
  cbn [starts_clean lstrip]. intros ->. reflexivity.
Qed.

Lemma strip_idem (s : string) : strip (strip s) = strip s.
Proof.
  unfold strip.
  rewrite (lstrip_clean (rstrip (lstrip s))).
  - apply rstrip_idem.
  - apply rstrip_starts_clean, lstrip_starts_clean.
Qed.

Lemma ticker_is_ticker (line : string) : is_ticker (strip (upper line)).
Proof.
  split.
  - now rewrite <- strip_upper, upper_idem.
  - apply strip_idem.
Qed.

End Tickers.

(** ** What choice 1 stores *)

Section Stored.

Variable path_exists : string -> bool.
Variable read_file : string -> outcome raw_table.
Variable parse_datetime : string -> option Z.
Variable csv_float : string -> option float64.
Variable to_numeric : string -> float64.

Local Abbreviation loader :=
  (load_data_from_csv read_file parse_datetime csv_float to_numeric).
Local Abbreviation choice_1 :=
  (menu_load path_exists read_file parse_datetime csv_float to_numeric).
Local Abbreviation play :=
  (main_menu_from path_exists read_file parse_datetime csv_float to_numeric).

(** The loader raises nothing: its [except] clause takes everything. *)
Lemma loader_returns (path : string) :
  exists (r : option DataFrame) (printed : list message),
    loader path = (Returned r, printed).
Proof.
  unfold load_data_from_csv, try_except.
  destruct (load_body _ _ _ _ path) as [df | e]; cbn [bind]; eauto.
Qed.

Lemma loaded_frame_wf (path : string) (df : DataFrame) :
  fst (loader path) = Returned (Some df) ->
  empty df = false ->
  Returns df = None /\
  frame_wf (set_Returns df (pct_change (Price df))).
Proof.
  intros H He. apply load_success_inv in H.
  apply load_body_inv in H. destruct H as [fr [_ ->]].
  split; [reflexivity |].
  unfold frame_wf, set_Returns, to_DataFrame in *. cbn [index Price Returns].
  repeat split.
  - unfold empty in He. cbn [index] in He.
    destruct (map fst _); [discriminate | congruence].
  - now rewrite !length_map.
  - apply dropna_price_not_nan.
  - apply dropna_price_sorted.
    rewrite <- (sort_rows_map (price_to_numeric to_numeric)).
    apply sort_rows_strongly_sorted.
Qed.

(** The three ways choice 1 ends. *)
Lemma menu_load_cases (s : session) (ticker_line path_line : string) :
  exists (s' : session) (out : list event),
    choice_1 s ticker_line path_line = (Returned s', out) /\
    (s' = s \/
     exists (df : DataFrame) (printed : list message),
       loader (clean_path path_line) = (Returned (Some df), printed) /\
       empty df = false /\
       s' = mkSession
              (dict_set (coins s) (strip (upper ticker_line))
                 (new_loc (heap s)))
              (<[new_loc (heap s)
                 := set_Returns df (pct_change (Price df))]> (heap s)) /\
       out = map Print printed
             ++ [Print (Success_loaded (strip (upper ticker_line))
                          (length (index df)))]).
Proof.
  unfold menu_load.
  destruct (path_exists (clean_path path_line)); [| eauto].
  destruct (loader_returns (clean_path path_line)) as [r [printed E]].
  rewrite E. destruct r as [df |]; [| eauto].
  destruct (empty df) eqn:Ee; cbn [negb]; [eauto |].
  do 2 eexists. split; [reflexivity |]. right.
  exists df, printed. repeat split. exact Ee.
Qed.

Lemma menu_load_wf (s s' : session) (ticker_line path_line : string)
    (out : list event) :
  session_wf s ->
  choice_1 s ticker_line path_line = (Returned s', out) ->
  session_wf s'.
Proof.
  intros Hwf H.
  destruct (menu_load_cases s ticker_line path_line)
    as [s1 [o1 [E [-> | [df [printed [Hl [He [-> _]]]]]]]]];
    rewrite E in H; injection H as <- _; [exact Hwf |].
  destruct Hwf as [Hnd [Htk [Hres Hfr]]].
  unfold session_wf. cbn [coins heap].
  split; [apply dict_set_NoDup; exact Hnd |].
  split; [| split].
  - rewrite keys_dict_set.
    destruct (existsb _ _); [exact Htk |].
    apply Forall_app. split; [exact Htk |].
    constructor; [apply ticker_is_ticker | constructor].
  - apply dict_set_Forall.
    + eapply Forall_impl; [exact Hres |].
      intros kv [d Hd]. exists d.
      rewrite lookup_insert_ne; [exact Hd |].
      intros Eq. rewrite <- Eq, new_loc_fresh in Hd. discriminate.
    + cbn [snd]. rewrite lookup_insert_eq. eauto.
  - intros l d Hd.
    destruct (decide (l = new_loc (heap s))) as [-> | Hne].
    + rewrite lookup_insert_eq in Hd. injection Hd as <-.
      apply (loaded_frame_wf (clean_path path_line)); [| exact He].
      rewrite Hl. reflexivity.
    + rewrite lookup_insert_ne in Hd by congruence.
      apply (Hfr l d Hd).
Qed.

End Stored.

(** ** The loop of main_menu *)

Section Loop.

Variable path_exists : string -> bool.
Variable read_file : string -> outcome raw_table.
Variable parse_datetime : string -> option Z.
Variable csv_float : string -> option float64.
Variable to_numeric : string -> float64.

Local Abbreviation choice_1 :=
  (menu_load path_exists read_file parse_datetime csv_float to_numeric).
Local Abbreviation play :=
  (main_menu_from path_exists read_file parse_datetime csv_float to_numeric).

Lemma frame_wf_not_empty (df : DataFrame) : frame_wf df -> empty df = false.
Proof.
  intros [Hi _]. unfold empty. destruct (index df); congruence.
Qed.

Lemma session_wf_ok (s : session) : session_wf s -> session_ok s.
Proof.
  intros [_ [_ [Hres Hfr]]]. split; [exact Hres |].
  intros l df Hl. pose proof (Hfr l df Hl) as Hw.
  split; [apply frame_wf_not_empty; exact Hw | apply Hw].
Qed.

Lemma session_wf_start : session_wf (mkSession [] ∅).
Proof.
  split; [constructor |]. split; [constructor |]. split; [constructor |].
  intros l df Hl. cbn [heap] in Hl. rewrite lookup_empty in Hl. discriminate.
Qed.

(** However the rounds go, a session the loop returns is of the same
    kind as the one it started from. *)
Lemma main_menu_from_outcome (rounds : list choice) (s : session) :
  session_wf s ->
  match fst (play s rounds) with
  | Returned s' => session_wf s'
  | Raised _ => True
  end.
Proof.
  revert s. induction rounds as [| c rest IH]; intros s Hwf;
    [exact I |].
  assert (Hnext : forall s1 k,
             session_wf s1 ->
             match fst (let (r, later) := play s1 rest in
                        (r, k later) : outcome session * list event) with
             | Returned s' => session_wf s'
             | Raised _ => True
             end).
  { intros s1 k H1. specialize (IH s1 H1).
    destruct (play s1 rest) as [[s2 | e] later]; cbn [fst] in *;
      [exact IH | exact I]. }
  cbn [main_menu_from]. destruct c.
  - destruct (menu_load_cases path_exists read_file parse_datetime csv_float
                to_numeric s ticker_line path_line) as [s1 [o [E _]]].
    rewrite E. apply Hnext. eapply menu_load_wf; eassumption.
  - pose proof (menu_report_same s (session_wf_ok s Hwf)) as Hsame.
    destruct (menu_report s) as [s1 o]. cbn [fst] in Hsame. subst s1.
    apply Hnext. exact Hwf.
  - destruct (coins s); apply Hnext; exact Hwf.
  - destruct (menu_correlation s) as [o | e] eqn:Ec.
    + apply Hnext. exact Hwf.
    + exact I.
  - unfold menu_clear. apply Hnext.
    destruct Hwf as [_ [_ [_ Hfr]]].
    split; [constructor |]. split; [constructor |]. split; [constructor |].
    exact Hfr.
  - exact Hwf.
  - apply Hnext. exact Hwf.
Qed.

End Loop.

(** X12.  Choice 1 never raises and never changes a frame already stored.
    It either leaves the session as it was, or binds the upper-cased,
    trimmed ticker to a frame that did not exist before and holds the
    loaded index and prices together with the percentage changes of those
    prices. *)
Theorem menu_load_binds_a_new_frame
  (path_exists : string -> bool)
  (read_file : string -> outcome raw_table)
  (parse_datetime : string -> option Z)
  (csv_float : string -> option float64) (to_numeric : string -> float64)
  (s : session) (ticker_line path_line : string) :
  exists (s' : session) (out : list event),
    menu_load path_exists read_file parse_datetime csv_float to_numeric
      s ticker_line path_line = (Returned s', out) /\
    (forall l d, heap s !! l = Some d -> heap s' !! l = Some d) /\
    (s' = s \/
     exists (l : loc) (df : DataFrame),
       heap s !! l = None /\
       fst (load_data_from_csv read_file parse_datetime csv_float to_numeric
              (clean_path path_line)) = Returned (Some df) /\
       heap s' !! l
       = Some (mkDF (index df) (Price df) (Some (pct_change (Price df)))) /\
       coins s' = dict_set (coins s) (strip (upper ticker_line)) l).
Proof.
  destruct (menu_load_cases path_exists read_file parse_datetime csv_float
              to_numeric s ticker_line path_line)
    as [s' [out [E [-> | [df [printed [Hl [He [-> _]]]]]]]]].
  - exists s, out. split; [exact E |]. split; [auto | left; reflexivity].
  - do 2 eexists. split; [exact E |]. cbn [heap coins]. split.
    + intros l d Hd. rewrite lookup_insert_ne; [exact Hd |].
      intros Eq. rewrite <- Eq, new_loc_fresh in Hd. discriminate.
    + right. exists (new_loc (heap s)), df.
      split; [apply new_loc_fresh |].
      split; [rewrite Hl; reflexivity |].
      split; [apply lookup_insert_eq | reflexivity].
Qed.

(** X13.  Whatever the user plays, the session [main_menu] ends with is
    well formed: the tickers are distinct, upper-cased and trimmed; each
    refers to a stored frame; and every stored frame has rows, one price
    per label with none missing, ascending labels, and a [Returns] column
    equal to the percentage changes of its prices. *)
Theorem main_menu_session_is_well_formed
  (path_exists : string -> bool)
  (read_file : string -> outcome raw_table)
  (parse_datetime : string -> option Z)
  (csv_float : string -> option float64) (to_numeric : string -> float64)
  (rounds : list choice) (s : session) (out : list event) :
  main_menu path_exists read_file parse_datetime csv_float to_numeric rounds
  = (Returned s, out) ->
  session_wf s.
Proof.
  intros H.
  pose proof (main_menu_from_outcome path_exists read_file parse_datetime
                csv_float to_numeric rounds _ session_wf_start) as Ho.
  unfold main_menu in H. rewrite H in Ho. exact Ho.
Qed.

Lemma main_menu_session_is_well_formed_witness :
  exists (s : session) (out : list event),
    main_menu (String.eqb "coin.csv")
      (Plain.one_file "coin.csv" dollar_table)
      Plain.parse_datetime Plain.csv_float Plain.to_numeric
      [Choice_1 " btc " "'coin.csv'"; Choice_2; Choice_6]
    = (Returned s, out) /\
    session_wf s.
Proof.
  do 2 eexists. split; [reflexivity |].
  eapply (main_menu_session_is_well_formed (String.eqb "coin.csv")
            (Plain.one_file "coin.csv" dollar_table)
            Plain.parse_datetime Plain.csv_float Plain.to_numeric
            [Choice_1 " btc " "'coin.csv'"; Choice_2; Choice_6]).
  reflexivity.
Defined.

(** ** The report of choice 2 *)

Section ReportLines.

Lemma report_rows_lines (items : list (string * loc))
    (h : gmap loc DataFrame) :
  (forall l df, h !! l = Some df ->
                Returns df = Some (pct_change (Price df))) ->
  report_rows h items = (h, flat_map (report_line h) items).
Proof.
  intros Hall. induction items as [| [name l] rest IH]; [reflexivity |].
  cbn [report_rows flat_map]. unfold report_line at 1. cbn [fst snd].
  destruct (h !! l) as [df |] eqn:El; [| exact IH].
  pose proof (calculate_metrics_writes_returns_only df
                default_risk_free_rate) as Hw.
  apply (only_returns_written_same df) in Hw; [| exact (Hall l df El)].
  destruct (calculate_metrics df default_risk_free_rate) as [m df'].
  cbn [snd fst] in *. subst df'.
  rewrite (insert_id h l df El), IH. reflexivity.
Qed.

(** The session of two instruments used in the examples is one that
    [main_menu] can hold. *)
Lemma two_day_session_wf : session_wf (mkSession two_coins two_day_heap).
Proof.
  unfold session_wf. cbn [coins heap].
  split.
  { repeat constructor; simpl; intros H;
      repeat (destruct H as [H | H]; try discriminate); exact H. }
  split; [repeat constructor |].
  split; [repeat constructor; eexists; reflexivity |].
  intros l df Hl. unfold two_day_heap in Hl.
  assert (Hst : forall idx a b,
             idx = [Timestamp 1; Timestamp 2] ->
             frame_wf (stored idx [Fin a; Fin b])).
  { intros idx a b ->. unfold frame_wf, stored. cbn [index Price Returns].
    repeat split; try discriminate; repeat constructor. }
  apply lookup_insert_Some in Hl.
  destruct Hl as [[_ <-] | [_ Hl]]; [apply Hst; reflexivity |].
  apply lookup_insert_Some in Hl.
  destruct Hl as [[_ <-] | [_ Hl]]; [apply Hst; reflexivity |].
  rewrite lookup_empty in Hl. discriminate.
Qed.

End ReportLines.

(** X15.  On a session that [main_menu] holds, with at least one
    instrument, the report leaves the session as it is and prints, between
    the header and the closing rule, exactly one row per instrument, in the
    order of the dict, each with the metrics of the frame stored for it at
    the default risk-free rate. *)
Theorem menu_report_prints_one_row_per_coin (s : session) :
  session_wf s ->
  coins s <> [] ->
  menu_report s
  = (s, [Print Report_rule; Print Report_header; Print Report_rule]
        ++ flat_map (report_line (heap s)) (coins s)
        ++ [Print Report_rule]) /\
  Forall (fun kv =>
            exists df,
              heap s !! snd kv = Some df /\
              report_line (heap s) kv
              = [Print (Report_row (fst kv)
                          (fst (calculate_metrics df
                                  default_risk_free_rate)))])
         (coins s).
Proof.
  intros Hwf Hne. split.
  - unfold menu_report.
    destruct (coins s) as [| c rest] eqn:Ec; [contradiction |].
    rewrite report_rows_lines.
    + destruct s. cbn [coins heap] in *. rewrite Ec. reflexivity.
    + intros l df Hl. destruct Hwf as [_ [_ [_ Hfr]]].
      apply (Hfr l df Hl).
  - destruct Hwf as [_ [_ [Hres _]]].
    eapply Forall_impl; [exact Hres |].
    intros kv [df Hl]. exists df. split; [exact Hl |].
    unfold report_line. rewrite Hl. reflexivity.
Qed.

Lemma menu_report_prints_one_row_per_coin_witness :
  session_wf (mkSession two_coins two_day_heap) /\
  two_coins <> [] /\
  menu_report (mkSession two_coins two_day_heap)
  = (mkSession two_coins two_day_heap,
     [Print Report_rule; Print Report_header; Print Report_rule]
       ++ flat_map (report_line two_day_heap) two_coins
       ++ [Print Report_rule]).
Proof.
  assert (Hne : two_coins <> []) by discriminate.
  split; [exact two_day_session_wf |]. split; [exact Hne |].
  exact (proj1 (menu_report_prints_one_row_per_coin
                  (mkSession two_coins two_day_heap)
                  two_day_session_wf Hne)).
Defined.

(** ** The combined frame of plot_correlation *)

Section Alignment.

Lemma label_eqb_eq (a b : label) : label_eqb a b = true <-> a = b.
Proof.
  destruct a as [x | x], b as [y | y]; simpl; split; intros H;
    try discriminate.
  - apply Z.eqb_eq in H. now subst.
  - injection H as ->. apply Z.eqb_refl.
  - apply String.eqb_eq in H. now subst.
  - injection H as ->. apply String.eqb_refl.
Qed.

Lemma labels_eqb_eq (a b : list label) : labels_eqb a b = true -> a = b.
Proof.
  revert b. induction a as [| x s IH]; intros [| y t]; simpl;
    try discriminate; [reflexivity |].
  intros H. apply andb_true_iff in H. destruct H as [Hx Hs].
  apply label_eqb_eq in Hx. subst. f_equal. apply IH. exact Hs.
Qed.

(** Read at its own labels, a series with distinct labels gives back its
    values. *)
Lemma value_at_self (idx : list label) (vals : list float64) :
  is_unique idx = true -> length vals = length idx ->
  map (value_at idx vals) idx = vals.
Proof.
  revert vals. induction idx as [| i it IH]; intros [| v vt] Hu Hlen;
    simpl in Hlen; try discriminate; [reflexivity |].
  cbn [is_unique] in Hu. apply andb_true_iff in Hu. destruct Hu as [Hi Hu].
  cbn [map]. f_equal.
  { cbn [value_at]. now rewrite (proj2 (label_eqb_eq i i) eq_refl). }
  transitivity (map (value_at it vt) it); [| apply IH; [exact Hu | lia]].
  apply map_ext_in. intros k Hk. cbn [value_at].
  destruct (label_eqb i k) eqn:E; [| reflexivity].
  apply negb_true_iff in Hi.
  assert (Hex : existsb (label_eqb i) it = true).
  { apply existsb_exists. exists k. split; assumption. }
  congruence.
Qed.

Lemma pct_change_length (xs : list float64) :
  length (pct_change xs) = length xs.
Proof.
  destruct xs as [| x t]; [reflexivity |].
  simpl. now rewrite pct_from_length.
Qed.

Variable h : gmap loc DataFrame.

(** The frames of a session in which no frame repeats a label. *)
Local Abbreviation frames_unique items :=
  (Forall (fun kv : string * loc =>
             exists df, h !! snd kv = Some df /\ frame_wf df /\
                        is_unique (index df) = true) items).

Lemma collect_returns_aligned (items : list (string * loc)) :
  frames_unique items ->
  forall cr : Combined,
    c_index cr <> [] ->
    collect_returns h items cr
    = Returned (mkCombined (c_index cr)
                  (c_columns cr
                   ++ map (aligned_returns h (c_index cr)) items)).
Proof.
  induction 1 as [| [name lc] rest [df [Hl [Hw Hu]]] _ IH]; intros cr Hne.
  - cbn [collect_returns map]. rewrite app_nil_r. now destruct cr.
  - cbn [snd] in Hl. cbn [collect_returns map].
    unfold aligned_returns at 1. cbn [fst snd]. rewrite Hl.
    rewrite (frame_wf_not_empty df Hw). cbn [negb].
    pose proof Hw as [_ [Hlen [_ [_ Hr]]]].
    unfold get_Returns. rewrite Hr.
    assert (Hs : setitem cr name (index df) (pct_change (Price df))
                 = Returned
                     (mkCombined (c_index cr)
                        (c_columns cr
                         ++ [(name, map (value_at (index df)
                                           (pct_change (Price df)))
                                        (c_index cr))]))).
    { unfold setitem. destruct (c_index cr) as [| k ks] eqn:Ei;
        [contradiction |].
      destruct (labels_eqb (index df) (k :: ks)) eqn:El.
      - apply labels_eqb_eq in El. rewrite <- El.
        rewrite value_at_self;
          [reflexivity | exact Hu | now rewrite pct_change_length]. 
      - rewrite Hu. reflexivity. }
    rewrite Hs. cbn [bind]. rewrite IH by exact Hne.
    cbn [c_index c_columns]. rewrite <- app_assoc. reflexivity.
Qed.

Lemma collect_returns_from_scratch (items : list (string * loc)) :
  frames_unique items ->
  items <> [] ->
  collect_returns h items (mkCombined [] [])
  = Returned (mkCombined (first_index h items)
                (map (aligned_returns h (first_index h items)) items)) /\
  first_index h items <> [].
Proof.
  intros Hall Hne. destruct items as [| [name lc] rest]; [contradiction |].
  inversion Hall as [| kv l0 [df [Hl [Hw Hu]]] Hrest]; subst.
  cbn [snd] in Hl. cbn [collect_returns first_index snd map]. rewrite Hl.
  unfold aligned_returns at 1. cbn [fst snd]. rewrite Hl.
  rewrite (frame_wf_not_empty df Hw). cbn [negb].
  pose proof Hw as [Hidx [Hlen [_ [_ Hr]]]].
  unfold get_Returns. rewrite Hr.
  unfold setitem. cbn [c_index c_columns app bind].
  rewrite (collect_returns_aligned rest Hrest) by exact Hidx.
  cbn [c_index c_columns app].
  rewrite value_at_self;
    [split; [reflexivity | exact Hidx] | exact Hu
     | now rewrite pct_change_length].
Qed.

End Alignment.

Lemma stored_frame_wf (i j : Z) (a b : float64) :
  (i <=? j)%Z = true -> isnan a = false -> isnan b = false ->
  frame_wf (stored [Timestamp i; Timestamp j] [a; b]).
Proof.
  intros Hij Ha Hb. unfold frame_wf, stored. cbn [index Price Returns].
  repeat split; try discriminate; repeat constructor; assumption.
Qed.

Lemma disjoint_session_wf : session_wf (mkSession two_coins disjoint_heap).
Proof.
  unfold session_wf. cbn [coins heap].
  split.
  { repeat constructor; simpl; intros H;
      repeat (destruct H as [H | H]; try discriminate); exact H. }
  split; [repeat constructor |].
  split; [repeat constructor; eexists; reflexivity |].
  intros l df Hl. unfold disjoint_heap in Hl.
  apply lookup_insert_Some in Hl.
  destruct Hl as [[_ <-] | [_ Hl]]; [apply stored_frame_wf; reflexivity |].
  apply lookup_insert_Some in Hl.
  destruct Hl as [[_ <-] | [_ Hl]]; [apply stored_frame_wf; reflexivity |].
  rewrite lookup_empty in Hl. discriminate.
Qed.

(** X16.  On a session that [main_menu] holds, with two or more
    instruments whose frames repeat no date, the heat map is drawn over
    every instrument, in the order of the dict, and its matrix is the
    Pearson matrix of the stored returns read at the dates of the first
    instrument: a date the first instrument lacks is left out, and an
    instrument without a value at one of those dates has [nan] there. *)
Theorem correlation_aligns_on_first_instrument (s : session) :
  session_wf s ->
  stored_frames_ok (heap s) (coins s) ->
  (2 <= length (coins s))%nat ->
  plot_correlation (heap s) (coins s)
  = Returned
      [Heatmap (keys (coins s))
         (corr (map (aligned_returns (heap s)
                       (first_index (heap s) (coins s)))
                    (coins s)))] /\
  length (corr (map (aligned_returns (heap s)
                       (first_index (heap s) (coins s)))
                    (coins s))) = length (coins s).
Proof.
  intros [_ [_ [_ Hfr]]] Hok Hlen.
  split; [| now rewrite corr_length, length_map].
  assert (Hall : Forall (fun kv : string * loc =>
                           exists df, heap s !! snd kv = Some df /\
                                      frame_wf df /\
                                      is_unique (index df) = true)
                        (coins s)).
  { eapply Forall_impl; [exact Hok |].
    intros kv [df [r [Hl [_ Hu]]]]. exists df.
    split; [exact Hl | split; [exact (Hfr _ _ Hl) | exact Hu]]. }
  assert (Hne : coins s <> []).
  { intros E. rewrite E in Hlen. simpl in Hlen. lia. }
  destruct (collect_returns_from_scratch (heap s) (coins s) Hall Hne)
    as [Hc Hidx].
  unfold plot_correlation.
  destruct (Nat.ltb_spec (length (coins s)) 2) as [Hlt | _]; [lia |].
  rewrite Hc. cbn [bind]. unfold combined_empty. cbn [c_index c_columns].
  destruct (first_index (heap s) (coins s)) as [| k ks]; [contradiction |].
  destruct (coins s) as [| c rest]; [contradiction |].
  cbn [map]. unfold keys. cbn [map]. do 3 f_equal.
  rewrite map_map. reflexivity.
Qed.

Lemma correlation_aligns_on_first_instrument_witness :
  session_wf (mkSession two_coins disjoint_heap) /\
  stored_frames_ok disjoint_heap two_coins /\
  (2 <= length two_coins)%nat /\
  plot_correlation disjoint_heap two_coins
  = Returned
      [Heatmap ["A"; "B"]%string
         (corr [("A"%string, pct_change [Fin 100; Fin 110]);
                ("B"%string, [NaN; NaN])])].
Proof.
  assert (Hlen : (2 <= length two_coins)%nat) by (simpl; lia).
  split; [exact disjoint_session_wf |].
  split; [exact disjoint_frames_ok |].
  split; [exact Hlen |].
  exact (proj1 (correlation_aligns_on_first_instrument
                  (mkSession two_coins disjoint_heap)
                  disjoint_session_wf disjoint_frames_ok Hlen)).
Defined.

(** ** The curves of plot_performance *)

Section Curves.
Local Open Scope R_scope.

Lemma sdiv_scalar_fin (ps : list R) (p : R) :
  p <> 0 ->
  sdiv_scalar (map Fin ps) (Fin p) = map Fin (map (fun x => x / p) ps).
Proof.
  intros Hp. unfold sdiv_scalar. rewrite !map_map.
  apply map_ext. intros x. apply fdiv_fin. exact Hp.
Qed.

Lemma drawdown_from_range (m : R) (ps : list R) :
  0 < m -> Forall (fun p => 0 < p) ps ->
  Forall (fun d => -1 < d <= 0) (drawdown_from m ps).
Proof.
  intros Hm Hps. revert m Hm.
  induction Hps as [| p t Hp _ IH]; intros m Hm; simpl; [constructor |].
  assert (Hge : p <= Rmax m p) by apply Rmax_r.
  assert (Hmax : 0 < Rmax m p) by lra.
  constructor; [| apply IH; exact Hmax].
  assert (H0 : 0 < p / Rmax m p) by (apply Rdiv_lt_0_compat; assumption).
  assert (H1 : p / Rmax m p <= 1).
  { apply (Rmult_le_reg_r (Rmax m p)); [exact Hmax |].
    unfold Rdiv. rewrite Rmult_assoc, Rinv_l by lra. lra. }
  lra.
Qed.

(** The curves of one frame with rows and positive prices. *)
Lemma curves_of_frame (name : string) (df : DataFrame) (ps : list R) :
  frame_wf df -> Price df = map Fin ps -> Forall (fun p => 0 < p) ps ->
  exists first : float64,
    iloc_first (Price df) = Some first /\
    curve_ok df (name, sdiv_scalar (Price df) first, drawdown (Price df)).
Proof.
  intros [Hidx [Hlen _]] Hps Hpos. rewrite Hps in *.
  rewrite length_map in Hlen.
  destruct ps as [| p t].
  { simpl in Hlen. destruct (index df); [congruence | discriminate]. }
  assert (Hp : 0 < p) by (inversion Hpos; assumption).
  exists (Fin p). split; [reflexivity |].
  unfold curve_ok. cbn [fst snd].
  rewrite sdiv_scalar_fin by lra. rewrite (drawdown_fin p t Hpos).
  split; [rewrite !length_map; exact Hlen |].
  split; [rewrite length_map, drawdown_from_length; exact Hlen |].
  split; [simpl; f_equal; field; lra |].
  split.
  { apply List.Forall_forall. intros g Hg. apply in_map_iff in Hg.
    destruct Hg as [x [<- _]]. reflexivity. }
  split; [simpl; rewrite (Rmax_left p p) by lra; f_equal; field; lra |].
  pose proof (drawdown_from_range p (p :: t) Hp Hpos) as Hdd.
  apply List.Forall_forall. intros d Hd. apply in_map_iff in Hd.
  destruct Hd as [x [<- Hx]]. exists x. split; [reflexivity |].
  rewrite List.Forall_forall in Hdd. specialize (Hdd x Hx). lra.
Qed.

Lemma performance_curves_in_order (h : gmap loc DataFrame)
    (items : list (string * loc)) :
  Forall (fun kv => exists df ps,
              h !! snd kv = Some df /\ frame_wf df /\
              Price df = map Fin ps /\ Forall (fun p => 0 < p) ps) items ->
  Forall2 (fun kv c =>
             fst (fst c) = fst kv /\
             exists df, h !! snd kv = Some df /\ curve_ok df c)
          items (performance_curves h items).
Proof.
  induction 1 as [| [name lc] rest [df [ps [Hl [Hw [Hp Hpos]]]]] _ IH];
    cbn [performance_curves]; [constructor |].
  cbn [snd] in Hl. rewrite Hl, (frame_wf_not_empty df Hw).
  destruct (curves_of_frame name df ps Hw Hp Hpos) as [first [Hf Hc]].
  rewrite Hf. constructor; [| exact IH].
  split; [reflexivity |]. exists df. split; [exact Hl | exact Hc].
Qed.

End Curves.

(** X17.  On a session that [main_menu] holds and whose stored prices are
    positive, the performance chart has one pair of curves per instrument,
    in the order of the dict and under its ticker.  Each curve has one
    point per row of the frame; the growth of one unit starts at 1 and is
    never [nan]; the drawdown starts at 0 and stays between -1 and 0. *)
Theorem performance_chart_has_a_curve_per_coin (s : session) :
  session_wf s ->
  Forall (fun kv => exists df ps,
              heap s !! snd kv = Some df /\
              Price df = map Fin ps /\ Forall (fun p => (0 < p)%R) ps)
         (coins s) ->
  exists curves : list (string * list float64 * list float64),
    plot_performance (heap s) (coins s) = Performance curves /\
    Forall2 (fun kv c =>
               fst (fst c) = fst kv /\
               exists df, heap s !! snd kv = Some df /\ curve_ok df c)
            (coins s) curves.
Proof.
  intros [_ [_ [_ Hfr]]] Hpos.
  exists (performance_curves (heap s) (coins s)).
  split; [reflexivity |].
  apply performance_curves_in_order.
  eapply Forall_impl; [exact Hpos |].
  intros kv [df [ps [Hl [Hp Hps]]]]. exists df, ps.
  split; [exact Hl |]. split; [exact (Hfr _ _ Hl) |].
  split; assumption.
Qed.

Lemma performance_chart_has_a_curve_per_coin_witness :
  exists curves : list (string * list float64 * list float64),
    plot_performance two_day_heap two_coins = Performance curves /\
    Forall2 (fun kv c =>
               fst (fst c) = fst kv /\
               exists df, two_day_heap !! snd kv = Some df /\ curve_ok df c)
            two_coins curves.
Proof.
  apply (performance_chart_has_a_curve_per_coin
           (mkSession two_coins two_day_heap) two_day_session_wf).
  cbn [heap coins]. unfold two_coins.
  constructor; [| constructor; [| constructor]].
  - exists (stored [Timestamp 1; Timestamp 2] [Fin 100; Fin 110]),
      [100; 110]%R.
    split; [reflexivity |]. split; [reflexivity |].
    repeat constructor; lra.
  - exists (stored [Timestamp 1; Timestamp 2] [Fin 100; Fin 120]),
      [100; 120]%R.
    split; [reflexivity |]. split; [reflexivity |].
    repeat constructor; lra.
Defined.

(** ** The order of the rows in the file *)

Section RowOrder.

Lemma string_leb_antisym (a b : string) :
  String.leb a b = true -> String.leb b a = true -> a = b.
Proof.
  unfold String.leb. rewrite (String.compare_antisym b a).
  destruct (String.compare a b) eqn:E; simpl; try discriminate.
  intros _ _. apply String.compare_eq_iff. exact E.
Qed.

Lemma label_leb_antisym (a b : label) :
  label_leb a b = true -> label_leb b a = true -> a = b.
Proof.
  destruct a as [x | x], b as [y | y]; simpl; try discriminate.
  - intros H1 H2. apply Z.leb_le in H1. apply Z.leb_le in H2.
    f_equal. lia.
  - intros H1 H2. f_equal. apply string_leb_antisym; assumption.
Qed.

(** Two ascending arrangements of the same rows, no label repeated, are
    the same list. *)
Lemma sorted_rows_unique {A : Type} (a b : list (label * A)) :
  StronglySorted label_le a -> StronglySorted label_le b ->
  Permutation a b -> List.NoDup (map fst a) -> a = b.
Proof.
  revert b. induction a as [| x a' IH]; intros b Ha Hb Hp Hnd.
  - apply Permutation_nil in Hp. now subst.
  - destruct b as [| y b'].
    { apply Permutation_sym, Permutation_nil in Hp. discriminate. }
    apply StronglySorted_inv in Ha. destruct Ha as [Ha' Hx].
    apply StronglySorted_inv in Hb. destruct Hb as [Hb' Hy].
    cbn [map] in Hnd. apply List.NoDup_cons_iff in Hnd.
    destruct Hnd as [Hxa Hnd].
    assert (Exy : x = y).
    { assert (Hxin : In x (y :: b'))
        by (apply (Permutation_in _ Hp); left; reflexivity).
      assert (Hyin : In y (x :: a'))
        by (apply (Permutation_in _ (Permutation_sym Hp)); left;
            reflexivity).
      destruct Hxin as [E | Hxin]; [now subst |].
      destruct Hyin as [E | Hyin]; [now subst |].
      rewrite List.Forall_forall in Hx, Hy.
      pose proof (label_leb_antisym _ _ (Hx y Hyin) (Hy x Hxin)) as E.
      exfalso. apply Hxa. rewrite E. apply in_map. exact Hyin. }
    subst y. f_equal.
    apply IH; [assumption | assumption | | assumption].
    apply (Permutation_cons_inv Hp).
Qed.

Lemma sort_rows_order_free {A : Type} (l l' : list (label * A)) :
  Permutation l' l -> List.NoDup (map fst l) ->
  sort_rows l' = sort_rows l.
Proof.
  intros Hp Hnd. apply sorted_rows_unique.
  - apply sort_rows_strongly_sorted.
  - apply sort_rows_strongly_sorted.
  - rewrite !sort_rows_perm. exact Hp.
  - apply (Permutation_NoDup (l := map fst l')).
    + apply Permutation_map. symmetry. apply sort_rows_perm.
    + apply (Permutation_NoDup (l := map fst l)); [| exact Hnd].
      apply Permutation_map. symmetry. exact Hp.
Qed.

Lemma forallb_perm {A : Type} (f : A -> bool) (l l' : list A) :
  Permutation l' l -> forallb f l' = forallb f l.
Proof.
  induction 1 as [| x l1 l2 _ IH | x y l1 | l1 l2 l3 _ IH1 _ IH2]; simpl.
  - reflexivity.
  - now rewrite IH.
  - destruct (f x), (f y); reflexivity.
  - congruence.
Qed.

(** Type inference on a column goes by whether every cell converts, so it
    reads every cell the same way whatever the order of the cells. *)
Lemma all_some_total {A : Type} (f : string -> option A) (d : A)
    (l : list string) :
  Forall (fun c => f c <> None) l ->
  all_some (map f l)
  = Some (map (fun c => match f c with Some a => a | None => d end) l).
Proof.
  induction 1 as [| c t Hc _ IH]; [reflexivity |].
  cbn [map all_some]. destruct (f c) as [a |]; [| contradiction].
  rewrite IH. reflexivity.
Qed.

Lemma all_some_partial {A : Type} (f : string -> option A)
    (l : list string) :
  (exists c, In c l /\ f c = None) -> all_some (map f l) = None.
Proof.
  induction l as [| c t IH]; intros [x [Hin Hx]]; [contradiction |].
  cbn [map all_some]. destruct (f c) as [a |] eqn:Ec; [| reflexivity].
  destruct Hin as [-> | Hin]; [congruence |].
  rewrite IH; [reflexivity | eauto].
Qed.

Lemma inferred_cellwise {A B : Type} (f : string -> option A)
    (some : A -> B) (none : string -> B) (l : list string) :
  exists g : string -> B,
    forall l', Permutation l' l ->
      match all_some (map f l') with
      | Some vs => map some vs
      | None => map none l'
      end = map g l'.
Proof.
  destruct (forallb (fun c => match f c with Some _ => true
                                 | None => false end) l) eqn:Eall.
  - assert (Hall : Forall (fun c => f c <> None) l).
    { apply List.Forall_forall. intros c Hc.
      rewrite forallb_forall in Eall. specialize (Eall c Hc).
      destruct (f c); [discriminate | discriminate]. }
    destruct l as [| c0 t0].
    + exists none. intros l' Hp.
      apply Permutation_sym, Permutation_nil in Hp. subst. reflexivity.
    + destruct (f c0) as [a0 |] eqn:E0;
        [| inversion Hall; congruence].
      exists (fun c => some match f c with Some a => a | None => a0 end).
      intros l' Hp.
      rewrite (all_some_total f a0 l'), map_map; [reflexivity |].
      rewrite List.Forall_forall in *. intros c Hc.
      apply Hall. apply (Permutation_in _ Hp). exact Hc.
  - exists none. intros l' Hp.
    rewrite all_some_partial; [reflexivity |].
    assert (Hex : exists c, In c l /\ f c = None).
    { clear Hp. induction l as [| c t IH]; [discriminate |].
      cbn [forallb] in Eall. destruct (f c) eqn:Ec.
      - destruct (IH Eall) as [x [Hx Hn]]. exists x.
        split; [right; exact Hx | exact Hn].
      - exists c. split; [left; reflexivity | exact Ec]. }
    destruct Hex as [c [Hc Hn]]. exists c.
    split; [apply (Permutation_in _ (Permutation_sym Hp)); exact Hc
           | exact Hn].
Qed.

Lemma combine_map_both {A B C : Type} (f : A -> B) (g : A -> C)
    (l : list A) :
  combine (map f l) (map g l) = map (fun x => (f x, g x)) l.
Proof. induction l as [| x t IH]; simpl; [reflexivity | now rewrite IH]. Qed.

End RowOrder.

Section RowOrderOfLoad.

Variable read_file : string -> outcome raw_table.
Variable parse_datetime : string -> option Z.
Variable csv_float : string -> option float64.
Variable to_numeric : string -> float64.

(** The frame the reader builds, row by row: each row of the frame comes
    from one row of the file, read the same way wherever it stands. *)
Lemma read_rows_rowwise (t : raw_table) (d : nat) :
  exists G : list string -> label * cell,
    forall b', Permutation b' (body t) ->
      combine (read_dates parse_datetime (map (cell_at d) b'))
              match position "Close/Last" (map normalise (header t)) with
              | Some p => read_column csv_float (map (cell_at p) b')
              | None => map (fun _ => Obj EmptyString) b'
              end
      = map G b' /\
      map fst (map G b')
      = read_dates parse_datetime (map (cell_at d) b').
Proof.
  destruct (inferred_cellwise parse_datetime Timestamp Text
              (map (cell_at d) (body t))) as [gd Hgd].
  assert (Hd : forall b', Permutation b' (body t) ->
                 read_dates parse_datetime (map (cell_at d) b')
                 = map (fun row => gd (cell_at d row)) b').
  { intros b' Hp. unfold read_dates.
    rewrite (Hgd (map (cell_at d) b')) by (apply Permutation_map; exact Hp).
    apply map_map. }
  destruct (position "Close/Last" (map normalise (header t))) as [p |].
  - destruct (inferred_cellwise csv_float Num Obj
                (map (cell_at p) (body t))) as [gp Hgp].
    exists (fun row => (gd (cell_at d row), gp (cell_at p row))).
    intros b' Hp. rewrite (Hd b' Hp). unfold read_column.
    rewrite (Hgp (map (cell_at p) b')) by (apply Permutation_map; exact Hp).
    rewrite (map_map (cell_at p) gp), combine_map_both.
    split; [reflexivity | apply map_map].
  - exists (fun row => (gd (cell_at d row), Obj EmptyString)).
    intros b' Hp. rewrite (Hd b' Hp), combine_map_both.
    split; [reflexivity | apply map_map].
Qed.

Lemma load_body_order_free (path path' : string) (t t' : raw_table) :
  read_file path = Returned t ->
  read_file path' = Returned t' ->
  header t' = header t ->
  Permutation (body t') (body t) ->
  (forall d, position "Date" (header t) = Some d ->
             List.NoDup (read_dates parse_datetime
                           (map (cell_at d) (body t)))) ->
  load_body read_file parse_datetime csv_float to_numeric path'
  = load_body read_file parse_datetime csv_float to_numeric path.
Proof.
  intros Hr Hr' Hh Hp Hnd.
  unfold load_body, read_csv. rewrite Hr, Hr'. cbn [bind]. rewrite Hh.
  destruct (position "Date" (header t)) as [d |] eqn:Ed; [| reflexivity].
  specialize (Hnd d eq_refl).
  destruct (read_rows_rowwise t d) as [G HG].
  destruct (HG (body t') Hp) as [-> _].
  destruct (HG (body t) (Permutation_refl _)) as [-> Hfst].
  rewrite <- Hfst in Hnd.
  assert (Hperm : Permutation (map G (body t')) (map G (body t)))
    by (apply Permutation_map; exact Hp).
  generalize dependent (map G (body t')). intros rows' Hperm.
  generalize dependent (map G (body t)). intros rows0 Hnd _ Hperm.
  cbv zeta.
  unfold select_single, dtype_is_object, sort_index, rename_close_last,
    set_columns.
  cbn [bind columns rows].
  destruct (negb _); [reflexivity |].
  destruct (_ =? 1)%nat; cbn [bind]; [| reflexivity].
  rewrite (forallb_perm _ rows0 rows' Hperm).
  destruct (forallb _ rows0); unfold clean_price; cbn [columns rows];
    (destruct (_ =? 1)%nat; cbn [bind]; [| reflexivity]);
    do 4 f_equal; apply sort_rows_order_free.
  - apply Permutation_map. exact Hperm.
  - rewrite map_map. cbn [fst]. exact Hnd.
  - exact Hperm.
  - exact Hnd.
Qed.

End RowOrderOfLoad.

(** X18.  The loader does not depend on the order of the rows in the file.
    Two files with the same header and the same rows in a different order,
    no date occurring twice, load to the same result: the same frame, or
    the same failure with the same printed line.  This holds for every
    date parser and numeric conversion that read a cell on its own, as the
    parameters of the reader do. *)
Theorem load_ignores_row_order
  (read_file : string -> outcome raw_table)
  (parse_datetime : string -> option Z)
  (csv_float : string -> option float64) (to_numeric : string -> float64)
  (path path' : string) (t t' : raw_table) :
  read_file path = Returned t ->
  read_file path' = Returned t' ->
  header t' = header t ->
  Permutation (body t') (body t) ->
  (forall d, position "Date" (header t) = Some d ->
             List.NoDup (read_dates parse_datetime
                           (map (cell_at d) (body t)))) ->
  load_data_from_csv read_file parse_datetime csv_float to_numeric path'
  = load_data_from_csv read_file parse_datetime csv_float to_numeric path.
Proof.
  intros Hr Hr' Hh Hp Hnd. unfold load_data_from_csv.
  rewrite (load_body_order_free read_file parse_datetime csv_float
             to_numeric path path' t t' Hr Hr' Hh Hp Hnd).
  reflexivity.
Qed.

Lemma load_ignores_row_order_witness :
  let swapped :=
    mkRaw (header dollar_table)
          [["2024-01-01"; "$1,200.00"; "12"];
           ["2024-01-02"; "$1,234.50"; "10"]]%string in
  let read_file := fun p : string =>
    if String.eqb p "a.csv" then Returned dollar_table
    else Returned swapped in
  load_data_from_csv read_file Plain.parse_datetime Plain.csv_float
    Plain.to_numeric "b.csv"
  = load_data_from_csv read_file Plain.parse_datetime Plain.csv_float
      Plain.to_numeric "a.csv".
Proof.
  intros swapped read_file.
  apply (load_ignores_row_order read_file Plain.parse_datetime
           Plain.csv_float Plain.to_numeric "a.csv" "b.csv"
           dollar_table swapped).
  - reflexivity.
  - reflexivity.
  - reflexivity.
  - apply perm_swap.
  - intros d H. vm_compute in H. injection H as <-. vm_compute.
    repeat constructor; simpl; intros H;
      repeat (destruct H as [H | H]; try discriminate); exact H.
Defined.

(** ** The path typed at choice 1 *)

Section Paths.

Lemma remove_char_subset (c x : ascii) (s : string) :
  In x (list_ascii_of_string (remove_char c s)) ->
  In x (list_ascii_of_string s).
Proof.
  induction s as [| d t IH]; [trivial |].
  cbn [remove_char]. destruct (Ascii.eqb c d); cbn [list_ascii_of_string].
  - intros H. right. apply IH. exact H.
  - intros [H | H]; [left; exact H | right; apply IH; exact H].
Qed.

Lemma remove_char_gone (c : ascii) (s : string) :
  ~ In c (list_ascii_of_string (remove_char c s)).
Proof.
  induction s as [| d t IH]; [intros [] |].
  cbn [remove_char]. destruct (Ascii.eqb_spec c d) as [-> | Hne];
    [exact IH |].
  cbn [list_ascii_of_string]. intros [H | H]; [congruence | exact (IH H)].
Qed.

(** No quote of either kind is left in the path that is looked up. *)
Lemma clean_path_has_no_quote (line : string) :
  ~ In "'"%char (list_ascii_of_string (clean_path line)) /\
  ~ In double_quote (list_ascii_of_string (clean_path line)).
Proof.
  unfold clean_path. split.
  - apply remove_char_gone.
  - intros H. apply remove_char_subset in H.
    exact (remove_char_gone _ _ H).
Qed.

End Paths.

(** X19.  Choice 1 removes every single and double quote from the path it
    was given, not only quotes around it.  A file whose name contains a
    quote therefore cannot be loaded: where every existing path has one,
    the answer is always that the file was not found and the session stays
    as it was. *)
Theorem quoted_file_names_are_not_found
  (path_exists : string -> bool)
  (read_file : string -> outcome raw_table)
  (parse_datetime : string -> option Z)
  (csv_float : string -> option float64) (to_numeric : string -> float64)
  (s : session) (ticker_line path_line : string) :
  (forall p, path_exists p = true ->
             In "'"%char (list_ascii_of_string p) \/
             In double_quote (list_ascii_of_string p)) ->
  menu_load path_exists read_file parse_datetime csv_float to_numeric
    s ticker_line path_line
  = (Returned s, [Print Error_file_not_found]).
Proof.
  intros Hq. unfold menu_load.
  destruct (path_exists (clean_path path_line)) eqn:E; [| reflexivity].
  exfalso. destruct (clean_path_has_no_quote path_line) as [H1 H2].
  destruct (Hq _ E) as [H | H]; [exact (H1 H) | exact (H2 H)].
Qed.

Lemma quoted_file_names_are_not_found_witness :
  menu_load (String.eqb "it's.csv") (Plain.one_file "it's.csv" dollar_table)
    Plain.parse_datetime Plain.csv_float Plain.to_numeric
    (mkSession [] ∅) "btc" "it's.csv"
  = (Returned (mkSession [] ∅), [Print Error_file_not_found]).
Proof.
  apply quoted_file_names_are_not_found.
  intros p H. apply String.eqb_eq in H. subst p.
  left. simpl. tauto.
Defined.
